(** * zero-api-md: the TikTok resolution-and-retrieval pipeline

    A shallow embedding of [src/modules/ytdl/index.ts] (the TikTok downloader
    part: [formatUploadDate], [validateURL], [getMediaInfoFromAPI],
    [downloadImages], [downloadVideo], [extractVideoDataFromJson],
    [processUrl] and the loop of [main]) with the properties of the
    specification stated over it.

    Modelling conventions.
    - JavaScript values of type [any] are the inductive [JsVal]; numbers are
      the integers (identifiers, timestamps, lengths), so fractional numbers
      are outside the model; [NaN] is the [None] of [ToNumber]. Integers
      below 2^53 are Number values; a larger one is printed as the Number
      value nearest to it, the way the language prints it.
    - Strings are [string]: sequences of code units below 256.
    - Exceptions are explicit: pure code returns [Res], effectful code runs
      in the state-and-exception monad [M].
    - The collaborators the program does not define (HTTP client, markup
      parser, [JSON.parse], file-system errors, the local time zone) are the
      fields of a [World].
    - The spinner is a log of what it was told to show; the colouring of
      its messages is left out. *)

From Stdlib Require Import ZArith String Ascii List Bool Lia DecimalString DecimalZ DecimalPos.
Import ListNotations.
Local Open Scope string_scope.
Local Open Scope Z_scope.

(* ------------------------------------------------------------------ *)
(** ** Strings *)

Module Str.

(** [s.startsWith(p)], returning the rest of [s]. *)
Fixpoint strip_prefix (p s : string) : option string :=
  match p with
  | EmptyString => Some s
  | String a p' =>
      match s with
      | EmptyString => None
      | String b s' => if Ascii.eqb a b then strip_prefix p' s' else None
      end
  end.

(** [s.includes(sub)]. *)
Fixpoint includes (sub s : string) : bool :=
  match strip_prefix sub s with
  | Some _ => true
  | None =>
      match s with
      | EmptyString => false
      | String _ s' => includes sub s'
      end
  end.

Fixpoint forallb (f : ascii -> bool) (s : string) : bool :=
  match s with
  | EmptyString => true
  | String a s' => f a && forallb f s'
  end.

Fixpoint repeat (a : ascii) (n : nat) : string :=
  match n with
  | O => EmptyString
  | S n' => String a (repeat a n')
  end.

(** [s.padStart(n, "0")]. *)
Definition padStart0 (n : nat) (s : string) : string :=
  repeat "0"%char (n - String.length s) ++ s.

Definition is_empty (s : string) : bool :=
  match s with EmptyString => true | _ => false end.

(** Code units that [String.prototype.trim] removes (white space and line
    terminators below 256). *)
Definition is_space (a : ascii) : bool :=
  let n := nat_of_ascii a in
  (Nat.leb 9 n && Nat.leb n 13) || Nat.eqb n 32 || Nat.eqb n 160.

Fixpoint trimStart (s : string) : string :=
  match s with
  | EmptyString => EmptyString
  | String a s' => if is_space a then trimStart s' else s
  end.

Fixpoint trimEnd (s : string) : string :=
  match s with
  | EmptyString => EmptyString
  | String a s' =>
      match trimEnd s' with
      | EmptyString => if is_space a then EmptyString else String a EmptyString
      | t => String a t
      end
  end.

Definition trim (s : string) : string := trimEnd (trimStart s).

Definition hex_digit (n : nat) : ascii :=
  ascii_of_nat (if Nat.ltb n 10 then 48 + n else 55 + n).

Definition percent (n : nat) : string :=
  String "%"%char (String (hex_digit (n / 16)) (String (hex_digit (n mod 16)) EmptyString)).

(** Characters [encodeURIComponent] leaves alone: letters, digits and
    [- _ . ! ~ * ' ( )]. *)
Definition uri_unreserved (a : ascii) : bool :=
  let n := nat_of_ascii a in
  (Nat.leb 65 n && Nat.leb n 90) || (Nat.leb 97 n && Nat.leb n 122)
  || (Nat.leb 48 n && Nat.leb n 57)
  || existsb (Nat.eqb n) [45; 95; 46; 33; 126; 42; 39; 40; 41]%nat.

(** [encodeURIComponent]: every other code unit is written as the
    percent-escapes of its UTF-8 bytes (one byte below 128, two above). *)
Fixpoint encodeURIComponent (s : string) : string :=
  match s with
  | EmptyString => EmptyString
  | String a s' =>
      let n := nat_of_ascii a in
      (if uri_unreserved a then String a EmptyString
       else if Nat.ltb n 128 then percent n
       else percent (192 + n / 64) ++ percent (128 + n mod 64))
      ++ encodeURIComponent s'
  end.

End Str.

(* ------------------------------------------------------------------ *)
(** ** JavaScript values and the coercions the program relies on *)

#[local] Set Warnings "-register-all".

Inductive JsVal : Type :=
| JUndefined
| JNull
| JBool (b : bool)
| JNum (n : Z)
| JStr (s : string)
| JArr (elems : list JsVal)
| JObj (props : list (string * JsVal)).

(** A thrown value: every value the program throws or receives from a
    collaborator is an [Error] object, of which [name] and [message] are
    read. *)
Record Exn : Type := mkExn { exn_name : string; exn_message : string }.

Inductive Res (A : Type) : Type :=
| Ok (a : A)
| Throw (e : Exn).
Arguments Ok {A} a.
Arguments Throw {A} e.

Module Js.

(** The decimal digits of an integer. *)
Definition decimal (n : Z) : string := NilZero.string_of_int (Z.to_int n).

(** The Number value nearest to a positive integer: 53 significant bits,
    ties to even. Integers below 2^53 are Number values themselves. *)
Definition round_to_double (z : Z) : Z :=
  let e := Z.log2 z - 52 in
  if e <=? 0 then z
  else
    let q := Z.shiftr z e in
    let r := z - Z.shiftl q e in
    let half := Z.shiftl 1 (e - 1) in
    let q' := if r <? half then q
              else if half <? r then q + 1
              else if Z.even q then q else q + 1 in
    Z.shiftl q' e.

Definition digits (z : Z) : Z := Z.of_nat (String.length (decimal z)).

(** The integer with the fewest significant digits whose Number value is
    [x], the closest to [x] when there are two; [D] is the number of digits
    of [x] and [k] the number of significant digits tried. *)
Fixpoint shortest (fuel : nat) (k x D : Z) : Z :=
  match fuel with
  | O => x
  | S fuel' =>
      let m := D - k in
      if m <=? 0 then x
      else
        let p := 10 ^ m in
        let lo := (x / p) * p in
        let hi := lo + p in
        let ok_lo := round_to_double lo =? x in
        let ok_hi := round_to_double hi =? x in
        if ok_lo && ok_hi then
          (if x - lo <? hi - x then lo
           else if hi - x <? x - lo then hi
           else if Z.even (x / p) then lo else hi)
        else if ok_lo then lo
        else if ok_hi then hi
        else shortest fuel' (k + 1) x D
  end.

Fixpoint strip_zeros (s : string) : string :=
  match s with
  | EmptyString => EmptyString
  | String a r =>
      match strip_zeros r with
      | EmptyString => if Ascii.eqb a "0" then EmptyString else String a EmptyString
      | r' => String a r'
      end
  end.

(** [Number::toString] of a Number value [x] of 2^53 or more: its shortest
    digits, followed by zeros below 10^21 and in exponent form from there
    on. *)
Definition large_toString (x : Z) : string :=
  if 2 ^ 1024 <=? x then "Infinity"
  else
    let c := shortest 17 1 x (digits x) in
    let n := digits c in
    if n <=? 21 then decimal c
    else
      match strip_zeros (decimal c) with
      | String d EmptyString => String d ("e+" ++ decimal (n - 1))
      | String d r => String d ("." ++ r ++ "e+" ++ decimal (n - 1))
      | EmptyString => EmptyString
      end.

(** [Number::toString] in radix 10, on the integers: all the digits below
    2^53; from there on an integer stands for the Number value nearest to
    it. *)
Definition Number_toString (n : Z) : string :=
  if Z.abs n <? 9007199254740992 then decimal n
  else if n <? 0 then "-" ++ large_toString (round_to_double (- n))
  else large_toString (round_to_double n).

(** [!!v]. *)
Definition truthy (v : JsVal) : bool :=
  match v with
  | JUndefined | JNull => false
  | JBool b => b
  | JNum n => negb (n =? 0)
  | JStr s => negb (Str.is_empty s)
  | JArr _ | JObj _ => true
  end.

Definition nullish (v : JsVal) : bool :=
  match v with
  | JUndefined | JNull => true
  | _ => false
  end.

(** [a || b]. *)
Definition or_else (a b : JsVal) : JsVal := if truthy a then a else b.

(** [ToString], as applied by template literals. *)
Fixpoint ToString (v : JsVal) : string :=
  match v with
  | JUndefined => "undefined"
  | JNull => "null"
  | JBool b => if b then "true" else "false"
  | JNum n => Number_toString n
  | JStr s => s
  | JArr l =>
      (fix join (l : list JsVal) : string :=
         match l with
         | [] => ""
         | x :: r =>
             let sx := match x with
                       | JUndefined | JNull => ""
                       | _ => ToString x
                       end in
             match r with
             | [] => sx
             | _ :: _ => sx ++ "," ++ join r
             end
         end) l
  | JObj _ => "[object Object]"
  end.

Fixpoint lookup (k : string) (ps : list (string * JsVal)) : JsVal :=
  match ps with
  | [] => JUndefined
  | (k', v) :: r => if String.eqb k k' then v else lookup k r
  end.

Definition char_at (s : string) (i : Z) : JsVal :=
  if i <? 0 then JUndefined
  else match String.get (Z.to_nat i) s with
       | Some a => JStr (String a EmptyString)
       | None => JUndefined
       end.

(** What reading the named property [k] gives on a value that is not
    [null] or [undefined] ([k] is never an array index or a prototype
    member in this program). *)
Definition member (v : JsVal) (k : string) : JsVal :=
  match v with
  | JObj ps => lookup k ps
  | JArr l => if String.eqb k "length" then JNum (Z.of_nat (List.length l)) else JUndefined
  | JStr s => if String.eqb k "length" then JNum (Z.of_nat (String.length s)) else JUndefined
  | _ => JUndefined
  end.

(** What reading index [i] gives: [v[i]]. *)
Definition element (v : JsVal) (i : Z) : JsVal :=
  match v with
  | JArr l => if i <? 0 then JUndefined else nth (Z.to_nat i) l JUndefined
  | JStr s => char_at s i
  | JObj ps => lookup (Number_toString i) ps
  | _ => JUndefined
  end.

Definition read_error (v : JsVal) (k : string) : Exn :=
  mkExn "TypeError"
    ("Cannot read properties of " ++ ToString v ++ " (reading '" ++ k ++ "')").

(** [v.k]: a [TypeError] on [null] and [undefined]. *)
Definition getProp (v : JsVal) (k : string) : Res JsVal :=
  if nullish v then Throw (read_error v k) else Ok (member v k).

(** [v?.k]. *)
Definition getPropOpt (v : JsVal) (k : string) : JsVal :=
  if nullish v then JUndefined else member v k.

(** [v[i]]. *)
Definition getIndex (v : JsVal) (i : Z) : Res JsVal :=
  if nullish v then Throw (read_error v (Number_toString i)) else Ok (element v i).

(** [v?.[i]]. *)
Definition getIndexOpt (v : JsVal) (i : Z) : JsVal :=
  if nullish v then JUndefined else element v i.

(** [a !== b] against a string literal. *)
Definition strict_neq_str (v : JsVal) (lit : string) : bool :=
  match v with
  | JStr s => negb (String.eqb s lit)
  | _ => true
  end.

Section Coercion.
(** [StringToNumber] of the language, [None] for [NaN]. *)
Variable StringToNumber : string -> option Z.

Definition ToNumber (v : JsVal) : option Z :=
  match v with
  | JUndefined => None
  | JNull => Some 0
  | JBool b => Some (if b then 1 else 0)
  | JNum n => Some n
  | JStr s => StringToNumber s
  | JArr _ => StringToNumber (ToString v)
  | JObj _ => None
  end.

(** [v > n] for a number [n]. *)
Definition gt_num (v : JsVal) (n : Z) : bool :=
  match ToNumber v with
  | Some x => n <? x
  | None => false
  end.

(** How many times [for (let i = 0; i < v; i++)] runs its body. *)
Definition loop_count (v : JsVal) : nat :=
  match ToNumber v with
  | Some x => Z.to_nat x
  | None => O
  end.
End Coercion.

End Js.

(* ------------------------------------------------------------------ *)
(** ** The calendar of [Date] (ECMAScript time values, milliseconds) *)

Module JsDate.

Definition msPerDay : Z := 86400000.
Definition maxTime : Z := 8640000000000000.

Definition Day (t : Z) : Z := t / msPerDay.

Definition DayFromYear (y : Z) : Z :=
  365 * (y - 1970) + (y - 1969) / 4 - (y - 1901) / 100 + (y - 1601) / 400.

Definition InLeapYear (y : Z) : Z :=
  if (y mod 4 =? 0) && (negb (y mod 100 =? 0) || (y mod 400 =? 0)) then 1 else 0.

(** The year of day number [d]: the largest [y] with [DayFromYear y <= d]
    (see [year_of_day_spec]). *)
Definition year_of_day (d : Z) : Z :=
  let y := 1970 + (400 * d) / 146097 in
  if d <? DayFromYear y then y - 1
  else if DayFromYear (y + 1) <=? d then y + 1
  else y.

Definition YearFromTime (t : Z) : Z := year_of_day (Day t).

Definition DayWithinYear (t : Z) : Z := Day t - DayFromYear (YearFromTime t).

(** First day of each month in a year with leap-day count [l], and the
    month (0-based) and day of month (1-based) read off that table. *)
Definition month_start (l : Z) : list Z :=
  [0; 31; 59 + l; 90 + l; 120 + l; 151 + l; 181 + l; 212 + l; 243 + l;
   273 + l; 304 + l; 334 + l].

Fixpoint month_in (starts : list Z) (m first d : Z) : Z * Z :=
  match starts with
  | [] => (m, d - first + 1)
  | next :: r => if d <? next then (m, d - first + 1) else month_in r (m + 1) next d
  end.

Definition month_and_date (t : Z) : Z * Z :=
  month_in (tl (month_start (InLeapYear (YearFromTime t)))) 0 0 (DayWithinYear t).

Definition MonthFromTime (t : Z) : Z := fst (month_and_date t).
Definition DateFromTime (t : Z) : Z := snd (month_and_date t).

(** [new Date(v)] is invalid outside the representable range. *)
Definition TimeClip (v : Z) : option Z :=
  if Z.abs v <=? maxTime then Some v else None.

End JsDate.


(* ------------------------------------------------------------------ *)
(** ** Program state, collaborators and the monad of effects *)

Inductive Status : Type := Success | Failed.

(** [interface DownloadStat]. *)
Module DownloadStat.
Record t : Type := mk {
  type : string;
  id : JsVal;
  author : JsVal;
  status : Status;
  details : string
}.
End DownloadStat.

(** [interface VideoData]; the fields are filled from [any]-typed payloads,
    so each holds whatever value the payload had. *)
Record VideoData : Type := mkVideoData {
  authorUniqueId : JsVal;
  videoId : JsVal;
  createTime : JsVal;
  videoUrl : JsVal;
  description : JsVal
}.

(** A call of the axios [instance]. *)
Record Request : Type := mkRequest {
  rq_url : JsVal;
  rq_headers : list (string * string);
  rq_responseType : option string
}.

(** What the markup parser exposes of a selected element: its child nodes,
    each with its [data] when it is a text node. *)
Record DomNode : Type := mkNode { data : option string }.
Record DomElement : Type := mkElement { children : list DomNode }.

(** A call [path.join(dir, fileName)], kept as its two arguments. The
    library normalises the joined text ([.], [..] and separators inside
    [fileName] included), so the pair says which call was made and not in
    which directory the file ends up. *)
Definition Path : Type := (string * string)%type.
Definition path_join (dir fileName : string) : Path := (dir, fileName).

Inductive Event : Type :=
| EvRequest (rq : Request)
| EvMkdir (dir : string)
| EvWrite (p : Path) (content : JsVal).

Inductive SpinnerEvent : Type :=
| SpStart (text : string)
| SpText (text : string)
| SpSucceed (text : string)
| SpFail (text : string).

(** The collaborators. [http n rq] is what the [n]-th call of the axios
    instance gives for request [rq]: the response's [data], or the error
    thrown. *)
Record World : Type := mkWorld {
  LocalTZA : Z -> Z;
  StringToNumber : string -> option Z;
  JSON_parse : string -> Res JsVal;
  cheerio_select : JsVal -> string -> Res (list DomElement);
  http : nat -> Request -> Res JsVal;
  mkdirSync_error : string -> option Exn;
  writeFileSync_error : Path -> JsVal -> option Exn
}.

(** [downloadStats] is the module-level ledger; [dirs] are the directories
    that exist; [io] is the history of requests and file-system writes;
    [calls] counts the requests made; [spinner] is what the spinner showed. *)
Record State : Type := mkState {
  downloadStats : list DownloadStat.t;
  dirs : list string;
  io : list Event;
  calls : nat;
  spinner : list SpinnerEvent
}.

Definition M (A : Type) : Type := State -> Res A * State.

Class Monad (F : Type -> Type) : Type := {
  ret : forall {A}, A -> F A;
  bind : forall {A B}, F A -> (A -> F B) -> F B
}.

#[global] Instance Monad_Res : Monad Res := {
  ret := fun A a => Ok a;
  bind := fun A B r k => match r with Ok a => k a | Throw e => Throw e end
}.

#[global] Instance Monad_M : Monad M := {
  ret := fun A a s => (Ok a, s);
  bind := fun A B m k s =>
    match m s with
    | (Ok a, s') => k a s'
    | (Throw e, s') => (Throw e, s')
    end
}.

Notation "x <- m ;; k" := (bind m (fun x => k))
  (at level 61, m at next level, right associativity).
Notation "m ;; k" := (bind m (fun _ => k))
  (at level 61, right associativity).

Definition throw {A} (e : Exn) : M A := fun s => (Throw e, s).

Definition liftR {A} (r : Res A) : M A := fun s => (r, s).

(** [try { m } catch (e) { h e }]. *)
Definition try_catch {A} (m : M A) (h : Exn -> M A) : M A :=
  fun s =>
    match m s with
    | (Ok a, s') => (Ok a, s')
    | (Throw e, s') => h e s'
    end.

(** [new Error(message)]. *)
Definition Error (message : string) : Exn := mkExn "Error" message.

(** [String(e)] on an error object. *)
Definition Error_toString (e : Exn) : string :=
  if Str.is_empty (exn_name e) then exn_message e
  else if Str.is_empty (exn_message e) then exn_name e
  else exn_name e ++ ": " ++ exn_message e.

Definition log_io (ev : Event) (s : State) : State :=
  mkState (downloadStats s) (dirs s) (io s ++ [ev]) (calls s) (spinner s).

Definition log_spinner (ev : SpinnerEvent) : M unit :=
  fun s => (Ok tt, mkState (downloadStats s) (dirs s) (io s) (calls s) (spinner s ++ [ev])).

(** [downloadStats.push(stat)]. *)
Definition push_stat (stat : DownloadStat.t) : M unit :=
  fun s => (Ok tt, mkState (downloadStats s ++ [stat]) (dirs s) (io s) (calls s) (spinner s)).

Definition has_dir (d : string) (s : State) : bool := existsb (String.eqb d) (dirs s).

(* ------------------------------------------------------------------ *)
(** ** The program *)

Definition USER_AGENT : string :=
  "Mozilla/5.0 (Windows NT 10.0; WOW64) AppleWebKit/537.36 (KHTML, like Gecko) Chrome/120.0.0.0 Safari/537.36".
Definition MOBILE_USER_AGENT : string :=
  "TikTok 26.2.0 rv:262018 (iPhone; iOS 14.4.2; en_US) Cronet".
Definition API_URL : string := "https://api-tiktok-downloader.vercel.app/api/v4/download".
Definition VIDEO_DIR : string := "./tiktok-videos".
Definition IMAGE_DIR : string := "./tiktok-images".
Definition REHYDRATION_SELECTOR : string := "#__UNIVERSAL_DATA_FOR_REHYDRATION__".

Definition is_line_terminator (a : ascii) : bool :=
  let n := nat_of_ascii a in Nat.eqb n 10 || Nat.eqb n 13.

(** [TIKTOK_URL_REGEX.test(url)]: the pattern is anchored at both ends and
    reads: http, an optional s, a colon and two slashes, optionally one of
    www. vm. vt., then tiktok.com, an optional slash, and any run of
    characters other than line terminators up to the end. The optional
    parts are tried in the order of the backtracking matcher. *)
Definition TIKTOK_URL_REGEX_test (url : string) : bool :=
  existsb (fun scheme =>
    existsb (fun sub =>
      existsb (fun slash =>
        match Str.strip_prefix (scheme ++ "://" ++ sub ++ "tiktok.com" ++ slash) url with
        | Some rest => Str.forallb (fun a => negb (is_line_terminator a)) rest
        | None => false
        end) ["/"; ""]) ["www."; "vm."; "vt."; ""]) ["https"; "http"].

Definition validateURL (url : string) : bool :=
  if Str.is_empty url then false else TIKTOK_URL_REGEX_test url.

(** The three requests the program makes: the page, the backup API, and a
    media file fetched with the page as referer. *)
Definition pageRequest (url : string) : Request :=
  mkRequest (JStr url) [("User-Agent", USER_AGENT)] None.

Definition apiRequest (url : string) : Request :=
  mkRequest (JStr (API_URL ++ "?url=" ++ Str.encodeURIComponent url))
    [("User-Agent", MOBILE_USER_AGENT)] None.

Definition fileRequest (url : JsVal) (referer : string) : Request :=
  mkRequest url [("Referer", referer); ("User-Agent", USER_AGENT)] (Some "arraybuffer").

Section Program.
Variable w : World.

(** [await instance(url, config)]. *)
Definition instance (rq : Request) : M JsVal :=
  fun s =>
    (http w (calls s) rq,
     mkState (downloadStats s) (dirs s) (io s ++ [EvRequest rq]) (S (calls s)) (spinner s)).

Definition mkdirSync (d : string) : M unit :=
  fun s =>
    match mkdirSync_error w d with
    | Some e => (Throw e, s)
    | None => (Ok tt, mkState (downloadStats s) (d :: dirs s) (io s ++ [EvMkdir d]) (calls s) (spinner s))
    end.

Definition writeFileSync (p : Path) (content : JsVal) : M unit :=
  fun s =>
    match writeFileSync_error w p content with
    | Some e => (Throw e, s)
    | None => (Ok tt, log_io (EvWrite p content) s)
    end.

Definition formatUploadDate (timestamp : JsVal) : string :=
  match Js.ToNumber (StringToNumber w) timestamp with
  | None => "NaNNaNNaN"
  | Some ts =>
      match JsDate.TimeClip (ts * 1000) with
      | None => "NaNNaNNaN"
      | Some tv =>
          let createdDate := tv + LocalTZA w tv in
          Str.padStart0 2 (Js.Number_toString (JsDate.DateFromTime createdDate))
          ++ Str.padStart0 2 (Js.Number_toString (JsDate.MonthFromTime createdDate + 1))
          ++ Js.Number_toString (JsDate.YearFromTime createdDate)
      end
  end.

Definition ensureDirectoryExists (dirPath : string) : M unit :=
  fun s => if has_dir dirPath s then (Ok tt, s) else mkdirSync dirPath s.

Definition downloadFile (url : JsVal) (referer : string) : M JsVal :=
  try_catch
    (instance (fileRequest url referer))
    (fun error => throw error).

Definition handleHtml (url : string) : M JsVal :=
  try_catch
    (instance (pageRequest url))
    (fun e => throw (Error (if Str.is_empty (exn_message e) then Error_toString e else exn_message e))).

Definition getMediaInfoFromAPI (url : string) : M JsVal :=
  try_catch
    (response_data <- instance (apiRequest url) ;;
     status <- liftR (Js.getProp response_data "status") ;;
     if Js.strict_neq_str status "success"
     then throw (Error ("API Error: " ++ Js.ToString status))
     else liftR (Js.getProp response_data "result"))
    (fun error => throw error).

(** The [fileName] of the image at index [i] in [downloadImages]. *)
Definition imageFileName (authorId timestamp imageId : JsVal) (i : Z) : string :=
  Js.ToString authorId ++ "_img_" ++ formatUploadDate timestamp ++ "_"
  ++ Js.ToString imageId ++ "_" ++ Js.Number_toString (i + 1) ++ ".jpg".

(** The body of the [for] loop of [downloadImages], for index [i]. *)
Definition downloadImage (url : string) (imageId imageUrls timestamp authorId : JsVal)
    (i : Z) : M unit :=
  len <- liftR (Js.getProp imageUrls "length") ;;
  log_spinner (SpText ("Downloading Image " ++ Js.Number_toString (i + 1) ++ "/"
                       ++ Js.ToString len ++ "...")) ;;
  imageUrl <- liftR (Js.getIndex imageUrls i) ;;
  response_data <- instance (fileRequest imageUrl url) ;;
  let fileName := imageFileName authorId timestamp imageId i in
  writeFileSync (path_join IMAGE_DIR fileName) response_data.

(** [for (let i = 0; i < imageUrls.length; i++) { ...; successCount++ }],
    entered at index [i] with [n] iterations left: [imageUrls] is never
    written, so the test reads the same length every time. *)
Fixpoint imageLoop (url : string) (imageId imageUrls timestamp authorId : JsVal)
    (n : nat) (i successCount : Z) : M Z :=
  match n with
  | O => ret successCount
  | S n' =>
      downloadImage url imageId imageUrls timestamp authorId i ;;
      imageLoop url imageId imageUrls timestamp authorId n' (i + 1) (successCount + 1)
  end.

Definition downloadImages (url : string) (imageId imageUrls timestamp authorId : JsVal)
    : M unit :=
  try_catch
    (ensureDirectoryExists IMAGE_DIR ;;
     len <- liftR (Js.getProp imageUrls "length") ;;
     successCount <- imageLoop url imageId imageUrls timestamp authorId
                       (Js.loop_count (StringToNumber w) len) 0 0 ;;
     push_stat (DownloadStat.mk "Photo Slide" imageId authorId Success
                  (Js.Number_toString successCount ++ " Images")))
    (fun error =>
       push_stat (DownloadStat.mk "Photo" (Js.or_else imageId (JStr "Unknown"))
                    (Js.or_else authorId (JStr "Unknown")) Failed (exn_message error)) ;;
       throw error).

Definition videoFileName (videoData : VideoData) : string :=
  Js.ToString (authorUniqueId videoData) ++ "_vid_" ++ formatUploadDate (createTime videoData)
  ++ "_" ++ Js.ToString (videoId videoData) ++ ".mp4".

Definition downloadVideo (videoData : VideoData) (url : string) : M string :=
  try_catch
    (videoBuffer <- downloadFile (videoUrl videoData) url ;;
     let fileName := videoFileName videoData in
     ensureDirectoryExists VIDEO_DIR ;;
     writeFileSync (path_join VIDEO_DIR fileName) videoBuffer ;;
     push_stat (DownloadStat.mk "Video" (videoId videoData) (authorUniqueId videoData)
                  Success "MP4 Saved") ;;
     ret fileName)
    (fun error =>
       push_stat (DownloadStat.mk "Video" (Js.or_else (videoId videoData) (JStr "Unknown"))
                    (Js.or_else (authorUniqueId videoData) (JStr "Unknown")) Failed
                    (exn_message error)) ;;
       throw error).

(** The playback URL chosen by [extractVideoDataFromJson]: the first URL of
    the first bitrate variant when there is one, else [video.playAddr]. *)
Definition selectVideoUrl (video : JsVal) : Res JsVal :=
  playAddr <- Js.getProp video "playAddr" ;;
  bitrateInfo <- Js.getProp video "bitrateInfo" ;;
  if Js.gt_num (StringToNumber w) (Js.getPropOpt bitrateInfo "length") 0
  then
    first <- Js.getIndex bitrateInfo 0 ;;
    PlayAddr <- Js.getProp first "PlayAddr" ;;
    let candidate := Js.getIndexOpt (Js.getPropOpt PlayAddr "UrlList") 0 in
    ret (if Js.truthy candidate then candidate else playAddr)
  else ret playAddr.

(** The [try] block of [extractVideoDataFromJson]. *)
Definition extractVideoData_body (rawJSON : string) : Res (option VideoData) :=
  parsedJSON <- JSON_parse w rawJSON ;;
  let videoDetail :=
    Js.getPropOpt (Js.getPropOpt parsedJSON "__DEFAULT_SCOPE__") "webapp.video-detail" in
  if negb (Js.truthy videoDetail) then ret None else
  itemInfo <- Js.getProp videoDetail "itemInfo" ;;
  let itemStruct := Js.getPropOpt itemInfo "itemStruct" in
  if negb (Js.truthy itemStruct) then ret None else
  author <- Js.getProp itemStruct "author" ;;
  video <- Js.getProp itemStruct "video" ;;
  if negb (Js.truthy author) || negb (Js.truthy video) then ret None else
  videoUrl <- selectVideoUrl video ;;
  uniqueId <- Js.getProp author "uniqueId" ;;
  id <- Js.getProp itemStruct "id" ;;
  createTime <- Js.getProp itemStruct "createTime" ;;
  desc <- Js.getProp itemStruct "desc" ;;
  ret (Some (mkVideoData uniqueId id createTime videoUrl desc)).

(** [extractVideoDataFromJson]: [null] is [None]. *)
Definition extractVideoDataFromJson (rawJSON : string) : option VideoData :=
  match extractVideoData_body rawJSON with
  | Ok r => r
  | Throw _ => None
  end.

(** [jsonDataElement[0]?.children?.[0]?.data] once
    [jsonDataElement.length > 0]. *)
Definition rehydration_payload (jsonDataElement : list DomElement) : option string :=
  match jsonDataElement with
  | [] => None
  | first :: _ =>
      match children first with
      | [] => None
      | child :: _ => data child
      end
  end.

(** The markup strategy of [processUrl]: the inner [try { ... } catch
    (ignored) {}] that may assign [videoData]. *)
Definition htmlExtraction (url : string) : M (option VideoData) :=
  try_catch
    (html <- handleHtml url ;;
     jsonDataElement <- liftR (cheerio_select w html REHYDRATION_SELECTOR) ;;
     match rehydration_payload jsonDataElement with
     | Some rawJSON =>
         if Str.is_empty rawJSON then ret None else ret (extractVideoDataFromJson rawJSON)
     | None => ret None
     end)
    (fun ignored => ret None).

(** The [videoData] that [processUrl] builds from the answer of the backup
    API, after its test [apiData.type !== "video" ||
    !apiData.video?.playAddr]. Property reads have no effect, and once
    [apiData.type] has been read [apiData.video] cannot throw, so the right
    operand of [||] is read before the test. *)
Definition videoDataFromApi (apiData : JsVal) : Res VideoData :=
  type <- Js.getProp apiData "type" ;;
  video <- Js.getProp apiData "video" ;;
  if Js.strict_neq_str type "video" || negb (Js.truthy (Js.getPropOpt video "playAddr"))
  then Throw (Error "API failed to retrieve video data")
  else
    author <- Js.getProp apiData "author" ;;
    username <- Js.getProp author "username" ;;
    id <- Js.getProp apiData "id" ;;
    createTime <- Js.getProp apiData "createTime" ;;
    playAddr <- Js.getProp video "playAddr" ;;
    first <- Js.getIndex playAddr 0 ;;
    ret (mkVideoData username id createTime first JUndefined).

(** The backup-API strategy of [processUrl]: the body of
    [if (!videoData) { ... }]. *)
Definition apiExtraction (url : string) : M VideoData :=
  log_spinner (SpText "HTML extraction failed. Switching to API backup...") ;;
  apiData <- getMediaInfoFromAPI url ;;
  liftR (videoDataFromApi apiData).

(** The photo-set branch of [processUrl] up to the call of
    [downloadImages], giving that call's arguments; as in [videoDataFromApi],
    [photoData.images] is read before the test. *)
Definition photoResolution (url : string) : M (JsVal * JsVal * JsVal * JsVal) :=
  log_spinner (SpText "Fetching photo metadata via API...") ;;
  photoData <- getMediaInfoFromAPI url ;;
  type <- liftR (Js.getProp photoData "type") ;;
  images <- liftR (Js.getProp photoData "images") ;;
  if Js.strict_neq_str type "image" || negb (Js.truthy images)
  then throw (Error "Invalid photo data structure")
  else
    len <- liftR (Js.getProp images "length") ;;
    log_spinner (SpText ("Found " ++ Js.ToString len ++ " images. Starting download...")) ;;
    id <- liftR (Js.getProp photoData "id") ;;
    createTime <- liftR (Js.getProp photoData "createTime") ;;
    author <- liftR (Js.getProp photoData "author") ;;
    username <- liftR (Js.getProp author "username") ;;
    ret (id, images, createTime, username).

(** The photo-set branch of [processUrl]. *)
Definition photoBranch (url : string) : M unit :=
  resolved <- photoResolution url ;;
  let '(id, images, createTime, username) := resolved in
  downloadImages url id images createTime username ;;
  log_spinner (SpSucceed "Photo slide downloaded successfully!").

(** The video branch of [processUrl] up to the call of [downloadVideo]:
    the markup strategy, then the backup API when [videoData] is still
    [null]; the result is [videoData] and [method]. *)
Definition videoResolution (url : string) : M (VideoData * string) :=
  log_spinner (SpText "Attempting direct HTML extraction...") ;;
  extracted <- htmlExtraction url ;;
  match extracted with
  | Some videoData => ret (videoData, "HTML")
  | None => videoData <- apiExtraction url ;; ret (videoData, "API")
  end.

(** The video branch of [processUrl]. *)
Definition videoBranch (url : string) : M unit :=
  resolved <- videoResolution url ;;
  log_spinner (SpText ("Downloading video (" ++ snd resolved ++ ")...")) ;;
  downloadVideo (fst resolved) url ;;
  log_spinner (SpSucceed "Video downloaded successfully!").

(** The [try] block of [processUrl]. *)
Definition processUrl_body (url : string) : M unit :=
  if negb (validateURL url)
  then log_spinner (SpFail "Invalid TikTok URL format!")
  else if Str.includes "/photo/" url then photoBranch url
  else videoBranch url.

Definition processUrl (url : string) : M unit :=
  log_spinner (SpStart "Analyzing URL...") ;;
  try_catch
    (processUrl_body url)
    (fun error => log_spinner (SpFail ("Error: " ++ exn_message error))).

(** The loop of [main], driven by the answers of the prompt source: the URL
    typed and whether to go on. *)
Fixpoint mainLoop (answers : list (string * bool)) : M unit :=
  match answers with
  | [] => ret tt
  | (url, again) :: rest =>
      processUrl (Str.trim url) ;;
      if again then mainLoop rest else ret tt
  end.

End Program.

(* ------------------------------------------------------------------ *)
(** ** Vocabulary of the properties *)

(** [m] moves every state to an [R]-related one, whatever it returns. *)
Definition respects (R : State -> State -> Prop) {A} (m : M A) : Prop :=
  forall s, R s (snd (m s)).

(** The ledger is untouched. *)
Definition same_stats (s s' : State) : Prop := downloadStats s' = downloadStats s.

(** The I/O history only grows, by events that satisfy [P]. *)
Definition io_grows (P : Event -> Prop) (s s' : State) : Prop :=
  exists l, io s' = (io s ++ l)%list /\ Forall P l.

(** Events of the retrieval stage: fetches of media files, directory
    creation and file writes. The page and API requests are not among
    them. *)
Definition retrieval_event (ev : Event) : Prop :=
  match ev with
  | EvRequest rq => rq_responseType rq = Some "arraybuffer"
  | EvMkdir _ | EvWrite _ _ => True
  end.

(** The I/O history is untouched. *)
Definition same_io (s s' : State) : Prop := io s' = io s.

(** The events a computation added to the history of [s]. *)
Definition new_io (s s' : State) : list Event := skipn (List.length (io s)) (io s').

Definition is_write (ev : Event) : bool :=
  match ev with EvWrite _ _ => true | _ => false end.

(** The state once a request has been made and logged. *)
Definition requested (rq : Request) (s : State) : State :=
  mkState (downloadStats s) (dirs s) (io s ++ [EvRequest rq]) (S (calls s)) (spinner s).

Definition shown (ev : SpinnerEvent) (s : State) : State :=
  mkState (downloadStats s) (dirs s) (io s) (calls s) (spinner s ++ [ev]).

(** What the markup strategy finds when the page request is call number
    [n]. *)
Definition markupResult (w : World) (url : string) (n : nat) : option VideoData :=
  match http w n (pageRequest url) with
  | Throw _ => None
  | Ok html =>
      match cheerio_select w html REHYDRATION_SELECTOR with
      | Throw _ => None
      | Ok jsonDataElement =>
          match rehydration_payload jsonDataElement with
          | None => None
          | Some rawJSON =>
              if Str.is_empty rawJSON then None else extractVideoDataFromJson w rawJSON
          end
      end
  end.

(** What [getMediaInfoFromAPI] returns when its request is call number
    [n]. *)
Definition apiResult (w : World) (url : string) (n : nat) : Res JsVal :=
  response_data <- http w n (apiRequest url) ;;
  status <- Js.getProp response_data "status" ;;
  if Js.strict_neq_str status "success"
  then Throw (Error ("API Error: " ++ Js.ToString status))
  else Js.getProp response_data "result".

Definition is_ok {A} (r : Res A) : bool :=
  match r with Ok _ => true | Throw _ => false end.

(** The state in which the [try] block of [processUrl] starts. *)
Definition started (s : State) : State := shown (SpStart "Analyzing URL...") s.

(** Whether [processUrl], called in state [s], gets as far as calling
    [downloadImages] or [downloadVideo]: the URL is valid and the
    resolution steps before the call complete without throwing. *)
Definition reaches_retrieval (w : World) (url : string) (s : State) : bool :=
  validateURL url &&
  (if Str.includes "/photo/" url
   then is_ok (fst (photoResolution w url (started s)))
   else is_ok (fst (videoResolution w url (started s)))).

Definition last_shown (s : State) : SpinnerEvent := List.last (spinner s) (SpStart "").

(** What a branch of [processUrl] leaves behind: nothing in the ledger and
    an exception when resolution failed, else exactly one record that
    agrees with how the branch completed. *)
Definition branch_outcome (resolved : bool) (s : State) (p : Res unit * State) : Prop :=
  let (r, s') := p in
  if resolved
  then exists rec,
         downloadStats s' = (downloadStats s ++ [rec])%list /\
         match r with
         | Ok _ => DownloadStat.status rec = Success /\
                   exists text, last_shown s' = SpSucceed text
         | Throw e => DownloadStat.status rec = Failed /\
                      DownloadStat.details rec = exn_message e
         end
  else downloadStats s' = downloadStats s /\ is_ok r = false.

(* ------------------------------------------------------------------ *)
(** ** The Gregorian calendar, as the reference for [JsDate] *)

Definition leap_year (y : Z) : bool :=
  (y mod 4 =? 0) && (negb (y mod 100 =? 0) || (y mod 400 =? 0)).

(** Days of month [m] (1 to 12) of year [y]. *)
Definition days_in_month (y m : Z) : Z :=
  if m =? 2 then (if leap_year y then 29 else 28)
  else if (m =? 4) || (m =? 6) || (m =? 9) || (m =? 11) then 30
  else 31.

(** Days of year [y] that come before its month [m]. *)
Definition days_before_month (y m : Z) : Z :=
  fold_right (fun k acc => (if k <? m then days_in_month y k else 0) + acc) 0
    [1; 2; 3; 4; 5; 6; 7; 8; 9; 10; 11].

(** Day number, counted from 1 January 1970, of day [d] of month [m] of
    year [y]. *)
Definition days_from_civil (y m d : Z) : Z :=
  JsDate.DayFromYear y + days_before_month y m + (d - 1).

(** [n.toString().padStart(2, "0")]. *)
Definition two_digits (n : Z) : string := Str.padStart0 2 (Js.Number_toString n).

(* ------------------------------------------------------------------ *)
(** ** Concrete scenarios *)

Definition state_empty : State := mkState [] [] [] 0 [].

(** A world in which the local zone is [tz] milliseconds ahead of UTC, the
    [n]-th request is answered by the [n]-th entry of [responses] (a network
    error once they run out), the page holds one rehydration element with
    text [page_text] (none when [None]), [JSON.parse] gives [parsed], and
    the file system accepts every write. *)
Definition world_of (tz : Z) (responses : list (Res JsVal)) (page_text : option string)
    (parsed : Res JsVal) : World :=
  mkWorld (fun _ => tz) (fun _ => None) (fun _ => parsed)
    (fun _ _ => Ok match page_text with
                   | Some text => [mkElement [mkNode (Some text)]]
                   | None => []
                   end)
    (fun n _ => nth n responses (Throw (Error "Network Error")))
    (fun _ => None) (fun _ _ => None).

Definition syntax_error : Res JsVal :=
  Throw (mkExn "SyntaxError" "Unexpected end of JSON input").

(** The body of a backup-API answer with [status: "success"]. *)
Definition api_success (result : JsVal) : Res JsVal :=
  Ok (JObj [("status", JStr "success"); ("result", result)]).

(** Answers of the backup API used in the scenarios. *)
Definition video_result (username id playAddr : JsVal) : JsVal :=
  JObj [("type", JStr "video"); ("id", id); ("createTime", JNum 1709596800);
        ("author", JObj [("username", username)]);
        ("video", JObj [("playAddr", playAddr)])].

Definition photo_result (images : JsVal) : JsVal :=
  JObj [("type", JStr "image"); ("id", JStr "77"); ("createTime", JNum 1709596800);
        ("author", JObj [("username", JStr "ab")]); ("images", images)].

(** Rehydration data of a video page, as [JSON.parse] returns it. *)
Definition rehydration_data (author video : JsVal) (more : list (string * JsVal)) : JsVal :=
  JObj [("__DEFAULT_SCOPE__",
         JObj [("webapp.video-detail",
                JObj [("itemInfo",
                       JObj [("itemStruct",
                              JObj (("author", author) :: ("video", video) :: more))])])])].

Definition video_url : string := "https://vt.tiktok.com/ABCDEF/".
Definition photo_url : string := "https://www.tiktok.com/@ab/photo/77".

(** A page whose markup resolves: the page is served, then the video
    file. *)
Definition world_markup_ok : World :=
  world_of 0 [Ok (JStr "<html>"); Ok (JStr "mp4 bytes")] (Some "{...}")
    (Ok (rehydration_data (JObj [("uniqueId", JStr "ab")])
           (JObj [("playAddr", JStr "https://v.example/1.mp4")])
           [("id", JStr "123"); ("createTime", JNum 1709596800)])).

(** A photo set of three images of which the first is served and the second
    is not. *)
Definition world_second_image_fails : World :=
  world_of 0
    [api_success (photo_result (JArr [JStr "https://p.example/0.jpg";
                                      JStr "https://p.example/1.jpg";
                                      JStr "https://p.example/2.jpg"]));
     Ok (JStr "jpeg bytes")]
    None syntax_error.

(** A process whose local zone is five hours behind UTC. *)
Definition world_utc_minus_5 : World := world_of (-18000000) [] None syntax_error.

(** Nothing answers. *)
Definition world_offline : World := world_of 0 [] None syntax_error.

(* ------------------------------------------------------------------ *)
(** ** Failures of the markup strategy *)

(** The objects [extractVideoDataFromJson] walks through. *)
Definition videoDetailOf (parsedJSON : JsVal) : JsVal :=
  Js.getPropOpt (Js.getPropOpt parsedJSON "__DEFAULT_SCOPE__") "webapp.video-detail".

Definition itemStructOf (parsedJSON : JsVal) : JsVal :=
  Js.getPropOpt (Js.member (videoDetailOf parsedJSON) "itemInfo") "itemStruct".

(** The four values it tests before building a descriptor. *)
Definition required_present (parsedJSON : JsVal) : bool :=
  Js.truthy (videoDetailOf parsedJSON) && Js.truthy (itemStructOf parsedJSON)
  && Js.truthy (Js.member (itemStructOf parsedJSON) "author")
  && Js.truthy (Js.member (itemStructOf parsedJSON) "video").

(** Why [extractVideoDataFromJson] returns [null]. *)
Inductive JsonFailure (w : World) (rawJSON : string) : Prop :=
| JF_parse_error (e : Exn) :
    JSON_parse w rawJSON = Throw e -> JsonFailure w rawJSON
| JF_missing_field (parsedJSON : JsVal) :
    JSON_parse w rawJSON = Ok parsedJSON ->
    required_present parsedJSON = false -> JsonFailure w rawJSON
| JF_bitrate_walk (parsedJSON : JsVal) (e : Exn) :
    JSON_parse w rawJSON = Ok parsedJSON ->
    required_present parsedJSON = true ->
    selectVideoUrl w (Js.member (itemStructOf parsedJSON) "video") = Throw e ->
    JsonFailure w rawJSON.

(** Why the markup strategy leaves [videoData] at [null], when its page
    request is call number [n]. *)
Inductive MarkupFailure (w : World) (url : string) (n : nat) : Prop :=
| MF_transport (e : Exn) :
    http w n (pageRequest url) = Throw e -> MarkupFailure w url n
| MF_parser (html : JsVal) (e : Exn) :
    http w n (pageRequest url) = Ok html ->
    cheerio_select w html REHYDRATION_SELECTOR = Throw e -> MarkupFailure w url n
| MF_no_element (html : JsVal) :
    http w n (pageRequest url) = Ok html ->
    cheerio_select w html REHYDRATION_SELECTOR = Ok [] -> MarkupFailure w url n
| MF_no_text (html : JsVal) (first : DomElement) (others : list DomElement) :
    http w n (pageRequest url) = Ok html ->
    cheerio_select w html REHYDRATION_SELECTOR = Ok (first :: others) ->
    match children first with
    | [] => True
    | child :: _ => data child = None \/ data child = Some ""
    end -> MarkupFailure w url n
| MF_json (html : JsVal) (jsonDataElement : list DomElement) (rawJSON : string) :
    http w n (pageRequest url) = Ok html ->
    cheerio_select w html REHYDRATION_SELECTOR = Ok jsonDataElement ->
    rehydration_payload jsonDataElement = Some rawJSON ->
    JsonFailure w rawJSON -> MarkupFailure w url n.

(** A page whose rehydration data has an author without [uniqueId] and an
    item without [id] and [createTime]: the page is served, then the video
    file. *)
Definition world_missing_ids : World :=
  world_of 0 [Ok (JStr "<html>"); Ok (JStr "mp4 bytes")] (Some "{...}")
    (Ok (rehydration_data (JObj [("nickname", JStr "someone")])
           (JObj [("playAddr", JStr "https://v.example/1.mp4")]) [])).

(** The page has no rehydration element and the backup API answers. *)
Definition world_api_only (result : JsVal) : World :=
  world_of 0 [Ok (JStr "<html>"); api_success result; Ok (JStr "mp4 bytes")] None syntax_error.

(** A photo set of one image, with an empty user name and no [id]. *)
Definition photo_without_ids : JsVal :=
  JObj [("type", JStr "image"); ("createTime", JNum 1709596800);
        ("author", JObj [("username", JStr "")]);
        ("images", JArr [JStr "https://p.example/0.jpg"])].

Definition world_photo_without_ids : World :=
  world_of 0 [api_success photo_without_ids; Ok (JStr "jpeg bytes")] None syntax_error.

(** An answer of the backup API with an empty user name and no [id]. *)
Definition result_without_ids : JsVal :=
  JObj [("type", JStr "video"); ("createTime", JNum 1709596800);
        ("author", JObj [("username", JStr "")]);
        ("video", JObj [("playAddr", JArr [JStr "https://v.example/1.mp4"])])].

(* ------------------------------------------------------------------ *)
(** ** The YouTube service of the same module

    [class YouTubeService] with [VideoDownloadError]. The [ytdl] library
    is a collaborator: what its functions return or throw is given by a
    [Library]; the service's own errors carry a [code]. The calls that reach
    the network are logged. The error forwarding registered on the stream
    runs after [downloadMp4] has returned and is not part of its result. *)

Module YouTubeService.

(** The parts of [ytdl.videoFormat] and [ytdl.videoInfo] that are read. *)
Record Format : Type := mkFormat {
  container : string;
  hasAudio : bool;
  hasVideo : bool;
  contentLength : option string
}.

Record VideoDetails : Type := mkDetails {
  isPrivate : bool;
  age_restricted : bool;
  title : string
}.

Record videoInfo : Type := mkInfo {
  videoDetails : VideoDetails;
  formats : list Format
}.

(** A thrown value: a [VideoDownloadError] of this module, or an error of
    the library. *)
Inductive Thrown : Type :=
| VideoDownloadError (message code : string)
| LibraryError (e : Exn).

Inductive Outcome (A : Type) : Type :=
| Return (a : A)
| Raise (t : Thrown).
Arguments Return {A} a.
Arguments Raise {A} t.

Inductive Call : Type :=
| GetInfo (url : string)
| DownloadFromInfo (format : Format)
| Pipe.

Record Library : Type := mkLibrary {
  ytdl_validateURL : string -> Res bool;
  ytdl_getInfo : string -> Res videoInfo;
  ytdl_chooseFormat : list Format -> (Format -> bool) -> Res (option Format);
  ytdl_downloadFromInfo : videoInfo -> Format -> option Exn;
  parseInt : string -> option Z
}.

(** What [downloadMp4] resolves to; [size] is [None] for [NaN]. *)
Record Download : Type := mkDownload {
  stream : Format;
  download_title : string;
  size : option Z
}.

Definition Y (A : Type) : Type := list Call -> Outcome A * list Call.

#[export] Instance Monad_Y : Monad Y := {
  ret := fun A a log => (Return a, log);
  bind := fun A B m k log =>
    match m log with
    | (Return a, log') => k a log'
    | (Raise t, log') => (Raise t, log')
    end
}.

Definition raise {A} (t : Thrown) : Y A := fun log => (Raise t, log).

Definition call (c : Call) : Y unit := fun log => (Return tt, (log ++ [c])%list).

Definition catch {A} (m : Y A) (h : Thrown -> Y A) : Y A :=
  fun log =>
    match m log with
    | (Return a, log') => (Return a, log')
    | (Raise t, log') => h t log'
    end.

(** A library call that may throw. *)
Definition library {A} (r : Res A) : Y A :=
  fun log => (match r with Ok a => Return a | Throw e => Raise (LibraryError e) end, log).

(** [error.message]. *)
Definition message_of (t : Thrown) : string :=
  match t with
  | VideoDownloadError message _ => message
  | LibraryError e => exn_message e
  end.

(** [error.message || fallback]. *)
Definition message_or (t : Thrown) (fallback : string) : string :=
  if Str.is_empty (message_of t) then fallback else message_of t.

(** The class [\w] of regular expressions. *)
Definition is_word (a : ascii) : bool :=
  let n := nat_of_ascii a in
  (Nat.leb 65 n && Nat.leb n 90) || (Nat.leb 97 n && Nat.leb n 122)
  || (Nat.leb 48 n && Nat.leb n 57) || Nat.eqb n 95.

Fixpoint keep (f : ascii -> bool) (s : string) : string :=
  match s with
  | EmptyString => EmptyString
  | String a s' => if f a then String a (keep f s') else keep f s'
  end.

(** [title.replace(/[^\w\s]/gi, '')]: every character that is neither a
    word character nor white space is dropped. *)
Definition sanitize (title : string) : string :=
  keep (fun a => is_word a || Str.is_space a) title.

(** The [filter] given to [ytdl.chooseFormat]. *)
Definition mp4_with_audio_and_video (format : Format) : bool :=
  String.eqb (container format) "mp4" && hasAudio format && hasVideo format.

Section Service.
Variable lib : Library.

Definition validateUrl (url : string) : bool :=
  match ytdl_validateURL lib url with
  | Ok b => b
  | Throw _ => false
  end.

Definition getVideoInfo (url : string) : Y videoInfo :=
  if negb (validateUrl url)
  then raise (VideoDownloadError "Invalid YouTube URL provided" "INVALID_URL")
  else
    catch
      (call (GetInfo url) ;;
       info <- library (ytdl_getInfo lib url) ;;
       if isPrivate (videoDetails info)
       then raise (VideoDownloadError "Video is private" "VIDEO_PRIVATE")
       else
         (if age_restricted (videoDetails info) then ret tt else ret tt) ;;
         ret info)
      (fun error =>
         match error with
         | VideoDownloadError _ _ => raise error
         | LibraryError _ =>
             raise (VideoDownloadError (message_or error "Failed to fetch video metadata")
                      "METADATA_FETCH_FAILED")
         end).

Definition downloadMp4 (url : string) : Y Download :=
  info <- getVideoInfo url ;;
  format <- library (ytdl_chooseFormat lib (formats info) mp4_with_audio_and_video) ;;
  match format with
  | None =>
      raise (VideoDownloadError "No suitable MP4 (Audio+Video) format found"
               "FORMAT_UNAVAILABLE")
  | Some format =>
      catch
        (call (DownloadFromInfo format) ;;
         match ytdl_downloadFromInfo lib info format with
         | Some e => raise (LibraryError e)
         | None =>
             call Pipe ;;
             ret (mkDownload format (sanitize (title (videoDetails info)))
                    match contentLength format with
                    | None => Some 0
                    | Some text => if Str.is_empty text then Some 0 else parseInt lib text
                    end)
         end)
        (fun error =>
           raise (VideoDownloadError (message_or error "Download stream initialization failed")
                    "DOWNLOAD_INIT_FAILED"))
  end.

End Service.

End YouTubeService.

(* ------------------------------------------------------------------ *)
(** ** Vocabulary of the further properties *)

Definition no_line_terminator (s : string) : bool :=
  Str.forallb (fun a => negb (is_line_terminator a)) s.

Definition is_request (ev : Event) : bool :=
  match ev with EvRequest _ => true | _ => false end.

(** How many files, and how many requests, a history holds. *)
Definition writes (l : list Event) : nat := List.length (filter is_write l).
Definition requests (l : list Event) : nat := List.length (filter is_request l).

(** The path of the image of index [j] of a photo set. *)
Definition image_file (w : World) (authorId timestamp imageId : JsVal) (j : nat) : Path :=
  path_join IMAGE_DIR (imageFileName w authorId timestamp imageId (Z.of_nat j)).

(** The fetch and the write of the image of index [j], served with
    [payload j]. *)
Definition image_events (w : World) (url : string) (authorId timestamp imageId : JsVal)
    (urls : list JsVal) (payload : nat -> JsVal) (j : nat) : list Event :=
  [EvRequest (fileRequest (nth j urls JUndefined) url);
   EvWrite (image_file w authorId timestamp imageId j) (payload j)].

(** Events that create no directory other than [dir]. *)
Definition creates_only (dir : string) (ev : Event) : Prop :=
  match ev with
  | EvMkdir d => d = dir
  | _ => True
  end.

(** The characters of an encoded query: unreserved ones and the percent
    sign of an escape. *)
Definition query_char (a : ascii) : bool := Str.uri_unreserved a || Ascii.eqb a "%".

Definition hex_value (a : ascii) : option nat :=
  let n := nat_of_ascii a in
  if Nat.leb 48 n && Nat.leb n 57 then Some (n - 48)%nat
  else if Nat.leb 65 n && Nat.leb n 70 then Some (n - 55)%nat
  else None.

(** Reading an encoded query back: the inverse of [encodeURIComponent] on
    what it produces (escapes of one byte, or of the two bytes of a code
    unit above 127). *)
Fixpoint decode_query (s : string) : string :=
  match s with
  | EmptyString => EmptyString
  | String a rest =>
      if Ascii.eqb a "%" then
        match rest with
        | String h (String l rest1) =>
            match hex_value h, hex_value l with
            | Some x, Some y =>
                let b := (16 * x + y)%nat in
                if Nat.ltb b 128 then String (ascii_of_nat b) (decode_query rest1)
                else
                  match rest1 with
                  | String _ (String h2 (String l2 rest2)) =>
                      match hex_value h2, hex_value l2 with
                      | Some x2, Some y2 =>
                          String (ascii_of_nat ((b - 192) * 64 + (16 * x2 + y2 - 128))%nat)
                            (decode_query rest2)
                      | _, _ => String a (decode_query rest)
                      end
                  | _ => String a (decode_query rest)
                  end
            | _, _ => String a (decode_query rest)
            end
        | _ => String a (decode_query rest)
        end
      else String a (decode_query rest)
  end.

(** Characters a sanitized title may hold. *)
Definition title_char (a : ascii) : bool := YouTubeService.is_word a || Str.is_space a.

(* ------------------------------------------------------------------ *)
(** ** Further scenarios *)

(** Every request is answered from [responses]; nothing else is
    available. *)
Definition world_serving (responses : list (Res JsVal)) : World :=
  world_of 0 responses None syntax_error.

Definition sample_video : VideoData :=
  mkVideoData (JStr "ab") (JStr "123") (JNum 1709596800)
    (JStr "https://v.example/1.mp4") JUndefined.

Definition sample_images : list JsVal :=
  [JStr "https://p.example/0.jpg"; JStr "https://p.example/1.jpg";
   JStr "https://p.example/2.jpg"].

Definition sample_payload (j : nat) : JsVal :=
  nth j [JStr "jpeg 0"; JStr "jpeg 1"; JStr "jpeg 2"] JUndefined.

(** A page whose first bitrate variant is [null]. *)
Definition data_null_bitrate : JsVal :=
  rehydration_data (JObj [("uniqueId", JStr "ab")])
    (JObj [("playAddr", JStr "https://v.example/1.mp4"); ("bitrateInfo", JArr [JNull])])
    [("id", JStr "123")].

Definition world_null_bitrate : World :=
  world_of 0 [Ok (JStr "<html>")] (Some "{...}") (Ok data_null_bitrate).

(** A [ytdl] library that knows one public video with an MP4 format. *)
Definition sample_format : YouTubeService.Format :=
  YouTubeService.mkFormat "mp4" true true (Some "1048576").

Definition sample_info (private : bool) : YouTubeService.videoInfo :=
  YouTubeService.mkInfo
    (YouTubeService.mkDetails private true "Rocq: a proof assistant (part #1)!")
    [sample_format].

Definition sample_library (private : bool) (format : option YouTubeService.Format)
    (stream_error : option Exn) : YouTubeService.Library :=
  YouTubeService.mkLibrary
    (fun url => Ok (String.eqb url "https://youtu.be/abc"))
    (fun _ => Ok (sample_info private))
    (fun _ _ => Ok format)
    (fun _ _ => stream_error)
    (fun _ => Some 1048576).

(* ------------------------------------------------------------------ *)
(** ** Substring search *)

Lemma append_assoc (a b c : string) : (a ++ b) ++ c = a ++ b ++ c.
Proof. induction a as [|x a IH]; simpl; [reflexivity | now rewrite IH]. Qed.

Lemma strip_prefix_Some (p s r : string) :
  Str.strip_prefix p s = Some r <-> s = p ++ r.
Proof.
  revert s; induction p as [|a p IH]; intros s; simpl.
  - split; congruence.
  - destruct s as [|b s]; [split; discriminate|].
    destruct (Ascii.eqb_spec a b) as [->|Hne].
    + rewrite IH. split; congruence.
    + split; [discriminate | intros H; injection H; congruence].
Qed.

Lemma strip_prefix_app (p r : string) : Str.strip_prefix p (p ++ r) = Some r.
Proof. now apply strip_prefix_Some. Qed.

Lemma includes_spec (sub s : string) :
  Str.includes sub s = true <-> exists pre post, s = pre ++ sub ++ post.
Proof.
  induction s as [|a s IH]; simpl.
  - destruct (Str.strip_prefix sub "") as [r|] eqn:E.
    + split; [intros _ | reflexivity].
      apply strip_prefix_Some in E. now exists "", r.
    + split; [discriminate|]. intros (pre & post & H).
      destruct pre; simpl in H; [|discriminate].
      rewrite H, strip_prefix_app in E. discriminate.
  - destruct (Str.strip_prefix sub (String a s)) as [r|] eqn:E.
    + split; [intros _ | reflexivity].
      apply strip_prefix_Some in E. now exists "", r.
    + rewrite IH. split.
      * intros (pre & post & ->). now exists (String a pre), post.
      * intros (pre & post & H). destruct pre as [|b pre]; simpl in H.
        -- rewrite H, strip_prefix_app in E. discriminate.
        -- injection H as _ ->. now exists pre, post.
Qed.

(* ------------------------------------------------------------------ *)
(** ** Framing: what a computation leaves alone *)

Section Frame.
Variable R : State -> State -> Prop.
Hypothesis R_refl : forall s, R s s.
Hypothesis R_trans : forall a b c, R a b -> R b c -> R a c.

Lemma respects_ret {A} (a : A) : respects R (ret a).
Proof. intros s. apply R_refl. Qed.

Lemma respects_throw {A} (e : Exn) : respects R (@throw A e).
Proof. intros s. apply R_refl. Qed.

Lemma respects_liftR {A} (r : Res A) : respects R (liftR r).
Proof. intros s. apply R_refl. Qed.

Lemma respects_bind {A B} (m : M A) (k : A -> M B) :
  respects R m -> (forall a, respects R (k a)) -> respects R (bind m k).
Proof.
  intros Hm Hk s. simpl. specialize (Hm s).
  destruct (m s) as [[a|e] s1]; simpl in *; [|exact Hm].
  eapply R_trans; [exact Hm | apply Hk].
Qed.

Lemma respects_try_catch {A} (m : M A) (h : Exn -> M A) :
  respects R m -> (forall e, respects R (h e)) -> respects R (try_catch m h).
Proof.
  intros Hm Hh s. unfold try_catch. specialize (Hm s).
  destruct (m s) as [[a|e] s1]; simpl in *; [exact Hm|].
  eapply R_trans; [exact Hm | apply Hh].
Qed.

End Frame.

Lemma same_stats_refl s : same_stats s s.
Proof. reflexivity. Qed.

Lemma same_stats_trans a b c : same_stats a b -> same_stats b c -> same_stats a c.
Proof. unfold same_stats; congruence. Qed.

Lemma io_grows_refl P s : io_grows P s s.
Proof. exists []. now rewrite app_nil_r. Qed.

Lemma io_grows_trans P a b c : io_grows P a b -> io_grows P b c -> io_grows P a c.
Proof.
  intros (l1 & E1 & F1) (l2 & E2 & F2). exists (l1 ++ l2)%list. split.
  - now rewrite E2, E1, app_assoc.
  - now apply Forall_app.
Qed.

Create HintDb frame.
#[global] Hint Resolve same_stats_refl same_stats_trans io_grows_refl io_grows_trans : core.

Ltac frame_step :=
  first
    [ progress cbv zeta
    | apply respects_ret; solve [auto]
    | apply respects_throw; solve [auto]
    | apply respects_liftR; solve [auto]
    | apply respects_bind; [solve [eauto] | | intros ]
    | apply respects_try_catch; [solve [eauto] | | intros ]
    | match goal with
      | |- respects _ (if ?b then _ else _) => destruct b
      | |- respects _ (match ?x with _ => _ end) => destruct x
      end ].

Ltac frame := repeat (first [frame_step | solve [auto with frame]]).

(** *** The ledger is written by [downloadImages] and [downloadVideo] only *)

Lemma stats_log_spinner ev : respects same_stats (log_spinner ev).
Proof. intros s. reflexivity. Qed.

Lemma stats_instance w rq : respects same_stats (instance w rq).
Proof. intros s. reflexivity. Qed.

Lemma stats_mkdirSync w d : respects same_stats (mkdirSync w d).
Proof. intros s. unfold mkdirSync. now destruct (mkdirSync_error w d). Qed.

Lemma stats_writeFileSync w p c : respects same_stats (writeFileSync w p c).
Proof. intros s. unfold writeFileSync. now destruct (writeFileSync_error w p c). Qed.

Lemma stats_ensureDirectoryExists w d : respects same_stats (ensureDirectoryExists w d).
Proof.
  intros s. unfold ensureDirectoryExists.
  destruct (has_dir d s); [reflexivity | apply stats_mkdirSync].
Qed.

#[global] Hint Resolve stats_log_spinner stats_instance stats_mkdirSync
  stats_writeFileSync stats_ensureDirectoryExists : frame.

Lemma stats_handleHtml w url : respects same_stats (handleHtml w url).
Proof. unfold handleHtml. frame. Qed.

Lemma stats_getMediaInfoFromAPI w url : respects same_stats (getMediaInfoFromAPI w url).
Proof. unfold getMediaInfoFromAPI. frame. Qed.

Lemma stats_downloadFile w u url : respects same_stats (downloadFile w u url).
Proof. unfold downloadFile. frame. Qed.

Lemma stats_downloadImage w url a b c d i :
  respects same_stats (downloadImage w url a b c d i).
Proof. unfold downloadImage. frame. Qed.

#[global] Hint Resolve stats_handleHtml stats_getMediaInfoFromAPI stats_downloadFile
  stats_downloadImage : frame.

Lemma stats_imageLoop w url a b c d n :
  forall i k, respects same_stats (imageLoop w url a b c d n i k).
Proof. induction n; intros; cbn [imageLoop]; frame. Qed.

Lemma stats_htmlExtraction w url : respects same_stats (htmlExtraction w url).
Proof. unfold htmlExtraction. frame. Qed.

Lemma stats_apiExtraction w url : respects same_stats (apiExtraction w url).
Proof. unfold apiExtraction. frame. Qed.

#[global] Hint Resolve stats_imageLoop stats_htmlExtraction stats_apiExtraction : frame.

Lemma stats_photoResolution w url : respects same_stats (photoResolution w url).
Proof. unfold photoResolution. frame. Qed.

Lemma stats_videoResolution w url : respects same_stats (videoResolution w url).
Proof. unfold videoResolution. frame. Qed.

(** *** The I/O history only grows *)

Lemma io_log_spinner P ev : respects (io_grows P) (log_spinner ev).
Proof. intros s. exists []. simpl. now rewrite app_nil_r. Qed.

Lemma io_push_stat P r : respects (io_grows P) (push_stat r).
Proof. intros s. exists []. simpl. now rewrite app_nil_r. Qed.

Lemma io_instance (P : Event -> Prop) w rq :
  P (EvRequest rq) -> respects (io_grows P) (instance w rq).
Proof. intros H s. exists [EvRequest rq]. split; [reflexivity | now constructor]. Qed.

Lemma io_mkdirSync (P : Event -> Prop) w d :
  P (EvMkdir d) -> respects (io_grows P) (mkdirSync w d).
Proof.
  intros H s. unfold mkdirSync. destruct (mkdirSync_error w d); [apply io_grows_refl|].
  exists [EvMkdir d]. split; [reflexivity | now constructor].
Qed.

Lemma io_writeFileSync (P : Event -> Prop) w p c :
  P (EvWrite p c) -> respects (io_grows P) (writeFileSync w p c).
Proof.
  intros H s. unfold writeFileSync. destruct (writeFileSync_error w p c); [apply io_grows_refl|].
  exists [EvWrite p c]. split; [reflexivity | now constructor].
Qed.

Lemma io_ensureDirectoryExists (P : Event -> Prop) w d :
  P (EvMkdir d) -> respects (io_grows P) (ensureDirectoryExists w d).
Proof.
  intros H s. unfold ensureDirectoryExists.
  destruct (has_dir d s); [apply io_grows_refl | now apply io_mkdirSync].
Qed.

#[global] Hint Resolve io_log_spinner io_push_stat : frame.
#[global] Hint Extern 1 (respects (io_grows _) (instance _ _)) =>
  apply io_instance; simpl; auto : frame.
#[global] Hint Extern 1 (respects (io_grows _) (writeFileSync _ _ _)) =>
  apply io_writeFileSync; simpl; auto : frame.
#[global] Hint Extern 1 (respects (io_grows _) (ensureDirectoryExists _ _)) =>
  apply io_ensureDirectoryExists; simpl; auto : frame.

Lemma io_downloadImage w url a b c d i :
  respects (io_grows retrieval_event) (downloadImage w url a b c d i).
Proof. unfold downloadImage. frame. Qed.

#[global] Hint Resolve io_downloadImage : frame.

Lemma io_imageLoop w url a b c d n :
  forall i k, respects (io_grows retrieval_event) (imageLoop w url a b c d n i k).
Proof. induction n; intros; cbn [imageLoop]; frame. Qed.

#[global] Hint Resolve io_imageLoop : frame.

Lemma io_downloadImages w url a b c d :
  respects (io_grows retrieval_event) (downloadImages w url a b c d).
Proof. unfold downloadImages. frame. Qed.

Lemma io_downloadVideo w vd url :
  respects (io_grows retrieval_event) (downloadVideo w vd url).
Proof. unfold downloadVideo, downloadFile. frame. Qed.

(** *** What each stage does to the state *)

Lemma log_spinner_run ev s : log_spinner ev s = (Ok tt, shown ev s).
Proof. reflexivity. Qed.

Lemma liftR_run {A} (r : Res A) s : liftR r s = (r, s).
Proof. reflexivity. Qed.

Lemma ret_run {A} (a : A) (s : State) : ret a s = (Ok a, s).
Proof. reflexivity. Qed.

Lemma throw_run {A} e (s : State) : @throw A e s = (Throw e, s).
Proof. reflexivity. Qed.

Lemma instance_run w rq s : instance w rq s = (http w (calls s) rq, requested rq s).
Proof. reflexivity. Qed.

Lemma push_stat_run r s :
  push_stat r s =
  (Ok tt, mkState (downloadStats s ++ [r]) (dirs s) (io s) (calls s) (spinner s)).
Proof. reflexivity. Qed.

Lemma bind_run {A B} (m : M A) (k : A -> M B) s :
  bind m k s = match m s with
               | (Ok a, s') => k a s'
               | (Throw e, s') => (Throw e, s')
               end.
Proof. reflexivity. Qed.

(** Evaluation of a computation at a state, one monadic step at a time. *)
Ltac run :=
  repeat (progress (rewrite ?bind_run, ?liftR_run, ?log_spinner_run, ?ret_run, ?throw_run,
                      ?instance_run, ?push_stat_run; cbv beta iota)).

Lemma member_not_nullish v k x : Js.member v k = x -> x <> JUndefined -> Js.nullish v = false.
Proof. destruct v; simpl; intros; congruence. Qed.

Lemma getProp_member v k : Js.nullish v = false -> Js.getProp v k = Ok (Js.member v k).
Proof. unfold Js.getProp. now intros ->. Qed.

Lemma truthy_not_nullish v : Js.truthy v = true -> Js.nullish v = false.
Proof. now destruct v. Qed.

Lemma htmlExtraction_run w url s :
  htmlExtraction w url s = (Ok (markupResult w url (calls s)), requested (pageRequest url) s).
Proof.
  unfold htmlExtraction, markupResult, handleHtml, try_catch, instance, throw, liftR, requested.
  cbn [bind ret Monad_M].
  destruct (http w (calls s) (pageRequest url)) as [html|e]; [|reflexivity].
  destruct (cheerio_select w html REHYDRATION_SELECTOR) as [els|e]; [|reflexivity].
  destruct (rehydration_payload els) as [raw|]; [|reflexivity].
  now destruct (Str.is_empty raw).
Qed.

Lemma getMediaInfoFromAPI_run w url s :
  getMediaInfoFromAPI w url s = (apiResult w url (calls s), requested (apiRequest url) s).
Proof.
  unfold getMediaInfoFromAPI, apiResult, try_catch, instance, throw, liftR, requested.
  cbn [bind ret Monad_M Monad_Res].
  destruct (http w (calls s) (apiRequest url)) as [d|e]; [|reflexivity].
  destruct (Js.getProp d "status") as [st|e]; [|reflexivity].
  destruct (Js.strict_neq_str st "success"); [reflexivity|].
  now destruct (Js.getProp d "result").
Qed.

Lemma apiExtraction_run w url s :
  apiExtraction w url s =
  (apiData <- apiResult w url (calls s) ;; videoDataFromApi apiData,
   requested (apiRequest url)
     (shown (SpText "HTML extraction failed. Switching to API backup...") s)).
Proof.
  unfold apiExtraction, log_spinner. cbn [bind ret Monad_M Monad_Res].
  rewrite getMediaInfoFromAPI_run. cbn [calls shown].
  now destruct (apiResult w url (calls s)).
Qed.

Lemma videoResolution_run w url s :
  videoResolution w url s =
  let s1 := requested (pageRequest url)
              (shown (SpText "Attempting direct HTML extraction...") s) in
  match markupResult w url (calls s) with
  | Some videoData => (Ok (videoData, "HTML"), s1)
  | None =>
      (apiData <- apiResult w url (S (calls s)) ;;
       videoData <- videoDataFromApi apiData ;;
       ret (videoData, "API"),
       requested (apiRequest url)
         (shown (SpText "HTML extraction failed. Switching to API backup...") s1))
  end.
Proof.
  unfold videoResolution, log_spinner. cbn [bind ret Monad_M Monad_Res].
  rewrite htmlExtraction_run. cbn [calls shown].
  destruct (markupResult w url (calls s)) as [vd|]; [reflexivity|].
  rewrite apiExtraction_run. cbn [calls shown requested].
  destruct (apiResult w url (S (calls s))) as [d|e]; [|reflexivity].
  cbn [bind ret Monad_Res]. now destruct (videoDataFromApi d).
Qed.

(** [downloadImages] appends exactly one record, whose shape follows how
    it completes. *)
Lemma downloadImages_ledger w url imageId imageUrls timestamp authorId s :
  match downloadImages w url imageId imageUrls timestamp authorId s with
  | (Ok _, s') =>
      exists n : Z,
        downloadStats s' =
        (downloadStats s ++
         [DownloadStat.mk "Photo Slide" imageId authorId Success
            (Js.Number_toString n ++ " Images")])%list
  | (Throw e, s') =>
      downloadStats s' =
      (downloadStats s ++
       [DownloadStat.mk "Photo" (Js.or_else imageId (JStr "Unknown"))
          (Js.or_else authorId (JStr "Unknown")) Failed (exn_message e)])%list
  end.
Proof.
  unfold downloadImages, try_catch, liftR, push_stat, throw. cbn [bind ret Monad_M].
  pose proof (stats_ensureDirectoryExists w IMAGE_DIR s) as H1. unfold same_stats in H1.
  destruct (ensureDirectoryExists w IMAGE_DIR s) as [[[]|e] s1]; simpl in H1;
    [|now rewrite H1].
  destruct (Js.getProp imageUrls "length") as [len|e]; [|now rewrite H1].
  pose proof (stats_imageLoop w url imageId imageUrls timestamp authorId
                (Js.loop_count (StringToNumber w) len) 0 0 s1) as H2.
  unfold same_stats in H2.
  destruct (imageLoop w url imageId imageUrls timestamp authorId
              (Js.loop_count (StringToNumber w) len) 0 0 s1) as [[n|e] s2];
    simpl in H2; cbn [downloadStats]; rewrite H2, H1; [now exists n | reflexivity].
Qed.

(** [downloadVideo] appends exactly one record as well. *)
Lemma downloadVideo_ledger w videoData url s :
  match downloadVideo w videoData url s with
  | (Ok fileName, s') =>
      fileName = videoFileName w videoData /\
      downloadStats s' =
      (downloadStats s ++
       [DownloadStat.mk "Video" (videoId videoData) (authorUniqueId videoData) Success
          "MP4 Saved"])%list
  | (Throw e, s') =>
      downloadStats s' =
      (downloadStats s ++
       [DownloadStat.mk "Video" (Js.or_else (videoId videoData) (JStr "Unknown"))
          (Js.or_else (authorUniqueId videoData) (JStr "Unknown")) Failed
          (exn_message e)])%list
  end.
Proof.
  unfold downloadVideo, try_catch, push_stat, throw. cbn [bind ret Monad_M].
  pose proof (stats_downloadFile w (videoUrl videoData) url s) as H1. unfold same_stats in H1.
  destruct (downloadFile w (videoUrl videoData) url s) as [[buf|e] s1]; simpl in H1;
    [|now rewrite H1].
  pose proof (stats_ensureDirectoryExists w VIDEO_DIR s1) as H2. unfold same_stats in H2.
  destruct (ensureDirectoryExists w VIDEO_DIR s1) as [[[]|e] s2]; simpl in H2;
    [|cbn [downloadStats]; now rewrite H2, H1].
  pose proof (stats_writeFileSync w (path_join VIDEO_DIR (videoFileName w videoData)) buf s2)
    as H3. unfold same_stats in H3.
  destruct (writeFileSync w (path_join VIDEO_DIR (videoFileName w videoData)) buf s2)
    as [[[]|e] s3]; simpl in H3; cbn [downloadStats]; rewrite H3, H2, H1; auto.
Qed.

(** *** The requests of each branch *)

Lemma videoBranch_io w url s :
  exists rest,
    Forall retrieval_event rest /\
    io (snd (videoBranch w url s)) =
    (io s ++ EvRequest (pageRequest url)
          :: match markupResult w url (calls s) with
             | Some _ => []
             | None => [EvRequest (apiRequest url)]
             end ++ rest)%list.
Proof.
  unfold videoBranch.
  set (k := fun resolved : VideoData * string =>
              log_spinner (SpText ("Downloading video (" ++ snd resolved ++ ")...")) ;;
              downloadVideo w (fst resolved) url ;;
              log_spinner (SpSucceed "Video downloaded successfully!")).
  assert (Hk : forall resolved, respects (io_grows retrieval_event) (k resolved)).
  { intros resolved. subst k. cbv beta. pose proof (io_downloadVideo w). frame. }
  cbn [bind Monad_M]. rewrite videoResolution_run. cbv zeta.
  destruct (markupResult w url (calls s)) as [vd|].
  - destruct (Hk (vd, "HTML") (requested (pageRequest url)
                 (shown (SpText "Attempting direct HTML extraction...") s))) as (l & E & F).
    exists l. split; [exact F|]. rewrite E. cbn [io requested shown].
    now rewrite <- app_assoc.
  - destruct (apiData <- apiResult w url (S (calls s)) ;;
              videoData <- videoDataFromApi apiData ;; ret (videoData, "API")) as [r|e].
    + match goal with |- context [k r ?s1] => destruct (Hk r s1) as (l & E & F) end.
      exists l. split; [exact F|]. rewrite E. cbn [io requested shown].
      now rewrite <- !app_assoc.
    + exists []. split; [constructor|]. cbn [snd io requested shown].
      now rewrite <- !app_assoc.
Qed.

Lemma same_io_refl s : same_io s s.
Proof. reflexivity. Qed.

Lemma same_io_trans a b c : same_io a b -> same_io b c -> same_io a c.
Proof. unfold same_io; congruence. Qed.

#[global] Hint Resolve same_io_refl same_io_trans : core.

Lemma same_io_log_spinner ev : respects same_io (log_spinner ev).
Proof. intros s. reflexivity. Qed.

#[global] Hint Resolve same_io_log_spinner : frame.

Lemma photoResolution_io w url s :
  io (snd (photoResolution w url s)) = (io s ++ [EvRequest (apiRequest url)])%list.
Proof.
  unfold photoResolution. rewrite bind_run, log_spinner_run, bind_run, getMediaInfoFromAPI_run.
  destruct (apiResult w url _) as [photoData|e]; [|reflexivity].
  match goal with |- io (snd (?m ?s1)) = _ => assert (H : respects same_io m) by frame;
    rewrite (H s1) end.
  reflexivity.
Qed.

Lemma photoBranch_io w url s :
  exists rest,
    Forall retrieval_event rest /\
    io (snd (photoBranch w url s)) = (io s ++ EvRequest (apiRequest url) :: rest)%list.
Proof.
  unfold photoBranch. rewrite bind_run.
  pose proof (photoResolution_io w url s) as E1.
  destruct (photoResolution w url s) as [[resolved|e] s1]; cbn [snd] in E1.
  2:{ exists []. split; [constructor | exact E1]. }
  match goal with |- context [io (snd (?m s1))] =>
    assert (H : respects (io_grows retrieval_event) m)
      by (pose proof (io_downloadImages w); frame);
    destruct (H s1) as (l & E & F) end.
  exists l. split; [exact F|]. rewrite E, E1. now rewrite <- app_assoc.
Qed.

Lemma processUrl_io w url s :
  io (snd (processUrl w url s)) = io (snd (processUrl_body w url (started s))).
Proof.
  unfold processUrl. rewrite bind_run, log_spinner_run. unfold try_catch.
  fold (started s). now destruct (processUrl_body w url (started s)) as [[[]|e] s1].
Qed.

Lemma retrieval_not_api l :
  Forall retrieval_event l -> forall u, ~ In (EvRequest (apiRequest u)) l.
Proof.
  intros F u HIn. rewrite Forall_forall in F. specialize (F _ HIn). discriminate F.
Qed.

Lemma new_io_app s s' l : io s' = (io s ++ l)%list -> new_io s s' = l.
Proof.
  intros E. unfold new_io. rewrite E.
  rewrite skipn_app, skipn_all, Nat.sub_diag. reflexivity.
Qed.

Lemma processUrl_body_photo w url :
  validateURL url = true -> Str.includes "/photo/" url = true ->
  processUrl_body w url = photoBranch w url.
Proof. intros H1 H2. unfold processUrl_body. now rewrite H1, H2. Qed.

Lemma processUrl_body_video w url :
  validateURL url = true -> Str.includes "/photo/" url = false ->
  processUrl_body w url = videoBranch w url.
Proof. intros H1 H2. unfold processUrl_body. now rewrite H1, H2. Qed.

(** *** Resolution and retrieval of a photo set *)

Lemma photoResolution_ok (w : World) (url : string) (s : State) (photoData : JsVal) :
  apiResult w url (calls s) = Ok photoData ->
  Js.member photoData "type" = JStr "image" ->
  Js.truthy (Js.member photoData "images") = true ->
  Js.nullish (Js.member photoData "author") = false ->
  photoResolution w url s =
  (Ok (Js.member photoData "id", Js.member photoData "images",
       Js.member photoData "createTime",
       Js.member (Js.member photoData "author") "username"),
   shown (SpText ("Found " ++ Js.ToString (Js.member (Js.member photoData "images") "length")
                  ++ " images. Starting download..."))
     (requested (apiRequest url) (shown (SpText "Fetching photo metadata via API...") s))).
Proof.
  intros Hapi Htype Himages Hauthor.
  assert (Hnn : Js.nullish photoData = false).
  { eapply member_not_nullish; [exact Htype | discriminate]. }
  unfold photoResolution. run. rewrite getMediaInfoFromAPI_run. cbn [calls shown].
  rewrite Hapi. run.
  repeat (progress (run; rewrite ?(getProp_member photoData) by exact Hnn;
                    rewrite ?(getProp_member _ "length") by (apply truthy_not_nullish; assumption);
                    rewrite ?(getProp_member _ "username") by exact Hauthor;
                    rewrite ?Htype, ?Himages;
                    cbn [Js.strict_neq_str String.eqb Ascii.eqb Bool.eqb negb orb])).
  reflexivity.
Qed.

Lemma downloadImages_second_fails (w : World) (url : string) (s : State)
    (id timestamp author u0 u1 u2 bytes0 : JsVal) (e : Exn) :
  let file0 := path_join IMAGE_DIR (imageFileName w author timestamp id 0) in
  http w (calls s) (fileRequest u0 url) = Ok bytes0 ->
  http w (S (calls s)) (fileRequest u1 url) = Throw e ->
  mkdirSync_error w IMAGE_DIR = None ->
  writeFileSync_error w file0 bytes0 = None ->
  exists s',
    downloadImages w url id (JArr [u0; u1; u2]) timestamp author s = (Throw e, s') /\
    io s' =
      (io s ++ (if has_dir IMAGE_DIR s then [] else [EvMkdir IMAGE_DIR])
       ++ [EvRequest (fileRequest u0 url); EvWrite file0 bytes0;
           EvRequest (fileRequest u1 url)])%list /\
    downloadStats s' =
      (downloadStats s ++
       [DownloadStat.mk "Photo" (Js.or_else id (JStr "Unknown"))
          (Js.or_else author (JStr "Unknown")) Failed (exn_message e)])%list.
Proof.
  intros file0 H0 H1 Hmk Hwr.
  unfold downloadImages, try_catch, ensureDirectoryExists, mkdirSync. rewrite bind_run.
  rewrite Hmk.
  change (Js.getProp (JArr [u0; u1; u2]) "length") with (Ok (JNum 3)).
  destruct (has_dir IMAGE_DIR s); cbv beta iota; run;
    change (Js.loop_count (StringToNumber w) (JNum 3)) with 3%nat;
    cbn [imageLoop]; unfold downloadImage, writeFileSync;
    change (Js.getProp (JArr [u0; u1; u2]) "length") with (Ok (JNum 3));
    change (Js.getIndex (JArr [u0; u1; u2]) 0) with (Ok u0);
    change (Js.getIndex (JArr [u0; u1; u2]) (0 + 1)) with (Ok u1);
    fold file0;
    run; cbn [calls requested shown]; rewrite H0; run; rewrite Hwr; run;
    cbn [calls requested shown log_io]; rewrite H1; run;
    (eexists; split; [reflexivity|]; cbn [io downloadStats requested shown log_io];
     rewrite <- !app_assoc; split; reflexivity).
Qed.

Lemma downloadImages_first_fetch_fails (w : World) (url : string) (s : State)
    (id timestamp author u : JsVal) (rest : list JsVal) (e : Exn) :
  mkdirSync_error w IMAGE_DIR = None ->
  http w (calls s) (fileRequest u url) = Throw e ->
  fst (downloadImages w url id (JArr (u :: rest)) timestamp author s) = Throw e.
Proof.
  intros Hmk H0.
  unfold downloadImages, try_catch, ensureDirectoryExists, mkdirSync. rewrite bind_run, Hmk.
  change (Js.getProp (JArr (u :: rest)) "length")
    with (Ok (JNum (Z.of_nat (S (List.length rest))))).
  assert (L : Js.loop_count (StringToNumber w) (JNum (Z.of_nat (S (List.length rest))))
              = S (List.length rest)).
  { unfold Js.loop_count. cbn [Js.ToNumber]. apply Nat2Z.id. }
  destruct (has_dir IMAGE_DIR s); cbv beta iota; run; rewrite L;
    cbn [imageLoop]; unfold downloadImage;
    change (Js.getProp (JArr (u :: rest)) "length")
      with (Ok (JNum (Z.of_nat (S (List.length rest)))));
    change (Js.getIndex (JArr (u :: rest)) 0) with (Ok u);
    run; cbn [calls requested shown]; rewrite H0; run; reflexivity.
Qed.

Lemma downloadImages_mkdir_fails (w : World) (url : string) (s : State)
    (id imageUrls timestamp author : JsVal) (e : Exn) :
  has_dir IMAGE_DIR s = false ->
  mkdirSync_error w IMAGE_DIR = Some e ->
  fst (downloadImages w url id imageUrls timestamp author s) = Throw e.
Proof.
  intros Hd Hmk.
  unfold downloadImages, try_catch, ensureDirectoryExists, mkdirSync.
  rewrite bind_run, Hd, Hmk. run. reflexivity.
Qed.

Lemma downloadImages_empty (w : World) (url : string) (s : State)
    (id timestamp author : JsVal) :
  mkdirSync_error w IMAGE_DIR = None ->
  fst (downloadImages w url id (JArr []) timestamp author s) = Ok tt.
Proof.
  intros Hmk.
  unfold downloadImages, try_catch, ensureDirectoryExists, mkdirSync. rewrite bind_run, Hmk.
  destruct (has_dir IMAGE_DIR s); cbv beta iota; run; reflexivity.
Qed.

(** *** The markup strategy *)

Lemma extractVideoData_body_run w rawJSON :
  extractVideoData_body w rawJSON =
  (parsedJSON <- JSON_parse w rawJSON ;;
   if required_present parsedJSON
   then
     let itemStruct := itemStructOf parsedJSON in
     videoUrl <- selectVideoUrl w (Js.member itemStruct "video") ;;
     ret (Some (mkVideoData (Js.member (Js.member itemStruct "author") "uniqueId")
                  (Js.member itemStruct "id") (Js.member itemStruct "createTime")
                  videoUrl (Js.member itemStruct "desc")))
   else ret None).
Proof.
  unfold extractVideoData_body, required_present. cbn [bind ret Monad_Res].
  destruct (JSON_parse w rawJSON) as [parsed|e]; [|reflexivity].
  fold (videoDetailOf parsed).
  destruct (Js.truthy (videoDetailOf parsed)) eqn:T1; cbn [negb andb]; [|reflexivity].
  rewrite (getProp_member (videoDetailOf parsed)) by (apply truthy_not_nullish; exact T1).
  fold (itemStructOf parsed).
  destruct (Js.truthy (itemStructOf parsed)) eqn:T2; cbn [negb andb]; [|reflexivity].
  rewrite !(getProp_member (itemStructOf parsed)) by (apply truthy_not_nullish; exact T2).
  destruct (Js.truthy (Js.member (itemStructOf parsed) "author")) eqn:T3;
    cbn [negb andb orb]; [|reflexivity].
  destruct (Js.truthy (Js.member (itemStructOf parsed) "video")) eqn:T4;
    cbn [negb andb orb]; [|reflexivity].
  destruct (selectVideoUrl w (Js.member (itemStructOf parsed) "video")) as [u|e];
    [|reflexivity].
  now rewrite (getProp_member (Js.member (itemStructOf parsed) "author"))
    by (apply truthy_not_nullish; exact T3).
Qed.

Lemma jsonFailure_iff w rawJSON :
  extractVideoDataFromJson w rawJSON = None <-> JsonFailure w rawJSON.
Proof.
  unfold extractVideoDataFromJson. rewrite extractVideoData_body_run.
  cbn [bind ret Monad_Res]. split.
  - destruct (JSON_parse w rawJSON) as [parsed|e] eqn:P; [|intros _; eapply JF_parse_error; eassumption].
    destruct (required_present parsed) eqn:Rq; [|intros _; eapply JF_missing_field; eassumption].
    cbv zeta.
    destruct (selectVideoUrl w (Js.member (itemStructOf parsed) "video")) as [u|e] eqn:U;
      [discriminate|]. intros _. eapply JF_bitrate_walk; eassumption.
  - intros [e H | parsed H1 H2 | parsed e H1 H2 H3].
    + now rewrite H.
    + now rewrite H1, H2.
    + rewrite H1, H2. cbv zeta. now rewrite H3.
Qed.

Lemma markupFailure_iff w url n :
  markupResult w url n = None <-> MarkupFailure w url n.
Proof.
  unfold markupResult. split.
  - destruct (http w n (pageRequest url)) as [html|e] eqn:H1;
      [|intros _; eapply MF_transport; eassumption].
    destruct (cheerio_select w html REHYDRATION_SELECTOR) as [els|e] eqn:H2;
      [|intros _; eapply MF_parser; eassumption].
    destruct els as [|first others]; [intros _; eapply MF_no_element; eassumption|].
    destruct (rehydration_payload (first :: others)) as [raw|] eqn:H3.
    + destruct raw as [|a raw].
      * intros _. eapply MF_no_text; [exact H1 | exact H2 |].
        cbn in H3. destruct (children first); [exact I | right; exact H3].
      * cbn [Str.is_empty]. intros H. eapply MF_json; [exact H1 | exact H2 | exact H3 |].
        now apply jsonFailure_iff.
    + intros _. eapply MF_no_text; [exact H1 | exact H2 |].
      cbn in H3. destruct (children first); [exact I | left; exact H3].
  - intros [e H | html e H1 H2 | html H1 H2 | html first others H1 H2 H3
           | html els raw H1 H2 H3 H4].
    + now rewrite H.
    + now rewrite H1, H2.
    + now rewrite H1, H2.
    + rewrite H1, H2. cbn. destruct (children first) as [|child rest]; [reflexivity|].
      destruct H3 as [-> | ->]; reflexivity.
    + rewrite H1, H2, H3. destruct (Str.is_empty raw); [reflexivity|].
      now apply jsonFailure_iff.
Qed.

(* ------------------------------------------------------------------ *)
(** ** The calendar date of a time value *)

Lemma DayFromYear_succ y : JsDate.DayFromYear (y + 1) = JsDate.DayFromYear y + 365 + JsDate.InLeapYear y.
Proof.
  unfold JsDate.DayFromYear, JsDate.InLeapYear.
  destruct (y mod 4 =? 0) eqn:E4; destruct (y mod 100 =? 0) eqn:E100; destruct (y mod 400 =? 0) eqn:E400; cbn [andb orb negb];
  rewrite ?Z.eqb_eq, ?Z.eqb_neq in *; 
  Z.to_euclidean_division_equations; lia.
Qed.

Lemma year_of_day_spec d :
  JsDate.DayFromYear (JsDate.year_of_day d) <= d < JsDate.DayFromYear (JsDate.year_of_day d + 1).
Proof.
  unfold JsDate.year_of_day.
  set (y := 1970 + 400 * d / 146097).
  assert (H1 : JsDate.DayFromYear (y - 1) <= d).
  { subst y. unfold JsDate.DayFromYear. Z.to_euclidean_division_equations. lia. }
  assert (H2 : d < JsDate.DayFromYear (y + 2)).
  { subst y. unfold JsDate.DayFromYear. Z.to_euclidean_division_equations. lia. }
  destruct (d <? JsDate.DayFromYear y) eqn:E1.
  - apply Z.ltb_lt in E1. replace (y - 1 + 1) with y by lia. lia.
  - apply Z.ltb_ge in E1. destruct (JsDate.DayFromYear (y + 1) <=? d) eqn:E2.
    + apply Z.leb_le in E2. replace (y + 1 + 1) with (y + 2) by lia. lia.
    + apply Z.leb_gt in E2. lia.
Qed.

Lemma DayFromYear_epoch : JsDate.DayFromYear 1970 = 0.
Proof. reflexivity. Qed.

Lemma InLeapYear_leap_year y : JsDate.InLeapYear y = if leap_year y then 1 else 0.
Proof. reflexivity. Qed.

Lemma date_of_time_spec t :
  let y := JsDate.YearFromTime t in
  let m := JsDate.MonthFromTime t + 1 in
  let d := JsDate.DateFromTime t in
  1 <= m <= 12 /\ 1 <= d <= days_in_month y m /\ days_from_civil y m d = JsDate.Day t.
Proof.
  unfold JsDate.MonthFromTime, JsDate.DateFromTime, JsDate.month_and_date,
    JsDate.DayWithinYear, JsDate.YearFromTime, days_from_civil.
  pose proof (year_of_day_spec (JsDate.Day t)) as H.
  rewrite DayFromYear_succ, InLeapYear_leap_year in H.
  rewrite InLeapYear_leap_year.
  set (y := JsDate.year_of_day (JsDate.Day t)) in *.
  set (dw := JsDate.Day t - JsDate.DayFromYear y).
  assert (Hdw : 0 <= dw < 365 + (if leap_year y then 1 else 0)) by (subst dw; lia).
  assert (Hd : JsDate.Day t = JsDate.DayFromYear y + dw) by (subst dw; lia).
  rewrite Hd. clearbody dw. clear H Hd.
  clearbody y.
  cbn [JsDate.month_start tl JsDate.month_in].
  repeat match goal with
         | |- context [if ?a <? ?b then _ else _] => destruct (Z.ltb_spec a b)
         end;
    cbn [fst snd]; cbn [Z.add Pos.add Pos.succ Pos.add_carry];
    cbv -[leap_year JsDate.DayFromYear Z.add Z.sub Z.le Z.lt];
    destruct (leap_year y); lia.
Qed.

Lemma range_check (P : Z -> bool) (lo n : Z) :
  forallb P (map (fun i => lo + Z.of_nat i) (seq 0 (Z.to_nat n))) = true ->
  forall z, lo <= z < lo + n -> P z = true.
Proof.
  intros H z Hz. rewrite forallb_forall in H. apply H. apply in_map_iff.
  exists (Z.to_nat (z - lo)). split; [lia | apply in_seq; lia].
Qed.

(** Printing of numbers on both sides of 2^53 and of 10^21. *)
Lemma Number_toString_examples :
  Js.Number_toString 1709596800 = "1709596800" /\
  Js.Number_toString (-42) = "-42" /\
  Js.Number_toString 9007199254740991 = "9007199254740991" /\
  Js.Number_toString 9007199254740993 = "9007199254740992" /\
  Js.Number_toString 7312345678901234567 = "7312345678901235000" /\
  Js.Number_toString (2 ^ 60) = "1152921504606847000" /\
  Js.Number_toString 123456789012345680000 = "123456789012345680000" /\
  Js.Number_toString (10 ^ 21) = "1e+21" /\
  Js.Number_toString (- 2 ^ 70) = "-1.1805916207174113e+21" /\
  Js.Number_toString (2 ^ 1024) = "Infinity".
Proof. vm_compute. repeat split. Qed.

Lemma two_digits_length n : 1 <= n <= 31 -> String.length (two_digits n) = 2%nat.
Proof.
  intros H. apply Nat.eqb_eq.
  apply (range_check (fun n => Nat.eqb (String.length (two_digits n)) 2) 1 31);
    [vm_compute; reflexivity | lia].
Qed.

Lemma four_digit_year y : 1000 <= y <= 9999 -> String.length (Js.Number_toString y) = 4%nat.
Proof.
  intros H. apply Nat.eqb_eq.
  apply (range_check (fun y => Nat.eqb (String.length (Js.Number_toString y)) 4) 1000 9000);
    [vm_compute; reflexivity | lia].
Qed.

Lemma days_in_month_le y m : days_in_month y m <= 31.
Proof.
  unfold days_in_month.
  destruct (m =? 2); [destruct (leap_year y); lia|].
  destruct ((m =? 4) || (m =? 6) || (m =? 9) || (m =? 11)); lia.
Qed.

Lemma downloadVideo_writes w videoData url s fileName s' :
  downloadVideo w videoData url s = (Ok fileName, s') ->
  fileName = videoFileName w videoData /\
  exists payload,
    http w (calls s) (fileRequest (videoUrl videoData) url) = Ok payload /\
    List.last (io s') (EvMkdir "") = EvWrite (path_join VIDEO_DIR fileName) payload.
Proof.
  unfold downloadVideo, downloadFile, try_catch, ensureDirectoryExists, mkdirSync, writeFileSync.
  run.
  destruct (http w (calls s) (fileRequest (videoUrl videoData) url)) as [payload|e];
    run; [|discriminate].
  match goal with |- context [has_dir VIDEO_DIR ?s1] => destruct (has_dir VIDEO_DIR s1) end;
    cbv beta iota.
  - destruct (writeFileSync_error w _ payload); run; [discriminate|].
    intros H. injection H as <- <-. split; [reflexivity|]. exists payload.
    split; [reflexivity|]. cbn [io log_io]. apply last_last.
  - destruct (mkdirSync_error w VIDEO_DIR); run; [discriminate|].
    destruct (writeFileSync_error w _ payload); run; [discriminate|].
    intros H. injection H as <- <-. split; [reflexivity|]. exists payload.
    split; [reflexivity|]. cbn [io log_io]. apply last_last.
Qed.

Lemma Day_of_second ts d : d * 86400 <= ts < (d + 1) * 86400 -> JsDate.Day (ts * 1000) = d.
Proof.
  intros H. unfold JsDate.Day, JsDate.msPerDay. symmetry.
  apply (Z.div_unique_pos _ _ _ (ts * 1000 - d * 86400000)); lia.
Qed.
(* ------------------------------------------------------------------ *)
(** ** The ledger of outcomes *)

Lemma photoBranch_ledger w url s :
  branch_outcome (is_ok (fst (photoResolution w url s))) s (photoBranch w url s).
Proof.
  unfold photoBranch, branch_outcome. cbn [bind ret Monad_M].
  pose proof (stats_photoResolution w url s) as H1. unfold same_stats in H1.
  destruct (photoResolution w url s) as [[[[[id images] ct] un]|e] s1]; simpl in H1 |- *;
    [|auto].
  pose proof (downloadImages_ledger w url id images ct un s1) as H2.
  destruct (downloadImages w url id images ct un s1) as [[[]|e] s2].
  - destruct H2 as (n & H2). eexists. cbn [downloadStats log_spinner fst snd].
    rewrite H2, H1. split; [reflexivity|]. split; [reflexivity|].
    eexists. unfold last_shown. cbn [spinner]. apply last_last.
  - eexists. rewrite H2, H1. split; [reflexivity|]. now split.
Qed.

Lemma videoBranch_ledger w url s :
  branch_outcome (is_ok (fst (videoResolution w url s))) s (videoBranch w url s).
Proof.
  unfold videoBranch, branch_outcome. cbn [bind ret Monad_M].
  pose proof (stats_videoResolution w url s) as H1. unfold same_stats in H1.
  destruct (videoResolution w url s) as [[[vd method]|e] s1]; simpl in H1;
    cbn [fst snd is_ok]; [|auto].
  rewrite log_spinner_run.
  pose proof (downloadVideo_ledger w vd url
                (shown (SpText ("Downloading video (" ++ method ++ ")...")) s1)) as H2.
  destruct (downloadVideo w vd url (shown (SpText ("Downloading video (" ++ method ++ ")...")) s1))
    as [[name|e] s2].
  - destruct H2 as (_ & H2). eexists. cbn [downloadStats log_spinner fst snd].
    rewrite H2. cbn [shown downloadStats]. rewrite H1. split; [reflexivity|].
    split; [reflexivity|]. eexists. unfold last_shown. cbn [spinner]. apply last_last.
  - eexists. rewrite H2. cbn [shown downloadStats]. rewrite H1.
    split; [reflexivity|]. now split.
Qed.

Lemma processUrl_returns w url s : fst (processUrl w url s) = Ok tt.
Proof.
  unfold processUrl, try_catch, log_spinner. cbn [bind ret Monad_M].
  now destruct (processUrl_body w url _) as [[[]|e] s1].
Qed.

(** C1 (amended). [processUrl] never throws, so the loop of [main] goes on
    to its next prompt whatever happened; it appends at most one record to
    the ledger: none when the URL is invalid or when resolution fails
    before [downloadImages] or [downloadVideo] is called, and exactly one
    once the download has been entered. A failure inside the download is
    recorded as [Failed] with the message of the error as details, the same
    message the orchestrator reports. *)
Theorem processUrl_records_at_most_once (w : World) :
  (forall url s, exists s' l,
      processUrl w url s = (Ok tt, s') /\
      downloadStats s' = (downloadStats s ++ l)%list /\
      match l with
      | [] => reaches_retrieval w url s = false
      | [rec] =>
          reaches_retrieval w url s = true /\
          match DownloadStat.status rec with
          | Success => exists text, last_shown s' = SpSucceed text
          | Failed => last_shown s' = SpFail ("Error: " ++ DownloadStat.details rec)
          end
      | _ => False
      end) /\
  (forall answers s, fst (mainLoop w answers s) = Ok tt).
Proof.
  split.
  - intros url s. unfold processUrl, reaches_retrieval, try_catch, processUrl_body.
    cbn [bind ret Monad_M]. unfold log_spinner at 1. fold (started s).
    destruct (validateURL url); cbn [negb andb].
    + assert (Hb : forall resolved p,
                 branch_outcome resolved (started s) p ->
                 exists s' l,
                   (let (r, s1) := p in
                    match r with
                    | Ok a => (Ok a, s1)
                    | Throw e => log_spinner (SpFail ("Error: " ++ exn_message e)) s1
                    end) = (Ok tt, s') /\
                   downloadStats s' = (downloadStats s ++ l)%list /\
                   match l with
                   | [] => resolved = false
                   | [rec] =>
                       resolved = true /\
                       match DownloadStat.status rec with
                       | Success => exists text, last_shown s' = SpSucceed text
                       | Failed => last_shown s' = SpFail ("Error: " ++ DownloadStat.details rec)
                       end
                   | _ => False
                   end).
      { intros resolved [[[]|e] s1] H; unfold branch_outcome in H; destruct resolved.
        - destruct H as (rec & H1 & H2 & H3). exists s1, [rec].
          repeat split; [exact H1|]. now rewrite H2.
        - destruct H as (_ & H); discriminate.
        - destruct H as (rec & H1 & H2 & H3).
          eexists; exists [rec]. split; [reflexivity|]. cbn [log_spinner snd downloadStats].
          repeat split; [exact H1|]. rewrite H2, H3. unfold last_shown. cbn [spinner].
          apply last_last.
        - destruct H as (H1 & _). eexists; exists []. split; [reflexivity|].
          cbn [log_spinner snd downloadStats]. rewrite app_nil_r. now split. }
      destruct (Str.includes "/photo/" url).
      * apply Hb, photoBranch_ledger.
      * apply Hb, videoBranch_ledger.
    + eexists; exists []. split; [reflexivity|]. cbn [downloadStats started shown].
      rewrite app_nil_r. now split.
  - induction answers as [|[url again] rest IH]; intros s; [reflexivity|].
    cbn [mainLoop bind Monad_M].
    pose proof (processUrl_returns w (Str.trim url) s) as H.
    destruct (processUrl w (Str.trim url) s) as [r s1]. simpl in H. subst r.
    destruct again; [apply IH | reflexivity].
Qed.

(** C1 (counterexample). An invalid URL, and a valid URL whose resolution
    fails (nothing answers the page request nor the backup API), each leave
    the ledger without any record. *)
Lemma unresolved_url_records_nothing :
  downloadStats (snd (processUrl world_offline "not a tiktok url" state_empty)) = [] /\
  downloadStats (snd (processUrl world_offline video_url state_empty)) = [].
Proof. split; vm_compute; reflexivity. Qed.

(* ------------------------------------------------------------------ *)
(** ** Order of the strategies *)

(** C4. For a video URL the page request of the markup strategy is the
    first request made; when the markup strategy yields a descriptor no
    request to the backup API follows, and otherwise the backup API is
    asked next and only once. *)
Theorem markup_strategy_comes_first (w : World) (url : string) (s : State) :
  validateURL url = true ->
  Str.includes "/photo/" url = false ->
  exists rest,
    new_io s (snd (processUrl w url s)) = EvRequest (pageRequest url) :: rest /\
    match fst (htmlExtraction w url s) with
    | Ok (Some videoData) => forall u, ~ In (EvRequest (apiRequest u)) rest
    | _ => exists rest', rest = EvRequest (apiRequest url) :: rest' /\
                         forall u, ~ In (EvRequest (apiRequest u)) rest'
    end.
Proof.
  intros Hvalid Hvideo.
  destruct (videoBranch_io w url (started s)) as (rest & F & E).
  eexists. split.
  - apply new_io_app. rewrite processUrl_io, (processUrl_body_video w url Hvalid Hvideo).
    exact E.
  - rewrite htmlExtraction_run. cbn [fst started shown calls].
    destruct (markupResult w url (calls s)); cbn [app].
    + now apply retrieval_not_api.
    + eexists. split; [reflexivity | now apply retrieval_not_api].
Qed.

Lemma markup_strategy_comes_first_witness :
  validateURL video_url = true /\
  Str.includes "/photo/" video_url = false /\
  exists rest,
    new_io state_empty (snd (processUrl world_markup_ok video_url state_empty))
    = EvRequest (pageRequest video_url) :: rest /\
    match fst (htmlExtraction world_markup_ok video_url state_empty) with
    | Ok (Some videoData) => forall u, ~ In (EvRequest (apiRequest u)) rest
    | _ => exists rest', rest = EvRequest (apiRequest video_url) :: rest' /\
                         forall u, ~ In (EvRequest (apiRequest u)) rest'
    end.
Proof.
  split; [reflexivity|]. split; [reflexivity|].
  apply (markup_strategy_comes_first world_markup_ok video_url state_empty); reflexivity.
Defined.

(* ------------------------------------------------------------------ *)
(** ** Classification *)

(** C9. A valid URL is handled as a photo set exactly when the text
    [/photo/] occurs somewhere in it, wherever that is; every other valid
    URL is handled as a video. The branch taken shows in the first request:
    the backup API for a photo set, the page for a video. *)
Theorem photo_set_iff_photo_substring (w : World) (url : string) (s : State) :
  validateURL url = true ->
  ((exists pre post, url = pre ++ "/photo/" ++ post) /\
   processUrl_body w url = photoBranch w url /\
   hd_error (new_io s (snd (processUrl w url s))) = Some (EvRequest (apiRequest url)))
  \/
  (~ (exists pre post, url = pre ++ "/photo/" ++ post) /\
   processUrl_body w url = videoBranch w url /\
   hd_error (new_io s (snd (processUrl w url s))) = Some (EvRequest (pageRequest url))).
Proof.
  intros Hvalid. destruct (Str.includes "/photo/" url) eqn:Hinc.
  - left. split; [now apply includes_spec|].
    split; [now apply processUrl_body_photo|].
    destruct (photoBranch_io w url (started s)) as (rest & _ & E).
    erewrite new_io_app;
      [|rewrite processUrl_io, (processUrl_body_photo w url Hvalid Hinc); exact E].
    reflexivity.
  - right. split.
    + intros H. apply includes_spec in H. congruence.
    + split; [now apply processUrl_body_video|].
      destruct (videoBranch_io w url (started s)) as (rest & _ & E).
      erewrite new_io_app;
        [|rewrite processUrl_io, (processUrl_body_video w url Hvalid Hinc); exact E].
      reflexivity.
Qed.

Lemma photo_set_iff_photo_substring_witness :
  let url := "https://www.tiktok.com/@ab/video/1?from=/photo/" in
  validateURL url = true /\
  hd_error (new_io state_empty (snd (processUrl world_offline url state_empty)))
  = Some (EvRequest (apiRequest url)).
Proof.
  intros url. split; [reflexivity|].
  destruct (photo_set_iff_photo_substring world_offline url state_empty eq_refl)
    as [(_ & _ & H) | (H & _)]; [exact H|].
  exfalso. apply H. now exists "https://www.tiktok.com/@ab/video/1?from=", "".
Defined.

(* ------------------------------------------------------------------ *)
(** ** Records of a photo set *)

(** C10. [downloadImages] appends one record whose kind label depends on
    the outcome: [Photo Slide] with status [Success] when it completes,
    [Photo] with status [Failed] when it throws, the id and author then
    replaced by [Unknown] when they are falsy; the two labels differ. Both
    outcomes occur: it throws when the fetch of the first image fails or
    when the image directory cannot be created, and it completes on an
    empty array. *)
Theorem photo_record_label_depends_on_status (w : World) (url : string)
    (imageId imageUrls timestamp authorId : JsVal) (s : State) :
  (exists rec,
      downloadStats (snd (downloadImages w url imageId imageUrls timestamp authorId s))
      = (downloadStats s ++ [rec])%list /\
      match fst (downloadImages w url imageId imageUrls timestamp authorId s) with
      | Ok _ =>
          DownloadStat.type rec = "Photo Slide" /\ DownloadStat.status rec = Success /\
          DownloadStat.id rec = imageId /\ DownloadStat.author rec = authorId
      | Throw e =>
          DownloadStat.type rec = "Photo" /\ DownloadStat.status rec = Failed /\
          DownloadStat.id rec = (if Js.truthy imageId then imageId else JStr "Unknown") /\
          DownloadStat.author rec = (if Js.truthy authorId then authorId else JStr "Unknown") /\
          DownloadStat.details rec = exn_message e
      end /\
      "Photo Slide" <> "Photo") /\
  (forall (u : JsVal) (rest : list JsVal) (e : Exn),
      imageUrls = JArr (u :: rest) ->
      mkdirSync_error w IMAGE_DIR = None ->
      http w (calls s) (fileRequest u url) = Throw e ->
      fst (downloadImages w url imageId imageUrls timestamp authorId s) = Throw e) /\
  (forall e : Exn,
      has_dir IMAGE_DIR s = false ->
      mkdirSync_error w IMAGE_DIR = Some e ->
      fst (downloadImages w url imageId imageUrls timestamp authorId s) = Throw e) /\
  (imageUrls = JArr [] ->
   mkdirSync_error w IMAGE_DIR = None ->
   fst (downloadImages w url imageId imageUrls timestamp authorId s) = Ok tt).
Proof.
  split; [|split; [|split]].
  - pose proof (downloadImages_ledger w url imageId imageUrls timestamp authorId s) as H.
    destruct (downloadImages w url imageId imageUrls timestamp authorId s) as [[[]|e] s'].
    + destruct H as (n & H). eexists. split; [exact H|]. cbn. repeat split. discriminate.
    + eexists. split; [exact H|]. cbn. repeat split. discriminate.
  - intros u rest e ->. apply downloadImages_first_fetch_fails.
  - intros e. apply downloadImages_mkdir_fails.
  - intros ->. apply downloadImages_empty.
Qed.

Lemma photo_record_label_depends_on_status_witness :
  let download imageUrls :=
    downloadImages world_offline photo_url JUndefined imageUrls (JNum 1709596800) (JStr "")
      state_empty in
  fst (download (JArr [JStr "https://p.example/0.jpg"])) = Throw (Error "Network Error") /\
  downloadStats (snd (download (JArr [JStr "https://p.example/0.jpg"])))
  = [DownloadStat.mk "Photo" (JStr "Unknown") (JStr "Unknown") Failed "Network Error"] /\
  fst (download (JArr [])) = Ok tt /\
  exists details,
    downloadStats (snd (download (JArr [])))
    = [DownloadStat.mk "Photo Slide" JUndefined (JStr "") Success details].
Proof.
  intros download.
  assert (F : fst (download (JArr [JStr "https://p.example/0.jpg"]))
              = Throw (Error "Network Error")).
  { exact (proj1 (proj2 (photo_record_label_depends_on_status world_offline photo_url
                           JUndefined (JArr [JStr "https://p.example/0.jpg"])
                           (JNum 1709596800) (JStr "") state_empty))
             (JStr "https://p.example/0.jpg") [] (Error "Network Error")
             eq_refl eq_refl eq_refl). }
  split; [exact F|]. split; [|split].
  - destruct (photo_record_label_depends_on_status world_offline photo_url JUndefined
                (JArr [JStr "https://p.example/0.jpg"]) (JNum 1709596800) (JStr "")
                state_empty) as ((rec & E & M & _) & _).
    unfold download in F |- *. rewrite E. rewrite F in M.
    destruct rec as [ty id au st de]. cbn in M. destruct M as (-> & -> & -> & -> & ->).
    reflexivity.
  - exact (proj2 (proj2 (proj2 (photo_record_label_depends_on_status world_offline photo_url
                                  JUndefined (JArr []) (JNum 1709596800) (JStr "")
                                  state_empty))) eq_refl eq_refl).
  - destruct (photo_record_label_depends_on_status world_offline photo_url JUndefined
                (JArr []) (JNum 1709596800) (JStr "") state_empty)
      as ((rec & E & M & _) & _ & _ & S).
    specialize (S eq_refl eq_refl). rewrite S in M.
    destruct rec as [ty id au st de]. cbn in M. destruct M as (-> & -> & -> & ->).
    exists de. unfold download. rewrite E. reflexivity.
Defined.

(* ------------------------------------------------------------------ *)
(** ** Partial failure of a photo set *)

(** C6. When the backup API describes a photo set of three images and the
    fetch of the second fails, the images are fetched in order: the first
    is fetched and written, the second is requested and the third never;
    the one file written is the image of index 0 and nothing removes it;
    the ledger gets one [Failed] record for the set, and [processUrl]
    returns normally after reporting the error. *)
Theorem second_image_failure (w : World) (url : string) (s : State)
    (photoData u0 u1 u2 bytes0 : JsVal) (e : Exn) :
  let id := Js.member photoData "id" in
  let createTime := Js.member photoData "createTime" in
  let username := Js.member (Js.member photoData "author") "username" in
  let file0 := path_join IMAGE_DIR (imageFileName w username createTime id 0) in
  validateURL url = true ->
  Str.includes "/photo/" url = true ->
  fst (getMediaInfoFromAPI w url s) = Ok photoData ->
  Js.member photoData "type" = JStr "image" ->
  Js.member photoData "images" = JArr [u0; u1; u2] ->
  Js.nullish (Js.member photoData "author") = false ->
  http w (S (calls s)) (fileRequest u0 url) = Ok bytes0 ->
  http w (S (S (calls s))) (fileRequest u1 url) = Throw e ->
  mkdirSync_error w IMAGE_DIR = None ->
  writeFileSync_error w file0 bytes0 = None ->
  exists s',
    processUrl w url s = (Ok tt, s') /\
    new_io s s' =
      (EvRequest (apiRequest url)
       :: (if has_dir IMAGE_DIR s then [] else [EvMkdir IMAGE_DIR])
       ++ [EvRequest (fileRequest u0 url); EvWrite file0 bytes0;
           EvRequest (fileRequest u1 url)])%list /\
    filter is_write (new_io s s') = [EvWrite file0 bytes0] /\
    downloadStats s' =
      (downloadStats s ++
       [DownloadStat.mk "Photo" (Js.or_else id (JStr "Unknown"))
          (Js.or_else username (JStr "Unknown")) Failed (exn_message e)])%list /\
    last_shown s' = SpFail ("Error: " ++ exn_message e).
Proof.
  intros id createTime username file0 Hvalid Hphoto Hapi Htype Himages Hauthor H0 H1 Hmk Hwr.
  rewrite getMediaInfoFromAPI_run in Hapi. cbn [fst] in Hapi.
  unfold processUrl. rewrite bind_run, log_spinner_run. unfold try_catch.
  rewrite (processUrl_body_photo w url Hvalid Hphoto).
  unfold photoBranch. rewrite bind_run.
  rewrite (photoResolution_ok w url (shown (SpStart "Analyzing URL...") s) photoData Hapi Htype);
    [|now rewrite Himages|exact Hauthor].
  cbv beta iota. fold id createTime username. rewrite Himages. rewrite bind_run.
  match goal with |- context [downloadImages w url id _ createTime username ?s1] =>
    destruct (downloadImages_second_fails w url s1 id createTime username u0 u1 u2 bytes0 e
                H0 H1 Hmk Hwr) as (s2 & E & Eio & Estats) end.
  rewrite E. cbv beta iota. rewrite log_spinner_run.
  eexists. split; [reflexivity|].
  assert (N : new_io s (shown (SpFail ("Error: " ++ exn_message e)) s2) =
              (EvRequest (apiRequest url)
               :: (if has_dir IMAGE_DIR s then [] else [EvMkdir IMAGE_DIR])
               ++ [EvRequest (fileRequest u0 url); EvWrite file0 bytes0;
                   EvRequest (fileRequest u1 url)])%list).
  { apply new_io_app. cbn [io shown]. rewrite Eio. cbn [io shown requested].
    rewrite <- !app_assoc. reflexivity. }
  rewrite N. repeat split.
  - now destruct (has_dir IMAGE_DIR s).
  - cbn [downloadStats shown]. rewrite Estats. reflexivity.
  - unfold last_shown. cbn [spinner shown]. apply last_last.
Qed.

Lemma second_image_failure_witness :
  exists s',
    processUrl world_second_image_fails photo_url state_empty = (Ok tt, s') /\
    filter is_write (new_io state_empty s')
    = [EvWrite (IMAGE_DIR, "ab_img_05032024_77_1.jpg") (JStr "jpeg bytes")] /\
    downloadStats s'
    = [DownloadStat.mk "Photo" (JStr "77") (JStr "ab") Failed "Network Error"].
Proof.
  destruct (second_image_failure world_second_image_fails photo_url state_empty
              (photo_result (JArr [JStr "https://p.example/0.jpg";
                                   JStr "https://p.example/1.jpg";
                                   JStr "https://p.example/2.jpg"]))
              (JStr "https://p.example/0.jpg") (JStr "https://p.example/1.jpg")
              (JStr "https://p.example/2.jpg") (JStr "jpeg bytes") (Error "Network Error"))
    as (s' & E & _ & W & L & _); try reflexivity.
  exists s'. split; [exact E|]. split; [exact W | exact L].
Defined.

(* ------------------------------------------------------------------ *)
(** ** Validation of the answers of the backup API *)

(** C2 (the code at the failing input). The backup API answers a photo-set
    URL with type [image] and an empty [images] array: [processUrl] asks the
    API once, fetches and writes nothing, and records a [Success] of
    [0 Images]. *)
Theorem empty_photo_set_is_recorded_as_success :
  let w := world_of 0 [api_success (photo_result (JArr []))] None syntax_error in
  let s' := snd (processUrl w photo_url state_empty) in
  io s' = [EvRequest (apiRequest photo_url); EvMkdir IMAGE_DIR] /\
  downloadStats s'
  = [DownloadStat.mk "Photo Slide" (JStr "77") (JStr "ab") Success "0 Images"] /\
  last_shown s' = SpSucceed "Photo slide downloaded successfully!".
Proof. vm_compute. repeat split. Qed.

(** C3 (the code at the failing input). The page has no rehydration element
    and the backup API answers with type [video] and an empty
    [video.playAddr]: the API strategy yields a descriptor whose playback
    URL is [undefined], and [processUrl] goes on to request that URL; the
    failure recorded is the one of that download. *)
Theorem empty_playAddr_is_downloaded :
  let result := video_result (JStr "ab") (JStr "123") (JArr []) in
  let w := world_of 0 [Ok (JStr "<html>"); api_success result] None syntax_error in
  let s' := snd (processUrl w video_url state_empty) in
  videoDataFromApi result
  = Ok (mkVideoData (JStr "ab") (JStr "123") (JNum 1709596800) JUndefined JUndefined) /\
  io s' = [EvRequest (pageRequest video_url); EvRequest (apiRequest video_url);
           EvRequest (fileRequest JUndefined video_url)] /\
  downloadStats s'
  = [DownloadStat.mk "Video" (JStr "123") (JStr "ab") Failed "Network Error"].
Proof. vm_compute. repeat split. Qed.

(* ------------------------------------------------------------------ *)
(** ** Fallback from the markup strategy *)

(** C7 (counterexample). The rehydration data of the page lacks
    [author.uniqueId], [itemStruct.id] and [itemStruct.createTime]: the
    markup strategy still yields a descriptor, with those fields
    [undefined], and the backup API is never asked. *)
Lemma missing_ids_do_not_fall_through :
  fst (htmlExtraction world_missing_ids video_url state_empty)
  = Ok (Some (mkVideoData JUndefined JUndefined JUndefined
                (JStr "https://v.example/1.mp4") JUndefined)) /\
  io (snd (processUrl world_missing_ids video_url state_empty))
  = [EvRequest (pageRequest video_url);
     EvRequest (fileRequest (JStr "https://v.example/1.mp4") video_url);
     EvMkdir VIDEO_DIR;
     EvWrite (VIDEO_DIR, "undefined_vid_NaNNaNNaN_undefined.mp4") (JStr "mp4 bytes")].
Proof. vm_compute. repeat split. Qed.

(** C7 (amended). For a video URL the markup strategy never throws, and it
    leaves [videoData] at [null] exactly in the cases of [MarkupFailure]: a
    failed page request, a failure of the markup parser, no rehydration
    element, no text in it, a JSON parse error, a missing scope,
    video-detail, itemStruct, author or video object, or an error while
    reading the bitrate variants. In each of them resolution is the one of
    the backup API, which is asked right after the page request and once. *)
Theorem markup_failure_falls_through (w : World) (url : string) (s : State) :
  validateURL url = true ->
  Str.includes "/photo/" url = false ->
  (MarkupFailure w url (calls s) <-> fst (htmlExtraction w url s) = Ok None) /\
  (MarkupFailure w url (calls s) ->
   fst (videoResolution w url (started s))
   = (apiData <- apiResult w url (S (calls s)) ;;
      videoData <- videoDataFromApi apiData ;;
      ret (videoData, "API")) /\
   fst (processUrl w url s) = Ok tt /\
   exists rest,
     new_io s (snd (processUrl w url s))
     = EvRequest (pageRequest url) :: EvRequest (apiRequest url) :: rest /\
     forall u, ~ In (EvRequest (apiRequest u)) rest).
Proof.
  intros Hvalid Hvideo. split.
  - rewrite htmlExtraction_run. cbn [fst]. rewrite <- markupFailure_iff.
    split; [intros H; now rewrite H | congruence].
  - intros HF. apply markupFailure_iff in HF. split; [|split].
    + rewrite videoResolution_run. cbv zeta. cbn [calls started shown].
      now rewrite HF.
    + apply processUrl_returns.
    + destruct (videoBranch_io w url (started s)) as (rest & F & E).
      cbn [calls started shown] in E. rewrite HF in E.
      exists rest. split; [|now apply retrieval_not_api].
      apply new_io_app.
      rewrite processUrl_io, (processUrl_body_video w url Hvalid Hvideo). exact E.
Qed.

Lemma markup_failure_falls_through_witness :
  let w := world_api_only (video_result (JStr "ab") (JStr "123")
                             (JArr [JStr "https://v.example/1.mp4"])) in
  fst (htmlExtraction w video_url state_empty) = Ok None /\
  exists rest,
    new_io state_empty (snd (processUrl w video_url state_empty))
    = EvRequest (pageRequest video_url) :: EvRequest (apiRequest video_url) :: rest /\
    forall u, ~ In (EvRequest (apiRequest u)) rest.
Proof.
  intros w.
  destruct (markup_failure_falls_through w video_url state_empty eq_refl eq_refl)
    as (Hiff & Hfall).
  assert (HF : MarkupFailure w video_url (calls state_empty)).
  { eapply MF_no_element; reflexivity. }
  split; [now apply Hiff|].
  destruct (Hfall HF) as (_ & _ & H). exact H.
Defined.

(* ------------------------------------------------------------------ *)
(** ** Identifiers of a resolved descriptor *)

(** C8 (counterexample). The backup API answers with an empty
    [author.username] and no [id]: resolution succeeds with an empty author
    and an [undefined] id, and the download is recorded as a success, for a
    video and for a photo set alike. *)
Lemma resolution_accepts_empty_ids :
  fst (videoResolution (world_api_only result_without_ids) video_url (started state_empty))
  = Ok (mkVideoData (JStr "") JUndefined (JNum 1709596800)
          (JStr "https://v.example/1.mp4") JUndefined, "API") /\
  downloadStats (snd (processUrl (world_api_only result_without_ids) video_url state_empty))
  = [DownloadStat.mk "Video" JUndefined (JStr "") Success "MP4 Saved"] /\
  fst (photoResolution world_photo_without_ids photo_url (started state_empty))
  = Ok (JUndefined, JArr [JStr "https://p.example/0.jpg"], JNum 1709596800, JStr "") /\
  downloadStats (snd (processUrl world_photo_without_ids photo_url state_empty))
  = [DownloadStat.mk "Photo Slide" JUndefined (JStr "") Success "1 Images"].
Proof. vm_compute. repeat split. Qed.

(** C8 (amended). A descriptor produced by either strategy, of a video or
    of a photo set, carries as author and id exactly what the payload
    holds, empty or absent as they may be: [author.uniqueId] and
    [itemStruct.id] of the rehydration data, [author.username] and [id] of
    the answer of the backup API. Resolution requires the [author] object
    only: truthy in the rehydration data, not [null] or [undefined] in the
    answer of the API. *)
Theorem resolved_ids_are_copied_from_payload :
  (forall (w : World) (rawJSON : string) (videoData : VideoData),
      extractVideoDataFromJson w rawJSON = Some videoData ->
      exists parsedJSON,
        JSON_parse w rawJSON = Ok parsedJSON /\
        Js.truthy (Js.member (itemStructOf parsedJSON) "author") = true /\
        authorUniqueId videoData
        = Js.member (Js.member (itemStructOf parsedJSON) "author") "uniqueId" /\
        videoId videoData = Js.member (itemStructOf parsedJSON) "id") /\
  (forall (apiData : JsVal) (videoData : VideoData),
      videoDataFromApi apiData = Ok videoData ->
      Js.nullish (Js.member apiData "author") = false /\
      authorUniqueId videoData = Js.member (Js.member apiData "author") "username" /\
      videoId videoData = Js.member apiData "id") /\
  (forall (w : World) (url : string) (s s' : State) (id images createTime username : JsVal),
      photoResolution w url s = (Ok (id, images, createTime, username), s') ->
      exists photoData,
        apiResult w url (calls s) = Ok photoData /\
        Js.nullish (Js.member photoData "author") = false /\
        username = Js.member (Js.member photoData "author") "username" /\
        id = Js.member photoData "id").
Proof.
  split; [|split].
  - intros w rawJSON videoData. unfold extractVideoDataFromJson.
    rewrite extractVideoData_body_run. cbn [bind ret Monad_Res].
    destruct (JSON_parse w rawJSON) as [parsed|e]; [|discriminate].
    destruct (required_present parsed) eqn:Rq; [|discriminate]. cbv zeta.
    destruct (selectVideoUrl w (Js.member (itemStructOf parsed) "video")) as [u|e];
      [|discriminate].
    intros H. injection H as <-. exists parsed. cbn. repeat split.
    unfold required_present in Rq. apply andb_prop in Rq. destruct Rq as (Rq & _).
    apply andb_prop in Rq. now destruct Rq.
  - intros apiData videoData. unfold videoDataFromApi, Js.getProp. cbn [bind ret Monad_Res].
    destruct (Js.nullish apiData); [discriminate|].
    destruct (Js.strict_neq_str (Js.member apiData "type") "video"
              || negb (Js.truthy (Js.getPropOpt (Js.member apiData "video") "playAddr")));
      [discriminate|].
    destruct (Js.nullish (Js.member apiData "author")); [discriminate|].
    destruct (Js.nullish (Js.member apiData "video")); [discriminate|].
    unfold Js.getIndex.
    destruct (Js.nullish (Js.member (Js.member apiData "video") "playAddr")); [discriminate|].
    intros H. injection H as <-. cbn. repeat split.
  - intros w url s s' id images createTime username.
    unfold photoResolution. run. rewrite getMediaInfoFromAPI_run. cbn [calls shown].
    destruct (apiResult w url (calls s)) as [photoData|e]; run; [|discriminate].
    unfold Js.getProp.
    destruct (Js.nullish photoData); run; [discriminate|].
    destruct (Js.strict_neq_str (Js.member photoData "type") "image"
              || negb (Js.truthy (Js.member photoData "images"))); run; [discriminate|].
    destruct (Js.nullish (Js.member photoData "images")); run; [discriminate|].
    destruct (Js.nullish (Js.member photoData "author")) eqn:A; run; [discriminate|].
    intros H. injection H as <- _ _ <- _. exists photoData. repeat split. exact A.
Qed.

Lemma resolved_ids_are_copied_from_payload_witness :
  (exists parsedJSON,
      JSON_parse world_markup_ok "{...}" = Ok parsedJSON /\
      Js.member (Js.member (itemStructOf parsedJSON) "author") "uniqueId" = JStr "ab" /\
      Js.member (itemStructOf parsedJSON) "id" = JStr "123") /\
  (Js.member (Js.member result_without_ids "author") "username" = JStr "" /\
   Js.member result_without_ids "id" = JUndefined) /\
  (exists photoData,
      apiResult world_photo_without_ids photo_url 0 = Ok photoData /\
      Js.member (Js.member photoData "author") "username" = JStr "" /\
      Js.member photoData "id" = JUndefined).
Proof.
  split; [|split].
  - destruct (proj1 resolved_ids_are_copied_from_payload world_markup_ok "{...}"
                (mkVideoData (JStr "ab") (JStr "123") (JNum 1709596800)
                   (JStr "https://v.example/1.mp4") JUndefined) eq_refl)
      as (parsed & P & _ & A & I).
    exists parsed. split; [exact P|]. split; [now rewrite <- A | now rewrite <- I].
  - destruct (proj1 (proj2 resolved_ids_are_copied_from_payload) result_without_ids
                (mkVideoData (JStr "") JUndefined (JNum 1709596800)
                   (JStr "https://v.example/1.mp4") JUndefined) eq_refl)
      as (_ & A & I).
    split; [now rewrite <- A | now rewrite <- I].
  - destruct (proj2 (proj2 resolved_ids_are_copied_from_payload) world_photo_without_ids
                photo_url state_empty
                (snd (photoResolution world_photo_without_ids photo_url state_empty))
                JUndefined (JArr [JStr "https://p.example/0.jpg"]) (JNum 1709596800)
                (JStr "") eq_refl)
      as (photoData & P & _ & A & I).
    exists photoData. split; [exact P|]. split; [now rewrite <- A | now rewrite <- I].
Defined.

(* ------------------------------------------------------------------ *)
(** ** Name of the video file *)

(** C5 (counterexample). In a process whose local zone is five hours behind
    UTC, the descriptor of author [ab], id [123] and creation time
    2024-03-05T00:00:00Z is saved under the date of 4 March; and a creation
    time in the year 702 gives a year of three digits. *)
Lemma video_file_name_follows_local_zone :
  videoFileName world_utc_minus_5
    (mkVideoData (JStr "ab") (JStr "123") (JNum 1709596800) JUndefined JUndefined)
  = "ab_vid_04032024_123.mp4" /\
  formatUploadDate world_offline (JNum (-40000000000)) = "1506702".
Proof. split; vm_compute; reflexivity. Qed.

(** C5 (amended). For every descriptor the video file is named
    [{authorId}_vid_{date}_{itemId}.mp4], author and id being converted to
    strings the way a template literal does. When [createTime] is a number
    of seconds (or converts to one) within the range of [Date], the date is
    the calendar date of [createTime] in the local time zone of the
    process: day and month zero-padded to two digits, then the year, of
    four digits when it lies between 1000 and 9999. Otherwise the date is
    [NaNNaNNaN]. [downloadVideo] writes the payload it fetched to
    [path.join(VIDEO_DIR, name)]. When the local zone is UTC, author [ab],
    id [123] and any creation time within 5 March 2024 give
    [ab_vid_05032024_123.mp4]. *)
Theorem video_file_is_named_by_local_date (w : World) (videoData : VideoData) :
  (exists date,
      videoFileName w videoData
      = Js.ToString (authorUniqueId videoData) ++ "_vid_" ++ date
        ++ "_" ++ Js.ToString (videoId videoData) ++ ".mp4" /\
      match Js.ToNumber (StringToNumber w) (createTime videoData) with
      | Some ts =>
          if Z.abs (ts * 1000) <=? JsDate.maxTime then
            let t := ts * 1000 + LocalTZA w (ts * 1000) in
            exists y m d,
              days_from_civil y m d = JsDate.Day t /\
              1 <= m <= 12 /\ 1 <= d <= days_in_month y m /\
              date = two_digits d ++ two_digits m ++ Js.Number_toString y /\
              String.length (two_digits d) = 2%nat /\
              String.length (two_digits m) = 2%nat /\
              (1000 <= y <= 9999 -> String.length (Js.Number_toString y) = 4%nat)
          else date = "NaNNaNNaN"
      | None => date = "NaNNaNNaN"
      end) /\
  (forall url s fileName s',
      downloadVideo w videoData url s = (Ok fileName, s') ->
      fileName = videoFileName w videoData /\
      exists payload,
        http w (calls s) (fileRequest (videoUrl videoData) url) = Ok payload /\
        List.last (io s') (EvMkdir "") = EvWrite (path_join VIDEO_DIR fileName) payload) /\
  (forall ts,
      Js.ToNumber (StringToNumber w) (createTime videoData) = Some ts ->
      LocalTZA w (ts * 1000) = 0 ->
      1709596800 <= ts < 1709683200 ->
      authorUniqueId videoData = JStr "ab" ->
      videoId videoData = JStr "123" ->
      videoFileName w videoData = "ab_vid_05032024_123.mp4").
Proof.
  split; [|split].
  - exists (formatUploadDate w (createTime videoData)). split; [reflexivity|].
    unfold formatUploadDate, JsDate.TimeClip.
    destruct (Js.ToNumber (StringToNumber w) (createTime videoData)) as [ts|]; [|reflexivity].
    destruct (Z.abs (ts * 1000) <=? JsDate.maxTime); [|reflexivity].
    cbv zeta. set (t := ts * 1000 + LocalTZA w (ts * 1000)).
    pose proof (date_of_time_spec t) as (Hm & Hd & Hday).
    exists (JsDate.YearFromTime t), (JsDate.MonthFromTime t + 1), (JsDate.DateFromTime t).
    split; [exact Hday|]. split; [exact Hm|]. split; [exact Hd|]. split; [|split; [|split]].
    + reflexivity.
    + apply two_digits_length.
      pose proof (days_in_month_le (JsDate.YearFromTime t) (JsDate.MonthFromTime t + 1)). lia.
    + apply two_digits_length. lia.
    + apply four_digit_year.
  - intros url s fileName s'. apply downloadVideo_writes.
  - intros ts Hts Hutc Hday Hauthor Hid. unfold videoFileName, formatUploadDate, JsDate.TimeClip.
    rewrite Hts, Hauthor, Hid.
    replace (Z.abs (ts * 1000) <=? JsDate.maxTime) with true
      by (symmetry; apply Z.leb_le; unfold JsDate.maxTime; lia).
    cbv zeta. rewrite Hutc, Z.add_0_r.
    unfold JsDate.DateFromTime, JsDate.MonthFromTime, JsDate.month_and_date,
      JsDate.DayWithinYear, JsDate.YearFromTime.
    rewrite (Day_of_second ts 19787) by lia. vm_compute. reflexivity.
Qed.

Lemma video_file_is_named_by_local_date_witness :
  videoFileName world_markup_ok
    (mkVideoData (JStr "ab") (JStr "123") (JNum 1709596800)
       (JStr "https://v.example/1.mp4") JUndefined)
  = "ab_vid_05032024_123.mp4" /\
  exists date,
    videoFileName world_markup_ok
      (mkVideoData JUndefined JUndefined JUndefined (JStr "https://v.example/1.mp4") JUndefined)
    = "undefined_vid_" ++ date ++ "_undefined.mp4" /\
    date = "NaNNaNNaN".
Proof.
  split.
  - apply (proj2 (proj2 (video_file_is_named_by_local_date world_markup_ok
                           (mkVideoData (JStr "ab") (JStr "123") (JNum 1709596800)
                              (JStr "https://v.example/1.mp4") JUndefined)))
             1709596800 eq_refl);
      [reflexivity | lia | reflexivity | reflexivity].
  - exact (proj1 (video_file_is_named_by_local_date world_markup_ok
                    (mkVideoData JUndefined JUndefined JUndefined
                       (JStr "https://v.example/1.mp4") JUndefined))).
Defined.

(* ------------------------------------------------------------------ *)
(** ** Further properties: validation and requests *)

Lemma append_nil_r (s : string) : s ++ "" = s.
Proof. induction s as [|a s IH]; cbn; [reflexivity | now rewrite IH]. Qed.

Lemma strict_neq_str_false v lit : Js.strict_neq_str v lit = false <-> v = JStr lit.
Proof.
  destruct v; cbn; try (split; [discriminate | discriminate]).
  rewrite negb_false_iff, String.eqb_eq. split; congruence.
Qed.

(** X1. [validateURL] accepts exactly the strings made of [http] or [https],
    [://], optionally [www.], [vm.] or [vt.], then [tiktok.com], followed by
    any text without a line terminator: the host is not closed by the
    pattern, and nothing may precede the scheme. *)
Theorem validateURL_iff (url : string) :
  validateURL url = true <->
  exists scheme sub rest,
    In scheme ["https"; "http"] /\ In sub ["www."; "vm."; "vt."; ""] /\
    url = scheme ++ "://" ++ sub ++ "tiktok.com" ++ rest /\
    no_line_terminator rest = true.
Proof.
  unfold validateURL, TIKTOK_URL_REGEX_test. split.
  - destruct (Str.is_empty url); [discriminate|].
    intros H. apply existsb_exists in H. destruct H as (scheme & Hs & H).
    apply existsb_exists in H. destruct H as (sub & Hb & H).
    apply existsb_exists in H. destruct H as (slash & Hl & H).
    destruct (Str.strip_prefix _ url) as [rest|] eqn:E; [|discriminate].
    apply strip_prefix_Some in E.
    exists scheme, sub, (slash ++ rest). split; [exact Hs|]. split; [exact Hb|]. split.
    + rewrite E. now rewrite !append_assoc.
    + destruct Hl as [<-|[<-|[]]]; cbn; exact H.
  - intros (scheme & sub & rest & Hs & Hb & -> & Hr).
    assert (Hne : Str.is_empty (scheme ++ "://" ++ sub ++ "tiktok.com" ++ rest) = false).
    { destruct Hs as [<-|[<-|[]]]; reflexivity. }
    rewrite Hne. apply existsb_exists. exists scheme. split; [exact Hs|].
    apply existsb_exists. exists sub. split; [exact Hb|].
    apply existsb_exists. exists "". split; [now right; left|].
    replace (scheme ++ "://" ++ sub ++ "tiktok.com" ++ rest)
      with ((scheme ++ "://" ++ sub ++ "tiktok.com" ++ "") ++ rest).
    + rewrite strip_prefix_app. exact Hr.
    + rewrite !append_assoc. reflexivity.
Qed.

Lemma validateURL_iff_witness : validateURL "https://tiktok.com.example.org/x" = true.
Proof.
  apply (proj2 (validateURL_iff "https://tiktok.com.example.org/x")).
  exists "https", "", ".example.org/x". repeat split; cbn; auto.
Defined.

(** X2. For a URL that [validateURL] rejects, [processUrl] only tells the
    spinner to fail: no request is made, no directory or file is written and
    the ledger is unchanged. *)
Theorem invalid_url_touches_nothing (w : World) (url : string) (s : State) :
  validateURL url = false ->
  processUrl w url s =
  (Ok tt, shown (SpFail "Invalid TikTok URL format!") (started s)) /\
  io (snd (processUrl w url s)) = io s /\
  calls (snd (processUrl w url s)) = calls s /\
  dirs (snd (processUrl w url s)) = dirs s /\
  downloadStats (snd (processUrl w url s)) = downloadStats s.
Proof.
  intros H. unfold processUrl, processUrl_body, try_catch. rewrite H.
  cbn. repeat split.
Qed.

Lemma invalid_url_touches_nothing_witness :
  validateURL "vt.tiktok.com/ABCDEF" = false /\
  io (snd (processUrl world_markup_ok "vt.tiktok.com/ABCDEF" state_empty)) = [].
Proof.
  split; [reflexivity|].
  exact (proj1 (proj2 (invalid_url_touches_nothing world_markup_ok "vt.tiktok.com/ABCDEF"
                         state_empty eq_refl))).
Defined.

(** X3. For a photo-set URL the only resolution request is the one to the
    backup API, made first and once: the page is never requested, and what
    follows are fetches and writes of the retrieval. *)
Theorem photo_url_never_fetches_the_page (w : World) (url : string) (s : State) :
  validateURL url = true ->
  Str.includes "/photo/" url = true ->
  exists rest,
    new_io s (snd (processUrl w url s)) = EvRequest (apiRequest url) :: rest /\
    Forall retrieval_event rest /\
    (forall u, ~ In (EvRequest (pageRequest u)) (new_io s (snd (processUrl w url s)))) /\
    (forall u, ~ In (EvRequest (apiRequest u)) rest).
Proof.
  intros Hvalid Hphoto.
  destruct (photoBranch_io w url (started s)) as (rest & F & E).
  assert (N : new_io s (snd (processUrl w url s)) = EvRequest (apiRequest url) :: rest).
  { apply new_io_app. rewrite processUrl_io, (processUrl_body_photo w url Hvalid Hphoto).
    exact E. }
  exists rest. split; [exact N|]. split; [exact F|]. split.
  - intros u. rewrite N. intros [H|H]; [discriminate|].
    rewrite Forall_forall in F. specialize (F _ H). discriminate F.
  - now apply retrieval_not_api.
Qed.

Lemma photo_url_never_fetches_the_page_witness :
  exists rest,
    new_io state_empty (snd (processUrl world_second_image_fails photo_url state_empty))
    = EvRequest (apiRequest photo_url) :: rest /\
    Forall retrieval_event rest.
Proof.
  destruct (photo_url_never_fetches_the_page world_second_image_fails photo_url state_empty
              eq_refl eq_refl) as (rest & N & F & _).
  exists rest. split; [exact N | exact F].
Defined.

(** X4. [getMediaInfoFromAPI] makes exactly one request. It returns
    [result] exactly when the answer is an object whose [status] is the
    string [success]; a transport error is rethrown as it is, and any other
    status is thrown as [API Error: ] followed by that status. *)
Theorem getMediaInfoFromAPI_spec (w : World) (url : string) (s : State) :
  snd (getMediaInfoFromAPI w url s) = requested (apiRequest url) s /\
  (forall result,
      fst (getMediaInfoFromAPI w url s) = Ok result <->
      exists response_data,
        http w (calls s) (apiRequest url) = Ok response_data /\
        Js.nullish response_data = false /\
        Js.member response_data "status" = JStr "success" /\
        result = Js.member response_data "result") /\
  (forall e, http w (calls s) (apiRequest url) = Throw e ->
             fst (getMediaInfoFromAPI w url s) = Throw e) /\
  (forall response_data,
      http w (calls s) (apiRequest url) = Ok response_data ->
      Js.nullish response_data = false ->
      Js.member response_data "status" <> JStr "success" ->
      fst (getMediaInfoFromAPI w url s)
      = Throw (Error ("API Error: " ++ Js.ToString (Js.member response_data "status")))).
Proof.
  rewrite getMediaInfoFromAPI_run. cbn [fst snd]. unfold apiResult.
  cbn [bind ret Monad_Res]. split; [reflexivity|]. split; [|split].
  - intros result. split.
    + destruct (http w (calls s) (apiRequest url)) as [d|e]; [|discriminate].
      unfold Js.getProp. destruct (Js.nullish d) eqn:N; [discriminate|].
      destruct (Js.strict_neq_str (Js.member d "status") "success") eqn:T; [discriminate|].
      intros H. injection H as <-. exists d. apply strict_neq_str_false in T. auto.
    + intros (d & -> & N & St & ->). unfold Js.getProp. rewrite N, St. reflexivity.
  - intros e ->. reflexivity.
  - intros d -> N St. unfold Js.getProp. rewrite N.
    destruct (Js.strict_neq_str (Js.member d "status") "success") eqn:T; [reflexivity|].
    apply strict_neq_str_false in T. contradiction.
Qed.

Lemma getMediaInfoFromAPI_spec_witness :
  let w := world_serving [Ok (JObj [("status", JStr "error")])] in
  fst (getMediaInfoFromAPI w video_url state_empty) = Throw (Error "API Error: error").
Proof.
  intros w.
  apply (proj2 (proj2 (proj2 (getMediaInfoFromAPI_spec w video_url state_empty)))
           (JObj [("status", JStr "error")]) eq_refl eq_refl).
  discriminate.
Defined.

Lemma encode_cons a s :
  Str.encodeURIComponent (String a s)
  = Str.encodeURIComponent (String a "") ++ Str.encodeURIComponent s.
Proof. cbn [Str.encodeURIComponent]. now rewrite append_nil_r. Qed.

Lemma forallb_append f a b : Str.forallb f (a ++ b) = Str.forallb f a && Str.forallb f b.
Proof. induction a as [|x a IH]; cbn; [reflexivity | now rewrite IH, andb_assoc]. Qed.

Lemma encode_char_safe a : Str.forallb query_char (Str.encodeURIComponent (String a "")) = true.
Proof. destruct a as [[] [] [] [] [] [] [] []]; vm_compute; reflexivity. Qed.

Lemma decode_encode_char a s :
  decode_query (Str.encodeURIComponent (String a "") ++ s) = String a (decode_query s).
Proof. destruct a as [[] [] [] [] [] [] [] []]; reflexivity. Qed.

Lemma decode_encode s : decode_query (Str.encodeURIComponent s) = s.
Proof.
  induction s as [|a s IH]; [reflexivity|].
  now rewrite encode_cons, decode_encode_char, IH.
Qed.

(** X5. The URL asked of the backup API is the fixed endpoint followed by
    [?url=] and a query made of unreserved characters and percent escapes
    only, so the source URL cannot add parameters of its own; and two
    different source URLs never give the same request. *)
Theorem api_request_encodes_the_url :
  (forall url, exists query,
      rq_url (apiRequest url) = JStr (API_URL ++ "?url=" ++ query) /\
      Str.forallb query_char query = true) /\
  (forall url1 url2, apiRequest url1 = apiRequest url2 -> url1 = url2).
Proof.
  split.
  - intros url. exists (Str.encodeURIComponent url). split; [reflexivity|].
    induction url as [|a url IH]; [reflexivity|].
    now rewrite encode_cons, forallb_append, encode_char_safe, IH.
  - intros url1 url2 H. unfold apiRequest in H. injection H as H.
    rewrite <- (decode_encode url1), <- (decode_encode url2). now rewrite H.
Qed.

Lemma api_request_encodes_the_url_witness :
  exists query,
    rq_url (apiRequest "https://vt.tiktok.com/A?b=1&c=2")
    = JStr (API_URL ++ "?url=" ++ query) /\
    Str.forallb query_char query = true.
Proof.
  exact (proj1 api_request_encodes_the_url "https://vt.tiktok.com/A?b=1&c=2").
Defined.

(* ------------------------------------------------------------------ *)
(** ** Further properties: the markup and API descriptors *)

(** X6. The playback URL of the markup strategy: [video.playAddr] when
    [bitrateInfo] is absent or empty; with a first bitrate variant that is
    an object, its first [PlayAddr.UrlList] entry when that is truthy and
    [video.playAddr] otherwise; and a [TypeError] when the first variant is
    [null]. *)
Theorem playback_url_choice (w : World) (video : JsVal) :
  Js.nullish video = false ->
  let playAddr := Js.member video "playAddr" in
  let bitrateInfo := Js.member video "bitrateInfo" in
  (Js.nullish bitrateInfo = true \/ bitrateInfo = JArr [] ->
   selectVideoUrl w video = Ok playAddr) /\
  (forall first others,
      bitrateInfo = JArr (first :: others) ->
      Js.nullish first = false ->
      let candidate :=
        Js.getIndexOpt (Js.getPropOpt (Js.member first "PlayAddr") "UrlList") 0 in
      selectVideoUrl w video = Ok (if Js.truthy candidate then candidate else playAddr)) /\
  (forall first others,
      bitrateInfo = JArr (first :: others) ->
      Js.nullish first = true ->
      selectVideoUrl w video = Throw (Js.read_error first "PlayAddr")).
Proof.
  intros Hnn playAddr bitrateInfo. subst playAddr bitrateInfo.
  unfold selectVideoUrl. cbn [bind ret Monad_Res].
  rewrite !(getProp_member video) by exact Hnn.
  split; [|split].
  - intros [H | H].
    + unfold Js.getPropOpt. rewrite H. reflexivity.
    + rewrite H. reflexivity.
  - intros first others Hb Hf. rewrite Hb.
    cbn [Js.getPropOpt Js.nullish Js.member String.eqb Ascii.eqb Bool.eqb List.length].
    unfold Js.gt_num. cbn [Js.ToNumber].
    replace (0 <? Z.of_nat (S (List.length others))) with true
      by (symmetry; apply Z.ltb_lt; lia).
    cbn [Js.getIndex Js.nullish Js.element Z.ltb Z.compare Z.to_nat nth].
    unfold Js.getProp. now rewrite Hf.
  - intros first others Hb Hf. rewrite Hb.
    cbn [Js.getPropOpt Js.nullish Js.member String.eqb Ascii.eqb Bool.eqb List.length].
    unfold Js.gt_num. cbn [Js.ToNumber].
    replace (0 <? Z.of_nat (S (List.length others))) with true
      by (symmetry; apply Z.ltb_lt; lia).
    cbn [Js.getIndex Js.nullish Js.element Z.ltb Z.compare Z.to_nat nth].
    unfold Js.getProp. now rewrite Hf.
Qed.

Lemma playback_url_choice_witness :
  let video :=
    JObj [("playAddr", JStr "default");
          ("bitrateInfo",
           JArr [JObj [("PlayAddr", JObj [("UrlList", JArr [JStr "best"])])]])] in
  Js.nullish video = false /\
  selectVideoUrl world_offline video = Ok (JStr "best").
Proof.
  intros video. split; [reflexivity|].
  exact (proj1 (proj2 (playback_url_choice world_offline video eq_refl))
           (JObj [("PlayAddr", JObj [("UrlList", JArr [JStr "best"])])]) []
           eq_refl eq_refl).
Defined.

(** X7. A [null] first entry of [bitrateInfo] makes
    [extractVideoDataFromJson] return [null] although the rehydration data
    holds everything else, [video.playAddr] included. *)
Theorem null_bitrate_entry_rejects_the_page (w : World) (rawJSON : string)
    (parsedJSON first : JsVal) (others : list JsVal) :
  JSON_parse w rawJSON = Ok parsedJSON ->
  required_present parsedJSON = true ->
  Js.member (Js.member (itemStructOf parsedJSON) "video") "bitrateInfo"
  = JArr (first :: others) ->
  Js.nullish first = true ->
  extractVideoDataFromJson w rawJSON = None.
Proof.
  intros Hp Hr Hb Hf. apply jsonFailure_iff.
  eapply JF_bitrate_walk; [exact Hp | exact Hr |].
  assert (Hnn : Js.nullish (Js.member (itemStructOf parsedJSON) "video") = false).
  { eapply member_not_nullish; [exact Hb | discriminate]. }
  unfold selectVideoUrl. cbn [bind ret Monad_Res].
  rewrite !(getProp_member _ _ Hnn), Hb.
  cbn [Js.getPropOpt Js.nullish Js.member String.eqb Ascii.eqb Bool.eqb List.length].
  unfold Js.gt_num. cbn [Js.ToNumber].
  replace (0 <? Z.of_nat (S (List.length others))) with true
    by (symmetry; apply Z.ltb_lt; lia).
  cbn [Js.getIndex Js.nullish Js.element Z.ltb Z.compare Z.to_nat nth].
  unfold Js.getProp. now rewrite Hf.
Qed.

Lemma null_bitrate_entry_rejects_the_page_witness :
  extractVideoDataFromJson world_null_bitrate "{...}" = None /\
  Js.member (Js.member (itemStructOf data_null_bitrate) "video") "playAddr"
  = JStr "https://v.example/1.mp4".
Proof.
  split; [|reflexivity].
  apply (null_bitrate_entry_rejects_the_page world_null_bitrate "{...}" data_null_bitrate
           JNull []); reflexivity.
Defined.

(** X8. The backup-API strategy yields a descriptor exactly when the answer
    has type [video], a truthy [video.playAddr] and an [author] that is neither [null] nor [undefined]; the
    playback URL is then element 0 of [playAddr], the description is
    [undefined], and the other fields are copied. *)
Theorem videoDataFromApi_iff (apiData : JsVal) (videoData : VideoData) :
  videoDataFromApi apiData = Ok videoData <->
  Js.member apiData "type" = JStr "video" /\
  Js.truthy (Js.member (Js.member apiData "video") "playAddr") = true /\
  Js.nullish (Js.member apiData "author") = false /\
  videoData = mkVideoData (Js.member (Js.member apiData "author") "username")
                (Js.member apiData "id") (Js.member apiData "createTime")
                (Js.element (Js.member (Js.member apiData "video") "playAddr") 0)
                JUndefined.
Proof.
  unfold videoDataFromApi, Js.getProp, Js.getIndex. cbn [bind ret Monad_Res]. split.
  - destruct (Js.nullish apiData) eqn:N; [discriminate|].
    destruct (Js.strict_neq_str (Js.member apiData "type") "video") eqn:T;
      [discriminate|]. cbn [orb].
    unfold Js.getPropOpt.
    destruct (Js.nullish (Js.member apiData "video")) eqn:V; [discriminate|].
    destruct (Js.truthy (Js.member (Js.member apiData "video") "playAddr")) eqn:P;
      [|discriminate]. cbn [negb].
    destruct (Js.nullish (Js.member apiData "author")); [discriminate|].
    rewrite (truthy_not_nullish _ P).
    intros H. injection H as <-. apply strict_neq_str_false in T. auto.
  - intros (T & P & A & ->).
    assert (N : Js.nullish apiData = false).
    { eapply member_not_nullish; [exact T | discriminate]. }
    assert (V : Js.nullish (Js.member apiData "video") = false).
    { destruct (Js.member apiData "video"); try reflexivity; discriminate P. }
    rewrite N, T. cbn [Js.strict_neq_str String.eqb Ascii.eqb Bool.eqb negb orb].
    unfold Js.getPropOpt. rewrite V, P, A, (truthy_not_nullish _ P). reflexivity.
Qed.

Lemma videoDataFromApi_iff_witness :
  videoDataFromApi (video_result (JStr "ab") (JStr "123")
                      (JArr [JStr "https://v.example/1.mp4"; JStr "https://v.example/2.mp4"]))
  = Ok sample_video.
Proof.
  apply (proj2 (videoDataFromApi_iff _ sample_video)). repeat split.
Defined.

(* ------------------------------------------------------------------ *)
(** ** Further properties: what a download leaves on disk *)

Lemma has_dir_cons d ds st io c sp : has_dir d (mkState st (d :: ds) io c sp) = true.
Proof. unfold has_dir. cbn. now rewrite String.eqb_refl. Qed.

Lemma has_dir_mkdir d d' st ds io io' c sp :
  has_dir d' (mkState st ds io c sp) = true -> has_dir d' (mkState st (d :: ds) io' c sp) = true.
Proof. unfold has_dir. cbn. intros ->. apply orb_true_r. Qed.

(** X9. [ensureDirectoryExists] is idempotent: when it returns, the
    directory exists, every directory that existed still does, a second
    call does nothing, and the directory was created only if it was
    missing; when it throws, it is [mkdirSync] that failed on a missing
    directory, and nothing has changed. *)
Theorem ensureDirectoryExists_is_idempotent (w : World) (dirPath : string) (s : State) :
  let s1 := snd (ensureDirectoryExists w dirPath s) in
  match fst (ensureDirectoryExists w dirPath s) with
  | Ok _ =>
      has_dir dirPath s1 = true /\
      ensureDirectoryExists w dirPath s1 = (Ok tt, s1) /\
      (forall d, has_dir d s = true -> has_dir d s1 = true) /\
      (has_dir dirPath s = true -> s1 = s) /\
      (has_dir dirPath s = false -> new_io s s1 = [EvMkdir dirPath])
  | Throw e =>
      s1 = s /\ has_dir dirPath s = false /\ mkdirSync_error w dirPath = Some e
  end.
Proof.
  cbv zeta. unfold ensureDirectoryExists, mkdirSync.
  destruct (has_dir dirPath s) eqn:D; cbn [fst snd].
  - rewrite D. repeat split; auto. discriminate.
  - destruct (mkdirSync_error w dirPath) as [e|]; cbn [fst snd]; [repeat split|].
    destruct s as [st ds l c sp]. cbn [downloadStats dirs io calls spinner].
    rewrite has_dir_cons. split; [reflexivity|]. split; [reflexivity|]. split; [|split].
    + intros d. apply has_dir_mkdir.
    + discriminate.
    + intros _. now apply new_io_app.
Qed.

Lemma downloadVideo_run (w : World) (videoData : VideoData) (url : string) (s : State) :
  let rq := fileRequest (videoUrl videoData) url in
  let file := path_join VIDEO_DIR (videoFileName w videoData) in
  let made := if has_dir VIDEO_DIR s then [] else [EvMkdir VIDEO_DIR] in
  match downloadVideo w videoData url s with
  | (Ok fileName, s') =>
      exists payload,
        http w (calls s) rq = Ok payload /\
        writeFileSync_error w file payload = None /\
        fileName = videoFileName w videoData /\
        io s' = (io s ++ EvRequest rq :: made ++ [EvWrite file payload])%list /\
        has_dir VIDEO_DIR s' = true /\ calls s' = S (calls s)
  | (Throw e, s') =>
      calls s' = S (calls s) /\
      ((http w (calls s) rq = Throw e /\ io s' = (io s ++ [EvRequest rq])%list)
       \/ (has_dir VIDEO_DIR s = false /\ mkdirSync_error w VIDEO_DIR = Some e /\
           io s' = (io s ++ [EvRequest rq])%list)
       \/ (exists payload,
              http w (calls s) rq = Ok payload /\
              writeFileSync_error w file payload = Some e /\
              io s' = (io s ++ EvRequest rq :: made)%list))
  end.
Proof.
  intros rq file made. subst rq file made.
  unfold downloadVideo, downloadFile, try_catch, ensureDirectoryExists, mkdirSync, writeFileSync.
  run.
  destruct (http w (calls s) (fileRequest (videoUrl videoData) url)) as [payload|e]; run.
  2:{ split; [reflexivity|]. left. split; reflexivity. }
  change (has_dir VIDEO_DIR (requested (fileRequest (videoUrl videoData) url) s))
    with (has_dir VIDEO_DIR s).
  destruct (has_dir VIDEO_DIR s) eqn:D; cbv beta iota.
  - destruct (writeFileSync_error w _ payload) as [e|] eqn:Wr; run.
    + split; [reflexivity|]. right. right. exists payload.
      split; [reflexivity|]. split; [exact Wr | reflexivity].
    + exists payload. split; [reflexivity|]. split; [exact Wr|]. split; [reflexivity|].
      split; [|split; [exact D | reflexivity]].
      cbn [io log_io requested]. now rewrite <- app_assoc.
  - destruct (mkdirSync_error w VIDEO_DIR) as [e|] eqn:Mk; run.
    + split; [reflexivity|]. right. left. repeat split.
    + destruct (writeFileSync_error w _ payload) as [e|] eqn:Wr; run.
      * split; [reflexivity|]. right. right. exists payload.
        split; [reflexivity|]. split; [exact Wr|].
        cbn [io requested]. now rewrite <- app_assoc.
      * exists payload. split; [reflexivity|]. split; [exact Wr|]. split; [reflexivity|].
        split; [|split; [apply has_dir_cons | reflexivity]].
        cbn [io log_io requested]. now rewrite <- !app_assoc.
Qed.

(** X10. [downloadVideo] makes exactly one request, the fetch of the
    playback URL, before anything else. When it returns, the one file
    written is the fetched payload under the name of the descriptor; when it
    throws, no file has been written. *)
Theorem video_outcome_matches_disk (w : World) (videoData : VideoData) (url : string)
    (s : State) :
  let rq := fileRequest (videoUrl videoData) url in
  let file := path_join VIDEO_DIR (videoFileName w videoData) in
  let s' := snd (downloadVideo w videoData url s) in
  filter is_request (new_io s s') = [EvRequest rq] /\
  hd_error (new_io s s') = Some (EvRequest rq) /\
  match fst (downloadVideo w videoData url s) with
  | Ok fileName =>
      fileName = videoFileName w videoData /\
      exists payload,
        http w (calls s) rq = Ok payload /\
        filter is_write (new_io s s') = [EvWrite file payload]
  | Throw e => filter is_write (new_io s s') = []
  end.
Proof.
  intros rq file s'. subst rq file s'.
  pose proof (downloadVideo_run w videoData url s) as H. cbv zeta in H.
  destruct (downloadVideo w videoData url s) as [[name|e] s1]; cbn [fst snd].
  - destruct H as (payload & Hf & _ & -> & E & _).
    rewrite (new_io_app _ _ _ E).
    split; [now destruct (has_dir VIDEO_DIR s)|]. split; [reflexivity|].
    split; [reflexivity|]. exists payload. split; [exact Hf|].
    now destruct (has_dir VIDEO_DIR s).
  - destruct H as (_ & [(_ & E) | [(_ & _ & E) | (payload & _ & _ & E)]]);
      rewrite (new_io_app _ _ _ E); repeat split;
      now destruct (has_dir VIDEO_DIR s).
Qed.

(** X11. Downloading the same descriptor twice writes the same path twice,
    creates the directory at most once, and appends two equal records: the
    file is overwritten and the ledger is not deduplicated. *)
Theorem repeated_download_overwrites (w : World) (videoData : VideoData) (url : string)
    (s s1 s2 : State) (name1 name2 : string) :
  downloadVideo w videoData url s = (Ok name1, s1) ->
  downloadVideo w videoData url s1 = (Ok name2, s2) ->
  let file := path_join VIDEO_DIR (videoFileName w videoData) in
  let record := DownloadStat.mk "Video" (videoId videoData) (authorUniqueId videoData)
                  Success "MP4 Saved" in
  name1 = name2 /\
  (exists payload1 payload2,
      filter is_write (new_io s s2) = [EvWrite file payload1; EvWrite file payload2] /\
      new_io s1 s2 = [EvRequest (fileRequest (videoUrl videoData) url);
                      EvWrite file payload2]) /\
  downloadStats s2 = (downloadStats s ++ [record; record])%list.
Proof.
  intros H1 H2 file record. subst file record.
  pose proof (downloadVideo_run w videoData url s) as R1.
  pose proof (downloadVideo_run w videoData url s1) as R2.
  pose proof (downloadVideo_ledger w videoData url s) as L1.
  pose proof (downloadVideo_ledger w videoData url s1) as L2.
  cbv zeta in R1, R2. rewrite H1 in R1, L1. rewrite H2 in R2, L2.
  destruct R1 as (p1 & _ & _ & -> & E1 & D1 & _).
  destruct R2 as (p2 & F2 & _ & -> & E2 & _ & _).
  rewrite D1 in E2. cbn [app] in E2.
  destruct L1 as (_ & L1). destruct L2 as (_ & L2).
  split; [reflexivity|]. split.
  - exists p1, p2. split; [|now apply new_io_app].
    erewrite new_io_app.
    2:{ rewrite E2, E1, <- app_assoc. reflexivity. }
    now destruct (has_dir VIDEO_DIR s).
  - rewrite L2, L1, <- app_assoc. reflexivity.
Qed.

Lemma repeated_download_overwrites_witness :
  let w := world_serving [Ok (JStr "first"); Ok (JStr "second")] in
  let s1 := snd (downloadVideo w sample_video video_url state_empty) in
  let s2 := snd (downloadVideo w sample_video video_url s1) in
  let record := DownloadStat.mk "Video" (JStr "123") (JStr "ab") Success "MP4 Saved" in
  (exists payload1 payload2,
      filter is_write (new_io state_empty s2)
      = [EvWrite (VIDEO_DIR, "ab_vid_05032024_123.mp4") payload1;
         EvWrite (VIDEO_DIR, "ab_vid_05032024_123.mp4") payload2]) /\
  downloadStats s2 = [record; record].
Proof.
  intros w s1 s2 record.
  destruct (repeated_download_overwrites w sample_video video_url state_empty s1 s2
              "ab_vid_05032024_123.mp4" "ab_vid_05032024_123.mp4" eq_refl eq_refl)
    as (_ & (p1 & p2 & W & _) & L).
  split; [exists p1, p2; exact W | exact L].
Defined.

Lemma getIndex_nth urls j :
  Js.getIndex (JArr urls) (Z.of_nat j) = Ok (nth j urls JUndefined).
Proof.
  unfold Js.getIndex. cbn [Js.nullish Js.element].
  destruct (Z.ltb_spec (Z.of_nat j) 0); [lia|]. now rewrite Nat2Z.id.
Qed.

Lemma imageLoop_all_served (w : World) (url : string) (imageId timestamp authorId : JsVal)
    (urls : list JsVal) (payload : nat -> JsVal) (k : nat) :
  forall (i : nat) (cnt : Z) (s : State),
    (forall j, (j < k)%nat ->
       http w (calls s + j) (fileRequest (nth (i + j) urls JUndefined) url)
       = Ok (payload (i + j)%nat)) ->
    (forall j, (j < k)%nat ->
       writeFileSync_error w (image_file w authorId timestamp imageId (i + j))
         (payload (i + j)%nat) = None) ->
    exists s',
      imageLoop w url imageId (JArr urls) timestamp authorId k (Z.of_nat i) cnt s
      = (Ok (cnt + Z.of_nat k), s') /\
      io s' = (io s ++ flat_map (image_events w url authorId timestamp imageId urls payload)
                         (seq i k))%list /\
      calls s' = (calls s + k)%nat /\
      downloadStats s' = downloadStats s.
Proof.
  induction k as [|k IH]; intros i cnt s Hhttp Hwrite.
  - exists s. cbn. rewrite app_nil_r, Z.add_0_r, Nat.add_0_r. auto.
  - cbn [imageLoop]. rewrite bind_run. unfold downloadImage, writeFileSync.
    run. change (Js.getProp (JArr urls) "length") with (Ok (JNum (Z.of_nat (List.length urls)))).
    run. rewrite getIndex_nth. run. cbn [calls shown].
    pose proof (Hhttp 0%nat ltac:(lia)) as H0. rewrite !Nat.add_0_r in H0. rewrite H0. run.
    pose proof (Hwrite 0%nat ltac:(lia)) as W0. rewrite Nat.add_0_r in W0.
    unfold image_file, path_join in W0. unfold path_join. rewrite W0. run.
    replace (Z.of_nat i + 1) with (Z.of_nat (S i)) by lia.
    match goal with |- context [imageLoop _ _ _ _ _ _ k _ _ ?s1] =>
      destruct (IH (S i) (cnt + 1) s1) as (s' & E & Eio & Ecalls & Estats) end.
    + intros j Hj. cbn [calls log_io requested shown].
      replace (S (calls s) + j)%nat with (calls s + S j)%nat by lia.
      replace (S i + j)%nat with (i + S j)%nat by lia. apply Hhttp. lia.
    + intros j Hj. replace (S i + j)%nat with (i + S j)%nat by lia. apply Hwrite. lia.
    + exists s'. rewrite E. split; [f_equal; f_equal; lia|].
      cbn [calls io downloadStats log_io requested shown] in *.
      rewrite Eio, Ecalls, Estats. split; [|split; [lia | reflexivity]].
      cbn [seq flat_map image_events app]. rewrite <- !app_assoc. reflexivity.
Qed.

Lemma filter_write_image_events w url authorId timestamp imageId urls payload l :
  filter is_write (flat_map (image_events w url authorId timestamp imageId urls payload) l)
  = map (fun j => EvWrite (image_file w authorId timestamp imageId j) (payload j)) l.
Proof. induction l as [|j l IH]; [reflexivity|]. cbn. now rewrite IH. Qed.

Lemma filter_request_image_events w url authorId timestamp imageId urls payload l :
  filter is_request (flat_map (image_events w url authorId timestamp imageId urls payload) l)
  = map (fun j => EvRequest (fileRequest (nth j urls JUndefined) url)) l.
Proof. induction l as [|j l IH]; [reflexivity|]. cbn. now rewrite IH. Qed.

Lemma imageLoop_app (w : World) (url : string) (imageId imageUrls timestamp authorId : JsVal)
    (a b : nat) :
  forall (i cnt : Z) (s : State),
    imageLoop w url imageId imageUrls timestamp authorId (a + b) i cnt s =
    match imageLoop w url imageId imageUrls timestamp authorId a i cnt s with
    | (Ok cnt', s1) =>
        imageLoop w url imageId imageUrls timestamp authorId b (i + Z.of_nat a) cnt' s1
    | (Throw e, s1) => (Throw e, s1)
    end.
Proof.
  induction a as [|a IH]; intros i cnt s.
  - cbn. now rewrite Z.add_0_r.
  - cbn [Nat.add imageLoop]. rewrite !bind_run.
    destruct (downloadImage w url imageId imageUrls timestamp authorId i s) as [[[]|e] s1];
      [|reflexivity].
    rewrite IH. replace (i + 1 + Z.of_nat a) with (i + Z.of_nat (S a)) by lia. reflexivity.
Qed.

Lemma loop_count_array w (urls : list JsVal) :
  Js.loop_count (StringToNumber w) (JNum (Z.of_nat (List.length urls))) = List.length urls.
Proof. unfold Js.loop_count. cbn. apply Nat2Z.id. Qed.

(** X12. When every image of the array is served and written,
    [downloadImages] fetches them in the order of the array, writes one file
    per image, numbered from 1 in that order, and records a [Success] whose
    details count them. *)
Theorem every_image_saved_in_order (w : World) (url : string) (s : State)
    (imageId timestamp authorId : JsVal) (urls : list JsVal) (payload : nat -> JsVal) :
  (forall j, (j < List.length urls)%nat ->
     http w (calls s + j) (fileRequest (nth j urls JUndefined) url) = Ok (payload j)) ->
  (forall j, (j < List.length urls)%nat ->
     writeFileSync_error w (image_file w authorId timestamp imageId j) (payload j) = None) ->
  mkdirSync_error w IMAGE_DIR = None ->
  exists s',
    downloadImages w url imageId (JArr urls) timestamp authorId s = (Ok tt, s') /\
    filter is_write (new_io s s')
    = map (fun j => EvWrite (image_file w authorId timestamp imageId j) (payload j))
        (seq 0 (List.length urls)) /\
    filter is_request (new_io s s')
    = map (fun j => EvRequest (fileRequest (nth j urls JUndefined) url))
        (seq 0 (List.length urls)) /\
    downloadStats s'
    = (downloadStats s ++
       [DownloadStat.mk "Photo Slide" imageId authorId Success
          (Js.Number_toString (Z.of_nat (List.length urls)) ++ " Images")])%list.
Proof.
  intros Hhttp Hwrite Hmk.
  unfold downloadImages, try_catch, ensureDirectoryExists, mkdirSync. rewrite bind_run, Hmk.
  set (s0 := if has_dir IMAGE_DIR s then s
             else mkState (downloadStats s) (IMAGE_DIR :: dirs s)
                    (io s ++ [EvMkdir IMAGE_DIR]) (calls s) (spinner s)).
  assert (E0 : (if has_dir IMAGE_DIR s then (Ok tt, s)
                else (Ok tt, mkState (downloadStats s) (IMAGE_DIR :: dirs s)
                               (io s ++ [EvMkdir IMAGE_DIR]) (calls s) (spinner s)))
               = (@Ok unit tt, s0)) by (subst s0; now destruct (has_dir IMAGE_DIR s)).
  rewrite E0. cbv beta iota.
  assert (C0 : calls s0 = calls s) by (subst s0; now destruct (has_dir IMAGE_DIR s)).
  assert (S0 : downloadStats s0 = downloadStats s)
    by (subst s0; now destruct (has_dir IMAGE_DIR s)).
  assert (I0 : exists made, io s0 = (io s ++ made)%list /\ filter is_write made = []
                            /\ filter is_request made = []).
  { subst s0. destruct (has_dir IMAGE_DIR s).
    - exists []. now rewrite app_nil_r.
    - now exists [EvMkdir IMAGE_DIR]. }
  destruct I0 as (made & I0 & Mw & Mr). clearbody s0.
  change (Js.getProp (JArr urls) "length") with (Ok (JNum (Z.of_nat (List.length urls)))).
  run. rewrite loop_count_array.
  destruct (imageLoop_all_served w url imageId timestamp authorId urls payload
              (List.length urls) 0 0 s0) as (s1 & E & Eio & _ & Estats).
  { intros j Hj. rewrite C0. now apply Hhttp. }
  { intros j Hj. now apply Hwrite. }
  change (Z.of_nat 0) with 0 in E. rewrite E. run.
  eexists. split; [reflexivity|].
  assert (N : new_io s (mkState (downloadStats s1 ++
                  [DownloadStat.mk "Photo Slide" imageId authorId Success
                     (Js.Number_toString (0 + Z.of_nat (List.length urls)) ++ " Images")])
                  (dirs s1) (io s1) (calls s1) (spinner s1))
              = (made ++ flat_map (image_events w url authorId timestamp imageId urls payload)
                           (seq 0 (List.length urls)))%list).
  { apply new_io_app. cbn [io]. rewrite Eio, I0, <- app_assoc. reflexivity. }
  rewrite N, !filter_app, Mw, Mr, filter_write_image_events, filter_request_image_events.
  cbn [app downloadStats]. rewrite Estats, S0. repeat split.
Qed.

Lemma every_image_saved_in_order_witness :
  let w := world_serving [Ok (JStr "jpeg 0"); Ok (JStr "jpeg 1"); Ok (JStr "jpeg 2")] in
  exists s',
    downloadImages w photo_url (JStr "77") (JArr sample_images) (JNum 1709596800) (JStr "ab")
      state_empty = (Ok tt, s') /\
    filter is_write (new_io state_empty s')
    = [EvWrite (IMAGE_DIR, "ab_img_05032024_77_1.jpg") (JStr "jpeg 0");
       EvWrite (IMAGE_DIR, "ab_img_05032024_77_2.jpg") (JStr "jpeg 1");
       EvWrite (IMAGE_DIR, "ab_img_05032024_77_3.jpg") (JStr "jpeg 2")].
Proof.
  intros w.
  destruct (every_image_saved_in_order w photo_url state_empty (JStr "77") (JNum 1709596800)
              (JStr "ab") sample_images sample_payload) as (s' & E & W & _).
  all: try solve [ reflexivity | intros j _; reflexivity
                 | intros [|[|[|j]]] Hj; [reflexivity | reflexivity | reflexivity
                                          | cbn in Hj; lia] ].
  exists s'. split; [exact E | exact W].
Defined.

(** X13. When the fetch of the image of index [k] fails after the earlier
    ones were served and written, [downloadImages] rethrows that error: the
    [k] earlier files stay written, in order, the later images are never
    requested, and one [Failed] record carries the message of the error. *)
Theorem image_failure_keeps_earlier_files (w : World) (url : string) (s : State)
    (imageId timestamp authorId : JsVal) (urls : list JsVal) (payload : nat -> JsVal)
    (k : nat) (e : Exn) :
  (k < List.length urls)%nat ->
  (forall j, (j < k)%nat ->
     http w (calls s + j) (fileRequest (nth j urls JUndefined) url) = Ok (payload j)) ->
  http w (calls s + k) (fileRequest (nth k urls JUndefined) url) = Throw e ->
  (forall j, (j < k)%nat ->
     writeFileSync_error w (image_file w authorId timestamp imageId j) (payload j) = None) ->
  mkdirSync_error w IMAGE_DIR = None ->
  exists s',
    downloadImages w url imageId (JArr urls) timestamp authorId s = (Throw e, s') /\
    filter is_write (new_io s s')
    = map (fun j => EvWrite (image_file w authorId timestamp imageId j) (payload j))
        (seq 0 k) /\
    filter is_request (new_io s s')
    = map (fun j => EvRequest (fileRequest (nth j urls JUndefined) url)) (seq 0 (S k)) /\
    downloadStats s'
    = (downloadStats s ++
       [DownloadStat.mk "Photo" (Js.or_else imageId (JStr "Unknown"))
          (Js.or_else authorId (JStr "Unknown")) Failed (exn_message e)])%list.
Proof.
  intros Hk Hhttp Hfail Hwrite Hmk.
  unfold downloadImages, try_catch, ensureDirectoryExists, mkdirSync. rewrite bind_run, Hmk.
  set (s0 := if has_dir IMAGE_DIR s then s
             else mkState (downloadStats s) (IMAGE_DIR :: dirs s)
                    (io s ++ [EvMkdir IMAGE_DIR]) (calls s) (spinner s)).
  assert (E0 : (if has_dir IMAGE_DIR s then (Ok tt, s)
                else (Ok tt, mkState (downloadStats s) (IMAGE_DIR :: dirs s)
                               (io s ++ [EvMkdir IMAGE_DIR]) (calls s) (spinner s)))
               = (@Ok unit tt, s0)) by (subst s0; now destruct (has_dir IMAGE_DIR s)).
  rewrite E0. cbv beta iota.
  assert (C0 : calls s0 = calls s) by (subst s0; now destruct (has_dir IMAGE_DIR s)).
  assert (S0 : downloadStats s0 = downloadStats s)
    by (subst s0; now destruct (has_dir IMAGE_DIR s)).
  assert (I0 : exists made, io s0 = (io s ++ made)%list /\ filter is_write made = []
                            /\ filter is_request made = []).
  { subst s0. destruct (has_dir IMAGE_DIR s).
    - exists []. now rewrite app_nil_r.
    - now exists [EvMkdir IMAGE_DIR]. }
  destruct I0 as (made & I0 & Mw & Mr). clearbody s0.
  change (Js.getProp (JArr urls) "length") with (Ok (JNum (Z.of_nat (List.length urls)))).
  run. rewrite loop_count_array.
  match goal with |- context [imageLoop ?a ?b ?c ?d ?e ?f (List.length urls) ?i ?n ?st] =>
    replace (imageLoop a b c d e f (List.length urls) i n st)
      with (imageLoop a b c d e f (k + S (List.length urls - S k)) i n st)
      by (f_equal; lia) end.
  rewrite imageLoop_app.
  destruct (imageLoop_all_served w url imageId timestamp authorId urls payload k 0 0 s0)
    as (s1 & E & Eio & Ecalls & Estats).
  { intros j Hj. rewrite C0. now apply Hhttp. }
  { intros j Hj. now apply Hwrite. }
  change (Z.of_nat 0) with 0 in E. rewrite E.
  cbn [imageLoop]. rewrite bind_run. unfold downloadImage. run.
  change (Js.getProp (JArr urls) "length") with (Ok (JNum (Z.of_nat (List.length urls)))).
  run. change (0 + Z.of_nat k) with (Z.of_nat k). rewrite getIndex_nth. run.
  cbn [calls shown]. rewrite Ecalls, C0, Hfail. run.
  eexists. split; [reflexivity|].
  erewrite new_io_app.
  2:{ cbn [io requested shown]. rewrite Eio, I0, <- !app_assoc. reflexivity. }
  rewrite !filter_app, Mw, Mr, filter_write_image_events, filter_request_image_events.
  cbn [app filter is_write is_request downloadStats requested shown].
  rewrite app_nil_r, Estats, S0. split; [reflexivity|]. split; [|reflexivity].
  rewrite seq_S, map_app. reflexivity.
Qed.

Lemma image_failure_keeps_earlier_files_witness :
  let w := world_serving [Ok (JStr "jpeg 0"); Ok (JStr "jpeg 1")] in
  exists s',
    downloadImages w photo_url (JStr "77") (JArr sample_images) (JNum 1709596800) (JStr "ab")
      state_empty = (Throw (Error "Network Error"), s') /\
    filter is_write (new_io state_empty s')
    = [EvWrite (IMAGE_DIR, "ab_img_05032024_77_1.jpg") (JStr "jpeg 0");
       EvWrite (IMAGE_DIR, "ab_img_05032024_77_2.jpg") (JStr "jpeg 1")].
Proof.
  intros w.
  destruct (image_failure_keeps_earlier_files w photo_url state_empty (JStr "77")
              (JNum 1709596800) (JStr "ab") sample_images sample_payload 2
              (Error "Network Error")) as (s' & E & W & _).
  all: try solve [ reflexivity | cbn; lia | intros j _; reflexivity
                 | intros [|[|j]] Hj; [reflexivity | reflexivity | lia] ].
  exists s'. split; [exact E | exact W].
Defined.

Lemma to_int_nonnil n :
  Z.to_int n <> Decimal.Pos Decimal.Nil /\ Z.to_int n <> Decimal.Neg Decimal.Nil.
Proof.
  destruct n as [|p|p]; cbn; split; try discriminate; intros H; injection H as H;
    now apply Unsigned.to_uint_nonnil in H.
Qed.

Lemma Number_toString_inj n m :
  Z.abs n < 9007199254740992 -> Z.abs m < 9007199254740992 ->
  Js.Number_toString n = Js.Number_toString m -> n = m.
Proof.
  unfold Js.Number_toString, Js.decimal. intros Hn Hm.
  apply Z.ltb_lt in Hn, Hm. rewrite Hn, Hm. intros H.
  apply (f_equal NilZero.int_of_string) in H.
  rewrite !NilZero.isi in H by apply to_int_nonnil.
  injection H as H. rewrite <- (DecimalZ.of_to n), <- (DecimalZ.of_to m). now rewrite H.
Qed.

Lemma length_append (a b : string) :
  String.length (a ++ b) = (String.length a + String.length b)%nat.
Proof. induction a; cbn; auto. Qed.

Lemma append_inj_l p a b : p ++ a = p ++ b -> a = b.
Proof. induction p as [|x p IH]; cbn; [auto|]. intros H. injection H as H. auto. Qed.

Lemma append_inj_r c : forall a b, a ++ c = b ++ c -> a = b.
Proof.
  induction a as [|x a IH]; intros [|y b] H; cbn in H.
  - reflexivity.
  - apply (f_equal String.length) in H. cbn in H. rewrite length_append in H. lia.
  - apply (f_equal String.length) in H. cbn in H. rewrite length_append in H. lia.
  - injection H as -> H. f_equal. now apply IH.
Qed.

Lemma imageFileName_inj w authorId timestamp imageId i j :
  0 <= i < 9007199254740991 -> 0 <= j < 9007199254740991 ->
  imageFileName w authorId timestamp imageId i = imageFileName w authorId timestamp imageId j ->
  i = j.
Proof.
  unfold imageFileName. intros Hi Hj H.
  repeat (apply append_inj_l in H).
  apply append_inj_r, Number_toString_inj in H; lia.
Qed.

Lemma NoDup_map_injective {A B : Type} (f : A -> B) (l : list A) :
  (forall x y, In x l -> In y l -> f x = f y -> x = y) -> NoDup l -> NoDup (map f l).
Proof.
  intros Hf H. induction H as [|x l Hx H IH]; cbn; constructor.
  - rewrite in_map_iff. intros (y & E & Hy).
    apply Hf in E; [subst; contradiction | now right | now left].
  - apply IH. intros a b Ha Hb. apply Hf; now right.
Qed.

(** X14. The file name of an image determines its index as long as the
    index is printed with all its digits, that is below 2^53 - 1, which
    the length of an array never reaches: within one photo set no two
    images are written to the same file, whatever the author, the date and
    the id are. The bound is the one of the language: the indices
    2^53 - 1 and 2^53 are printed alike. *)
Theorem images_of_a_set_have_distinct_files (w : World) (authorId timestamp imageId : JsVal) :
  (forall i j : Z,
      0 <= i < 9007199254740991 -> 0 <= j < 9007199254740991 ->
      imageFileName w authorId timestamp imageId i
      = imageFileName w authorId timestamp imageId j -> i = j) /\
  (forall n : nat,
      Z.of_nat n <= 9007199254740991 ->
      NoDup (map (image_file w authorId timestamp imageId) (seq 0 n))) /\
  imageFileName w authorId timestamp imageId 9007199254740991
  = imageFileName w authorId timestamp imageId 9007199254740992.
Proof.
  split; [apply imageFileName_inj|]. split.
  - intros n Hn. apply NoDup_map_injective; [|apply seq_NoDup].
    intros i j Hi Hj H. apply in_seq in Hi, Hj.
    unfold image_file, path_join in H. injection H as H.
    apply imageFileName_inj in H; lia.
  - unfold imageFileName. do 6 f_equal.
Qed.

Lemma images_of_a_set_have_distinct_files_witness :
  NoDup (map (image_file world_offline (JStr "ab") (JNum 1709596800) (JStr "77")) (seq 0 3)).
Proof.
  apply (proj1 (proj2 (images_of_a_set_have_distinct_files world_offline (JStr "ab")
                         (JNum 1709596800) (JStr "77"))) 3%nat).
  cbn. lia.
Defined.

Lemma writes_app a b : writes (a ++ b) = (writes a + writes b)%nat.
Proof. unfold writes. now rewrite filter_app, length_app. Qed.

Lemma requests_app a b : requests (a ++ b) = (requests a + requests b)%nat.
Proof. unfold requests. now rewrite filter_app, length_app. Qed.

Lemma downloadImage_step (w : World) (url : string)
    (imageId imageUrls timestamp authorId : JsVal) (i : Z) (s : State) :
  match downloadImage w url imageId imageUrls timestamp authorId i s with
  | (Ok _, s') => exists l, io s' = (io s ++ l)%list /\ writes l = 1%nat /\ requests l = 1%nat
  | (Throw e, s') => exists l, io s' = (io s ++ l)%list /\ writes l = 0%nat
                               /\ (requests l <= 1)%nat
  end.
Proof.
  unfold downloadImage, writeFileSync. run.
  destruct (Js.getProp imageUrls "length") as [len|e]; run.
  2:{ exists []. rewrite app_nil_r. repeat split. cbn. lia. }
  destruct (Js.getIndex imageUrls i) as [u|e]; run.
  2:{ exists []. cbn [io shown]. rewrite app_nil_r. repeat split. cbn. lia. }
  destruct (http w _ (fileRequest u url)) as [c|e]; run.
  2:{ exists [EvRequest (fileRequest u url)]. repeat split. cbn. lia. }
  destruct (writeFileSync_error w _ c) as [e|]; run.
  - exists [EvRequest (fileRequest u url)]. repeat split. cbn. lia.
  - eexists [EvRequest (fileRequest u url); EvWrite _ c].
    cbn [io log_io requested shown]. rewrite <- app_assoc. repeat split.
Qed.

Lemma imageLoop_counts (w : World) (url : string)
    (imageId imageUrls timestamp authorId : JsVal) (n : nat) :
  forall (i cnt : Z) (s : State),
    match imageLoop w url imageId imageUrls timestamp authorId n i cnt s with
    | (Ok cnt', s') =>
        cnt' = cnt + Z.of_nat n /\
        exists l, io s' = (io s ++ l)%list /\ writes l = n /\ requests l = n
    | (Throw e, s') =>
        exists l, io s' = (io s ++ l)%list /\ (writes l < n)%nat /\
                  (writes l <= requests l <= S (writes l))%nat
    end.
Proof.
  induction n as [|n IH]; intros i cnt s.
  - cbn. split; [lia|]. exists []. now rewrite app_nil_r.
  - cbn [imageLoop]. rewrite bind_run.
    pose proof (downloadImage_step w url imageId imageUrls timestamp authorId i s) as H.
    destruct (downloadImage w url imageId imageUrls timestamp authorId i s) as [[[]|e] s1].
    + destruct H as (l1 & E1 & W1 & R1).
      specialize (IH (i + 1) (cnt + 1) s1).
      destruct (imageLoop w url imageId imageUrls timestamp authorId n (i + 1) (cnt + 1) s1)
        as [[c|e] s2].
      * destruct IH as (-> & l2 & E2 & W2 & R2). split; [lia|].
        exists (l1 ++ l2)%list. rewrite E2, E1, app_assoc, writes_app, requests_app.
        repeat split; lia.
      * destruct IH as (l2 & E2 & W2 & R2).
        exists (l1 ++ l2)%list. rewrite E2, E1, app_assoc, writes_app, requests_app.
        repeat split; lia.
    + destruct H as (l1 & E1 & W1 & R1). exists l1. repeat split; try exact E1; lia.
Qed.

(** X15. Whatever [imageUrls] is, the number in the [Success] record of
    [downloadImages] is the number of files it wrote, each after a fetch of
    its own; and when it throws, at most one fetch was made without a file
    being written for it. *)
Theorem reported_image_count_is_files_written (w : World) (url : string)
    (imageId imageUrls timestamp authorId : JsVal) (s : State) :
  let s' := snd (downloadImages w url imageId imageUrls timestamp authorId s) in
  let saved := writes (new_io s s') in
  match fst (downloadImages w url imageId imageUrls timestamp authorId s) with
  | Ok _ =>
      requests (new_io s s') = saved /\
      downloadStats s'
      = (downloadStats s ++
         [DownloadStat.mk "Photo Slide" imageId authorId Success
            (Js.Number_toString (Z.of_nat saved) ++ " Images")])%list
  | Throw _ => (saved <= requests (new_io s s') <= S saved)%nat
  end.
Proof.
  cbv zeta.
  unfold downloadImages, try_catch, ensureDirectoryExists, mkdirSync. rewrite bind_run.
  assert (H0 : exists r s0 made,
             (if has_dir IMAGE_DIR s then (Ok tt, s)
              else match mkdirSync_error w IMAGE_DIR with
                   | Some e => (Throw e, s)
                   | None => (Ok tt, mkState (downloadStats s) (IMAGE_DIR :: dirs s)
                                       (io s ++ [EvMkdir IMAGE_DIR]) (calls s) (spinner s))
                   end) = (r, s0) /\
             io s0 = (io s ++ made)%list /\ writes made = 0%nat /\ requests made = 0%nat /\
             downloadStats s0 = downloadStats s).
  { destruct (has_dir IMAGE_DIR s).
    - exists (Ok tt), s, []. rewrite app_nil_r. repeat split.
    - destruct (mkdirSync_error w IMAGE_DIR) as [e|].
      + exists (Throw e), s, []. rewrite app_nil_r. repeat split.
      + eexists (Ok tt), _, [EvMkdir IMAGE_DIR]. repeat split. }
  destruct H0 as (r & s0 & made & -> & I0 & W0 & R0 & S0).
  destruct r as [[]|e]; cbv beta iota; run.
  2:{ cbn [fst snd]. erewrite new_io_app; [|cbn [io]; exact I0]. rewrite W0, R0. lia. }
  destruct (Js.getProp imageUrls "length") as [len|e]; run.
  2:{ cbn [fst snd]. erewrite new_io_app; [|cbn [io]; exact I0]. rewrite W0, R0. lia. }
  pose proof (imageLoop_counts w url imageId imageUrls timestamp authorId
                (Js.loop_count (StringToNumber w) len) 0 0 s0) as H.
  pose proof (stats_imageLoop w url imageId imageUrls timestamp authorId
                (Js.loop_count (StringToNumber w) len) 0 0 s0) as St.
  unfold same_stats in St.
  destruct (imageLoop w url imageId imageUrls timestamp authorId
              (Js.loop_count (StringToNumber w) len) 0 0 s0) as [[c|e] s1]; run;
    cbn [fst snd] in *.
  - destruct H as (-> & l & E & W & R).
    erewrite new_io_app; [|cbn [io]; rewrite E, I0, <- app_assoc; reflexivity].
    rewrite writes_app, requests_app, W0, R0, W, R. cbn [Nat.add downloadStats].
    rewrite St, S0. split; reflexivity.
  - destruct H as (l & E & W & R).
    erewrite new_io_app; [|cbn [io]; rewrite E, I0, <- app_assoc; reflexivity].
    rewrite writes_app, requests_app, W0, R0. lia.
Qed.

(* ------------------------------------------------------------------ *)
(** ** Further properties: the video branch and the session *)

Lemma videoBranch_resolved (w : World) (url : string) (s s1 : State)
    (videoData : VideoData) (method : string) :
  videoResolution w url s = (Ok (videoData, method), s1) ->
  videoBranch w url s =
  match downloadVideo w videoData url
          (shown (SpText ("Downloading video (" ++ method ++ ")...")) s1) with
  | (Ok _, s2) => (Ok tt, shown (SpSucceed "Video downloaded successfully!") s2)
  | (Throw e, s2) => (Throw e, s2)
  end.
Proof.
  intros H. unfold videoBranch. rewrite bind_run, H. cbv beta iota. cbn [fst snd].
  rewrite bind_run, log_spinner_run. cbv beta iota. rewrite bind_run.
  now destruct (downloadVideo w videoData url _) as [[name|e] s2].
Qed.

Lemma videoBranch_unresolved (w : World) (url : string) (s s1 : State) (e : Exn) :
  videoResolution w url s = (Throw e, s1) -> videoBranch w url s = (Throw e, s1).
Proof. intros H. unfold videoBranch. now rewrite bind_run, H. Qed.

Lemma videoResolution_io (w : World) (url : string) (s : State) :
  let s1 := snd (videoResolution w url s) in
  calls s1 = (calls s + match markupResult w url (calls s) with Some _ => 1 | None => 2 end)%nat
  /\ dirs s1 = dirs s /\
  io s1 = (io s ++ EvRequest (pageRequest url)
                :: match markupResult w url (calls s) with
                   | Some _ => []
                   | None => [EvRequest (apiRequest url)]
                   end)%list.
Proof.
  cbv zeta. rewrite videoResolution_run. cbv zeta.
  destruct (markupResult w url (calls s)); cbn [snd calls dirs io requested shown].
  - repeat split. lia.
  - rewrite <- app_assoc. repeat split. lia.
Qed.

(** X16. Processing a video URL makes at least one and at most three
    requests (the page, the backup API, the file), writes at most one file,
    and creates no directory other than the video directory. Where the file
    ends up is not stated: [path.join] normalises the name, which holds the
    author and the id as they were received. *)
Theorem video_url_io_is_bounded (w : World) (url : string) (s : State) :
  validateURL url = true ->
  Str.includes "/photo/" url = false ->
  let l := new_io s (snd (processUrl w url s)) in
  (1 <= requests l <= 3)%nat /\ (writes l <= 1)%nat /\ Forall (creates_only VIDEO_DIR) l.
Proof.
  intros Hvalid Hvideo l. subst l.
  pose proof (videoResolution_io w url (started s)) as (_ & _ & Eio).
  cbn [calls io started shown] in Eio.
  set (front := (EvRequest (pageRequest url)
                 :: match markupResult w url (calls s) with
                    | Some _ => []
                    | None => [EvRequest (apiRequest url)]
                    end)%list) in *.
  assert (Hfront : (1 <= requests front <= 2)%nat /\ writes front = 0%nat
                   /\ Forall (creates_only VIDEO_DIR) front).
  { subst front. destruct (markupResult w url (calls s)); cbn; repeat split;
      repeat constructor. }
  destruct Hfront as (Rf & Wf & Ff).
  assert (Hio : exists tail,
             io (snd (processUrl w url s)) = (io s ++ front ++ tail)%list /\
             (requests tail <= 1)%nat /\ (writes tail <= 1)%nat /\ Forall (creates_only VIDEO_DIR) tail).
  { rewrite processUrl_io, (processUrl_body_video w url Hvalid Hvideo).
    destruct (videoResolution w url (started s)) as [[[vd method]|e] s1] eqn:R;
      cbn [snd] in Eio.
    - rewrite (videoBranch_resolved w url _ _ _ _ R).
      pose proof (downloadVideo_run w vd url
                    (shown (SpText ("Downloading video (" ++ method ++ ")...")) s1)) as D.
      cbv zeta in D.
      change (has_dir VIDEO_DIR (shown (SpText ("Downloading video (" ++ method ++ ")...")) s1))
        with (has_dir VIDEO_DIR s1) in D.
      destruct (downloadVideo w vd url _) as [[name|e] s2]; cbn [snd io shown] in *.
      + destruct D as (payload & _ & _ & _ & E & _). eexists. rewrite E, Eio, <- app_assoc.
        split; [reflexivity|].
        destruct (has_dir VIDEO_DIR s1); cbn; repeat split; try lia; repeat constructor.
      + destruct D as (_ & [(_ & E) | [(_ & _ & E) | (payload & _ & _ & E)]]);
          eexists; rewrite E, Eio, <- app_assoc; (split; [reflexivity|]);
          try destruct (has_dir VIDEO_DIR s1); cbn; repeat split; try lia;
          repeat constructor.
    - rewrite (videoBranch_unresolved w url _ _ _ R). exists []. cbn [snd].
      rewrite Eio, app_nil_r. repeat split; try (cbn; lia). constructor. }
  destruct Hio as (tail & E & Rt & Wt & Ft).
  rewrite (new_io_app _ _ _ E), requests_app, writes_app.
  repeat split; try lia. now apply Forall_app.
Qed.

Lemma video_url_io_is_bounded_witness :
  let l := new_io state_empty (snd (processUrl world_markup_ok video_url state_empty)) in
  (1 <= requests l <= 3)%nat /\ (writes l <= 1)%nat /\ Forall (creates_only VIDEO_DIR) l.
Proof.
  apply (video_url_io_is_bounded world_markup_ok video_url state_empty); reflexivity.
Defined.

(** X17. When resolution of a video URL yields a descriptor, by either
    strategy, and the file is fetched and written, [processUrl] writes that
    one file, appends one [Success] record with the id and author of the
    descriptor, and reports success. *)
Theorem resolved_video_is_saved (w : World) (url : string) (s s1 : State)
    (videoData : VideoData) (method : string) (payload : JsVal) :
  validateURL url = true ->
  Str.includes "/photo/" url = false ->
  videoResolution w url (started s) = (Ok (videoData, method), s1) ->
  http w (calls s1) (fileRequest (videoUrl videoData) url) = Ok payload ->
  mkdirSync_error w VIDEO_DIR = None ->
  writeFileSync_error w (path_join VIDEO_DIR (videoFileName w videoData)) payload = None ->
  exists s',
    processUrl w url s = (Ok tt, s') /\
    filter is_write (new_io s s')
    = [EvWrite (path_join VIDEO_DIR (videoFileName w videoData)) payload] /\
    downloadStats s'
    = (downloadStats s ++
       [DownloadStat.mk "Video" (videoId videoData) (authorUniqueId videoData) Success
          "MP4 Saved"])%list /\
    last_shown s' = SpSucceed "Video downloaded successfully!".
Proof.
  intros Hvalid Hvideo R Hhttp Hmk Hwr.
  pose proof (videoResolution_io w url (started s)) as (_ & _ & Eio).
  pose proof (stats_videoResolution w url (started s)) as St. unfold same_stats in St.
  rewrite R in Eio, St. cbn [snd io started shown downloadStats] in Eio, St.
  unfold processUrl. rewrite bind_run, log_spinner_run. cbv beta iota. unfold try_catch.
  fold (started s). rewrite (processUrl_body_video w url Hvalid Hvideo).
  rewrite (videoBranch_resolved w url _ _ _ _ R).
  set (s2 := shown (SpText ("Downloading video (" ++ method ++ ")...")) s1).
  pose proof (downloadVideo_run w videoData url s2) as D.
  pose proof (downloadVideo_ledger w videoData url s2) as L.
  cbv zeta in D. change (calls s2) with (calls s1) in D.
  destruct (downloadVideo w videoData url s2) as [[name|e] s3].
  - destruct D as (p & Hp & _ & _ & E & _). destruct L as (_ & L).
    rewrite Hhttp in Hp. injection Hp as <-.
    eexists. split; [reflexivity|]. split; [|split].
    + erewrite new_io_app.
      2:{ cbn [io shown]. rewrite E. subst s2. cbn [io shown]. rewrite Eio, <- app_assoc.
          reflexivity. }
      destruct (markupResult w url _); destruct (has_dir VIDEO_DIR _); reflexivity.
    + cbn [downloadStats shown]. rewrite L. subst s2. cbn [downloadStats shown].
      now rewrite St.
    + unfold last_shown. cbn [spinner shown]. apply last_last.
  - exfalso. destruct D as (_ & [(Hp & _) | [(_ & Hm & _) | (p & Hp & Hw & _)]]).
    + congruence.
    + congruence.
    + rewrite Hhttp in Hp. injection Hp as <-. congruence.
Qed.

Lemma resolved_video_is_saved_witness :
  let w := world_api_only (video_result (JStr "ab") (JStr "123")
                             (JArr [JStr "https://v.example/1.mp4"])) in
  exists s',
    processUrl w video_url state_empty = (Ok tt, s') /\
    filter is_write (new_io state_empty s')
    = [EvWrite (VIDEO_DIR, "ab_vid_05032024_123.mp4") (JStr "mp4 bytes")] /\
    downloadStats s' = [DownloadStat.mk "Video" (JStr "123") (JStr "ab") Success "MP4 Saved"].
Proof.
  intros w.
  destruct (resolved_video_is_saved w video_url state_empty
              (snd (videoResolution w video_url (started state_empty)))
              sample_video "API" (JStr "mp4 bytes"))
    as (s' & E & W & L & _); try reflexivity.
  exists s'. split; [exact E|]. split; [exact W | exact L].
Defined.

Lemma processUrl_ledger_bound (w : World) (url : string) (s : State) :
  exists l,
    downloadStats (snd (processUrl w url s)) = (downloadStats s ++ l)%list /\
    (List.length l <= 1)%nat.
Proof.
  unfold processUrl. rewrite bind_run, log_spinner_run. cbv beta iota. unfold try_catch.
  fold (started s). unfold processUrl_body.
  assert (Hb : forall resolved p,
             branch_outcome resolved (started s) p ->
             exists l,
               downloadStats
                 (snd (let (r, s1) := p in
                       match r with
                       | Ok a => (Ok a, s1)
                       | Throw e => log_spinner (SpFail ("Error: " ++ exn_message e)) s1
                       end)) = (downloadStats s ++ l)%list /\ (List.length l <= 1)%nat).
  { intros resolved [[[]|e] s1] H; unfold branch_outcome in H; destruct resolved;
      cbn [snd log_spinner downloadStats].
    - destruct H as (rec & H & _). exists [rec]. split; [exact H | cbn; lia].
    - destruct H as (H & _). exists []. rewrite app_nil_r. split; [exact H | cbn; lia].
    - destruct H as (rec & H & _). exists [rec]. split; [exact H | cbn; lia].
    - destruct H as (H & _). exists []. rewrite app_nil_r. split; [exact H | cbn; lia]. }
  destruct (validateURL url); cbn [negb].
  - destruct (Str.includes "/photo/" url).
    + apply (Hb _ _ (photoBranch_ledger w url (started s))).
    + apply (Hb _ _ (videoBranch_ledger w url (started s))).
  - exists []. cbn. rewrite app_nil_r. split; [reflexivity | lia].
Qed.

(** X18. Over a session the ledger only grows, by at most one record per
    answer of the prompt; and the loop stops at the first answer that
    declines to go on: the URLs after it are never processed. *)
Theorem session_ledger_is_append_only (w : World) (answers : list (string * bool))
    (s : State) :
  (exists l,
      downloadStats (snd (mainLoop w answers s)) = (downloadStats s ++ l)%list /\
      (List.length l <= List.length answers)%nat) /\
  (forall before url after,
      answers = (before ++ (url, false) :: after)%list ->
      Forall (fun answer => snd answer = true) before ->
      mainLoop w answers s = mainLoop w (before ++ [(url, false)]) s).
Proof.
  split.
  - revert s. induction answers as [|[url again] rest IH]; intros s.
    + exists []. cbn. now rewrite app_nil_r.
    + cbn [mainLoop]. rewrite bind_run.
      pose proof (processUrl_returns w (Str.trim url) s) as Hr.
      destruct (processUrl_ledger_bound w (Str.trim url) s) as (l1 & E1 & B1).
      destruct (processUrl w (Str.trim url) s) as [r s1]. cbn [fst snd] in *. subst r.
      destruct again.
      * destruct (IH s1) as (l2 & E2 & B2). exists (l1 ++ l2)%list.
        rewrite E2, E1, app_assoc, length_app. split; [reflexivity | cbn; lia].
      * exists l1. cbn [snd]. split; [exact E1 | cbn; lia].
  - intros before url after -> Hall. revert s.
    induction before as [|[u again] before IH]; intros s.
    + cbn [app mainLoop]. rewrite !bind_run.
      now destruct (processUrl w (Str.trim url) s) as [[[]|e] s1].
    + inversion Hall as [|? ? Hagain Hrest]; subst. cbn [snd] in Hagain. subst again.
      cbn [app mainLoop]. rewrite !bind_run.
      destruct (processUrl w (Str.trim u) s) as [[[]|e] s1]; [|reflexivity].
      apply IH. exact Hrest.
Qed.

Lemma session_ledger_is_append_only_witness :
  mainLoop world_markup_ok [(video_url, true); ("x", false); (video_url, true)] state_empty
  = mainLoop world_markup_ok [(video_url, true); ("x", false)] state_empty.
Proof.
  apply (proj2 (session_ledger_is_append_only world_markup_ok
                  [(video_url, true); ("x", false); (video_url, true)] state_empty)
           [(video_url, true)] "x" [(video_url, true)] eq_refl).
  repeat constructor.
Defined.

Lemma trimStart_spaces ws s :
  Str.forallb Str.is_space ws = true -> Str.trimStart (ws ++ s) = Str.trimStart s.
Proof.
  induction ws as [|a ws IH]; [reflexivity|]. cbn. intros H.
  apply andb_prop in H. destruct H as (Ha & Hws). rewrite Ha. now apply IH.
Qed.

Lemma trimEnd_spaces ws : Str.forallb Str.is_space ws = true -> Str.trimEnd ws = "".
Proof.
  induction ws as [|a ws IH]; [reflexivity|]. cbn. intros H.
  apply andb_prop in H. destruct H as (Ha & Hws). now rewrite IH, Ha.
Qed.

Lemma trimEnd_app_spaces body c ws :
  Str.is_space c = false -> Str.forallb Str.is_space ws = true ->
  Str.trimEnd ((body ++ String c "") ++ ws) = body ++ String c "".
Proof.
  intros Hc Hws. induction body as [|a body IH]; cbn.
  - now rewrite (trimEnd_spaces ws Hws), Hc.
  - cbn in IH. rewrite IH. now destruct body.
Qed.

(** X19. [main] trims what was typed: a URL entered with white space or
    line breaks around it is processed exactly like the URL itself. *)
Theorem surrounding_white_space_is_ignored (w : World) (lead trail body : string)
    (first last : ascii) (again : bool) (rest : list (string * bool)) (s : State) :
  Str.forallb Str.is_space lead = true ->
  Str.forallb Str.is_space trail = true ->
  Str.is_space first = false ->
  Str.is_space last = false ->
  let url := String first (body ++ String last "") in
  Str.trim (lead ++ url ++ trail) = url /\
  mainLoop w ((lead ++ url ++ trail, again) :: rest) s = mainLoop w ((url, again) :: rest) s.
Proof.
  intros Hlead Htrail Hfirst Hlast url.
  assert (T : forall ws ws', Str.forallb Str.is_space ws = true ->
                             Str.forallb Str.is_space ws' = true ->
                             Str.trim (ws ++ url ++ ws') = url).
  { intros ws ws' Hws Hws'. unfold Str.trim. rewrite (trimStart_spaces ws _ Hws).
    subst url. cbn [append Str.trimStart]. rewrite Hfirst.
    change (String first ((body ++ String last "") ++ ws'))
      with ((String first body ++ String last "") ++ ws').
    now rewrite trimEnd_app_spaces. }
  split; [now apply T|].
  cbn [mainLoop]. rewrite (T lead trail Hlead Htrail).
  replace (Str.trim url) with url; [reflexivity|].
  symmetry. replace url with ("" ++ url ++ "") at 1.
  - now apply T.
  - subst url. cbn. now rewrite append_nil_r.
Qed.

Lemma surrounding_white_space_is_ignored_witness :
  Str.trim ("  https://vt.tiktok.com/ABCDEF/" ++ String (ascii_of_nat 10) "")
  = "https://vt.tiktok.com/ABCDEF/".
Proof.
  exact (proj1 (surrounding_white_space_is_ignored world_offline "  "
                  (String (ascii_of_nat 10) "") "ttps://vt.tiktok.com/ABCDEF"
                  "h"%char "/"%char true [] state_empty
                  eq_refl eq_refl eq_refl eq_refl)).
Defined.

(* ------------------------------------------------------------------ *)
(** ** Further properties: the YouTube service *)

Section YouTubeFacts.
Import YouTubeService.

Ltac yt_unfold :=
  unfold downloadMp4, getVideoInfo, catch, raise, call, library;
  cbn [bind ret Monad_Y].

Lemma getVideoInfo_Return (lib : Library) (url : string) (log : list Call)
    (info : videoInfo) :
  fst (getVideoInfo lib url log) = Return info ->
  validateUrl lib url = true /\ ytdl_getInfo lib url = Ok info.
Proof.
  yt_unfold. destruct (validateUrl lib url); cbn [negb]; [|discriminate].
  destruct (ytdl_getInfo lib url) as [i|e]; cbn; [|discriminate].
  destruct (isPrivate (videoDetails i)); cbn; [discriminate|].
  destruct (age_restricted (videoDetails i)); cbn; intros H; injection H as ->; auto.
Qed.

(** X20. [getVideoInfo] returns the metadata exactly when the URL is
    accepted, [ytdl.getInfo] succeeds and the video is not private; whether
    the video is age-restricted plays no part. *)
Theorem getVideoInfo_returns_iff (lib : Library) (url : string) (log : list Call)
    (info : videoInfo) :
  fst (getVideoInfo lib url log) = Return info <->
  validateUrl lib url = true /\ ytdl_getInfo lib url = Ok info /\
  isPrivate (videoDetails info) = false.
Proof.
  yt_unfold. destruct (validateUrl lib url); cbn [negb].
  - destruct (ytdl_getInfo lib url) as [i|e]; cbn.
    + destruct (isPrivate (videoDetails i)) eqn:P; cbn.
      * split; [discriminate|]. intros (_ & H & H'). injection H as ->. congruence.
      * destruct (age_restricted (videoDetails i)); cbn;
          (split; [intros H; injection H as ->; auto | intros (_ & H & _); congruence]).
    + split; [discriminate | intros (_ & H & _); discriminate].
  - cbn. split; [discriminate | intros (H & _); discriminate].
Qed.

Lemma getVideoInfo_returns_iff_witness :
  fst (getVideoInfo (sample_library false None None) "https://youtu.be/abc" [])
  = Return (sample_info false).
Proof.
  apply (proj2 (getVideoInfo_returns_iff (sample_library false None None)
                  "https://youtu.be/abc" [] (sample_info false))).
  repeat split.
Defined.

(** X21. Every error of [getVideoInfo] is a [VideoDownloadError]:
    [INVALID_URL] without any call of [ytdl.getInfo] when the URL is
    rejected, [VIDEO_PRIVATE] for a private video (not rewrapped), and
    [METADATA_FETCH_FAILED] with the message of the library error, or a
    default one when that is empty. *)
Theorem getVideoInfo_errors (lib : Library) (url : string) (log : list Call) (t : Thrown) :
  fst (getVideoInfo lib url log) = Raise t ->
  (validateUrl lib url = false /\
   t = VideoDownloadError "Invalid YouTube URL provided" "INVALID_URL" /\
   snd (getVideoInfo lib url log) = log)
  \/
  (validateUrl lib url = true /\
   snd (getVideoInfo lib url log) = (log ++ [GetInfo url])%list /\
   ((exists info, ytdl_getInfo lib url = Ok info /\ isPrivate (videoDetails info) = true /\
                  t = VideoDownloadError "Video is private" "VIDEO_PRIVATE")
    \/
    (exists e, ytdl_getInfo lib url = Throw e /\
               t = VideoDownloadError
                     (if Str.is_empty (exn_message e)
                      then "Failed to fetch video metadata" else exn_message e)
                     "METADATA_FETCH_FAILED"))).
Proof.
  yt_unfold. destruct (validateUrl lib url); cbn [negb].
  - intros H. right. split; [reflexivity|].
    destruct (ytdl_getInfo lib url) as [i|e]; cbn in *.
    + destruct (isPrivate (videoDetails i)) eqn:P; cbn in *.
      * injection H as <-. split; [reflexivity|]. left. now exists i.
      * destruct (age_restricted (videoDetails i)); discriminate.
    + injection H as <-. split; [reflexivity|]. right. now exists e.
  - cbn. intros H. injection H as <-. left. auto.
Qed.

Lemma getVideoInfo_errors_witness :
  fst (getVideoInfo (sample_library true None None) "https://youtu.be/abc" [])
  = Raise (VideoDownloadError "Video is private" "VIDEO_PRIVATE") /\
  snd (getVideoInfo (sample_library true None None) "https://youtu.be/abc" [])
  = [GetInfo "https://youtu.be/abc"].
Proof.
  split; [reflexivity|].
  destruct (getVideoInfo_errors (sample_library true None None) "https://youtu.be/abc" []
              (VideoDownloadError "Video is private" "VIDEO_PRIVATE") eq_refl)
    as [(H & _) | (_ & H & _)]; [discriminate H | exact H].
Defined.

Lemma keep_forallb f s : Str.forallb f (keep f s) = true.
Proof.
  induction s as [|a s IH]; [reflexivity|]. cbn.
  destruct (f a) eqn:E; [cbn; now rewrite E | exact IH].
Qed.

Lemma keep_id f s : Str.forallb f s = true -> keep f s = s.
Proof.
  induction s as [|a s IH]; [reflexivity|]. cbn.
  destruct (f a); [|discriminate]. cbn. intros H. now rewrite IH.
Qed.

Lemma getVideoInfo_log lib url log :
  snd (getVideoInfo lib url log) =
  if validateUrl lib url then (log ++ [GetInfo url])%list else log.
Proof.
  yt_unfold. destruct (validateUrl lib url); cbn [negb]; [|reflexivity].
  destruct (ytdl_getInfo lib url) as [i|e]; cbn; [|reflexivity].
  destruct (isPrivate (videoDetails i)); cbn; [reflexivity|].
  now destruct (age_restricted (videoDetails i)).
Qed.

(** X22. The title [downloadMp4] returns is the title of the video with
    every character other than letters, digits, [_] and white space
    removed; a title made of such characters only is returned unchanged. *)
Theorem downloadMp4_title_is_sanitized (lib : Library) (url : string) (log : list Call)
    (d : Download) :
  fst (downloadMp4 lib url log) = Return d ->
  exists info,
    ytdl_getInfo lib url = Ok info /\
    download_title d = sanitize (title (videoDetails info)) /\
    Str.forallb title_char (download_title d) = true /\
    (Str.forallb title_char (title (videoDetails info)) = true ->
     download_title d = title (videoDetails info)).
Proof.
  intros H.
  destruct (getVideoInfo lib url log) as [[info|t] log1] eqn:G.
  - assert (G' : fst (getVideoInfo lib url log) = Return info) by now rewrite G.
    apply getVideoInfo_Return in G'. destruct G' as (_ & Hinfo).
    exists info. split; [exact Hinfo|].
    unfold downloadMp4 in H. cbn [bind ret Monad_Y] in H. rewrite G in H.
    unfold library, catch, call, raise in H. cbn [bind ret Monad_Y] in H.
    destruct (ytdl_chooseFormat lib (formats info) mp4_with_audio_and_video) as [[f|]|e];
      try discriminate.
    destruct (ytdl_downloadFromInfo lib info f); try discriminate.
    cbn in H. injection H as <-. cbn [download_title]. split; [reflexivity|].
    split; [apply keep_forallb | apply keep_id].
  - unfold downloadMp4 in H. cbn [bind ret Monad_Y] in H. rewrite G in H. discriminate.
Qed.

Lemma downloadMp4_title_is_sanitized_witness :
  exists d,
    fst (downloadMp4 (sample_library false (Some sample_format) None)
           "https://youtu.be/abc" []) = Return d /\
    download_title d = "Rocq a proof assistant part 1" /\
    Str.forallb title_char (download_title d) = true.
Proof.
  eexists. split; [reflexivity|].
  destruct (downloadMp4_title_is_sanitized (sample_library false (Some sample_format) None)
              "https://youtu.be/abc" [] _ eq_refl) as (info & Hinfo & T & C & _).
  cbn in Hinfo. injection Hinfo as <-. split; [exact T | exact C].
Defined.

(** X23. The errors of [downloadMp4]: an error of [getVideoInfo] passes
    unchanged; an exception of [ytdl.chooseFormat] escapes as it is, not
    wrapped; no format gives [FORMAT_UNAVAILABLE] and the stream is never
    opened; a failure to open the stream gives [DOWNLOAD_INIT_FAILED] with
    the message of the library error or a default one. *)
Theorem downloadMp4_errors (lib : Library) (url : string) (log : list Call) (t : Thrown) :
  fst (downloadMp4 lib url log) = Raise t ->
  let log' := snd (downloadMp4 lib url log) in
  (fst (getVideoInfo lib url log) = Raise t /\ log' = snd (getVideoInfo lib url log))
  \/
  exists info,
    fst (getVideoInfo lib url log) = Return info /\
    ((exists e, ytdl_chooseFormat lib (formats info) mp4_with_audio_and_video = Throw e /\
                t = LibraryError e /\ log' = (log ++ [GetInfo url])%list)
     \/
     (ytdl_chooseFormat lib (formats info) mp4_with_audio_and_video = Ok None /\
      t = VideoDownloadError "No suitable MP4 (Audio+Video) format found"
            "FORMAT_UNAVAILABLE" /\
      log' = (log ++ [GetInfo url])%list)
     \/
     (exists format e,
         ytdl_chooseFormat lib (formats info) mp4_with_audio_and_video = Ok (Some format) /\
         ytdl_downloadFromInfo lib info format = Some e /\
         t = VideoDownloadError
               (if Str.is_empty (exn_message e)
                then "Download stream initialization failed" else exn_message e)
               "DOWNLOAD_INIT_FAILED" /\
         log' = (log ++ [GetInfo url; DownloadFromInfo format])%list)).
Proof.
  intros H log'. subst log'.
  pose proof (getVideoInfo_log lib url log) as L.
  unfold downloadMp4 in *. cbn [bind ret Monad_Y] in *.
  destruct (getVideoInfo lib url log) as [[info|t'] log1] eqn:G; cbn [fst snd] in *.
  - right. exists info. split; [reflexivity|].
    assert (V : validateUrl lib url = true).
    { assert (G' : fst (getVideoInfo lib url log) = Return info) by now rewrite G.
      now apply getVideoInfo_Return in G'. }
    rewrite V in L. subst log1.
    unfold library, catch, call, raise in *. cbn [bind ret Monad_Y] in *.
    destruct (ytdl_chooseFormat lib (formats info) mp4_with_audio_and_video) as [[f|]|e];
      cbn [fst snd] in *.
    + destruct (ytdl_downloadFromInfo lib info f) as [e|] eqn:D; cbn in H |- *; [|discriminate].
      injection H as <-. right. right. exists f, e.
      rewrite <- app_assoc. repeat split. exact D.
    + injection H as <-. right. left. repeat split.
    + injection H as <-. left. exists e. repeat split.
  - left. injection H as <-. split; reflexivity.
Qed.

Lemma downloadMp4_errors_witness :
  let lib := sample_library false (Some sample_format) (Some (Error "")) in
  fst (downloadMp4 lib "https://youtu.be/abc" [])
  = Raise (VideoDownloadError "Download stream initialization failed"
             "DOWNLOAD_INIT_FAILED") /\
  snd (downloadMp4 lib "https://youtu.be/abc" [])
  = [GetInfo "https://youtu.be/abc"; DownloadFromInfo sample_format].
Proof.
  intros lib. split; [reflexivity|].
  pose proof (downloadMp4_errors lib "https://youtu.be/abc" []
                (VideoDownloadError "Download stream initialization failed"
                   "DOWNLOAD_INIT_FAILED") eq_refl) as H.
  cbv zeta in H.
  destruct H as [(H & _) | (info & _ & [(e & H & _) | [(H & _) | (f & e & H & _ & _ & L)]])];
    try (cbn in H; discriminate H).
  cbn in H. injection H as <-. exact L.
Defined.

(** X24. [downloadMp4] returns exactly when [getVideoInfo] returns,
    [ytdl.chooseFormat] finds a format and the stream opens; the result
    then carries that format, the sanitized title, and as size the parsed
    [contentLength] of the format, or 0 when it is absent or empty. The
    library was then called for the metadata, for the stream and for the
    pipe, in this order. *)
Theorem downloadMp4_returns_iff (lib : Library) (url : string) (log : list Call)
    (d : Download) :
  (fst (downloadMp4 lib url log) = Return d <->
   exists info,
     fst (getVideoInfo lib url log) = Return info /\
     ytdl_chooseFormat lib (formats info) mp4_with_audio_and_video = Ok (Some (stream d)) /\
     ytdl_downloadFromInfo lib info (stream d) = None /\
     download_title d = sanitize (title (videoDetails info)) /\
     size d = match contentLength (stream d) with
              | None => Some 0
              | Some text => if Str.is_empty text then Some 0 else parseInt lib text
              end) /\
  (fst (downloadMp4 lib url log) = Return d ->
   snd (downloadMp4 lib url log)
   = (log ++ [GetInfo url; DownloadFromInfo (stream d); Pipe])%list).
Proof.
  pose proof (getVideoInfo_log lib url log) as L.
  pose proof (getVideoInfo_Return lib url log) as V.
  unfold downloadMp4. cbn [bind ret Monad_Y].
  destruct (getVideoInfo lib url log) as [[info|t] log1]; cbn [fst snd] in *.
  2:{ split; [split; [discriminate | intros (i & H & _); discriminate] | discriminate]. }
  destruct (V info eq_refl) as (Hv & _). rewrite Hv in L. subst log1. clear V Hv.
  unfold library, catch, call, raise. cbn [bind ret Monad_Y].
  destruct (ytdl_chooseFormat lib (formats info) mp4_with_audio_and_video) as [[f|]|e] eqn:C;
    cbn [fst snd].
  2:{ split; [split; [discriminate|] | discriminate].
      intros (i & H & H' & _). injection H as <-. congruence. }
  2:{ split; [split; [discriminate|] | discriminate].
      intros (i & H & H' & _). injection H as <-. congruence. }
  destruct (ytdl_downloadFromInfo lib info f) as [e|] eqn:D; cbn [fst snd].
  - split; [split; [discriminate|] | discriminate].
    intros (i & H & H' & H'' & _). injection H as <-. rewrite C in H'.
    injection H' as E. rewrite <- E in H''. congruence.
  - split; [split|].
    + intros H. injection H as <-. exists info. cbn. repeat split; assumption.
    + intros (i & H & H' & _ & T & S). injection H as <-. rewrite C in H'.
      injection H' as ->.
      destruct d as [st ti si]. cbn in *. now subst.
    + intros H. injection H as <-. cbn. rewrite <- !app_assoc. reflexivity.
Qed.

Lemma downloadMp4_returns_iff_witness :
  let lib := sample_library false (Some sample_format) None in
  exists d,
    fst (downloadMp4 lib "https://youtu.be/abc" []) = Return d /\
    size d = Some 1048576 /\
    snd (downloadMp4 lib "https://youtu.be/abc" [])
    = [GetInfo "https://youtu.be/abc"; DownloadFromInfo sample_format; Pipe].
Proof.
  intros lib.
  exists (mkDownload sample_format "Rocq a proof assistant part 1" (Some 1048576)).
  assert (R : fst (downloadMp4 lib "https://youtu.be/abc" [])
              = Return (mkDownload sample_format "Rocq a proof assistant part 1"
                          (Some 1048576))).
  { apply (proj2 (proj1 (downloadMp4_returns_iff lib "https://youtu.be/abc" [] _))).
    exists (sample_info false). repeat split. }
  split; [exact R|]. split; [reflexivity|].
  exact (proj2 (downloadMp4_returns_iff lib "https://youtu.be/abc" [] _) R).
Defined.

End YouTubeFacts.
